(** * HR automation system: the CV parsing and categorisation pipeline

    A shallow embedding of [hr_app/utils/cv_parser.py] (classes [CVParser]
    and [CVAnalyzer]), of the methods of [Candidate] in [hr_app/models.py]
    and of the POST branches of [upload_cv], [process_cv] and
    [categorize_candidates] in [hr_app/views.py], together with the
    properties of the pipeline.

    Conventions of the embedding.
    - A Python [str] is a list of characters; a character is one of the 256
      code points U+0000..U+00FF, carried by [ascii] and read as Latin-1.
      The classes [\w], [\s], [\d], [str.lower], [str.isupper] and
      [str.strip] follow CPython's Unicode tables on that block.
    - A Python [float] is an IEEE 754 binary64 number: [float] of a digit
      string, [+] and [/] round to nearest, ties to even, and overflow to
      infinity, as [SpecFloat] of the Standard Library defines them.  Once
      computed, a number is kept by its value: a rational, an infinity or
      not-a-number.
    - [print] writes to [sys.stdout], and the write may raise: the stream
      is part of the environment, next to the document libraries. *)

From Stdlib Require Import String Ascii List Bool Arith NArith ZArith QArith Lia.
From Stdlib Require Import Qpower SpecFloat DecimalString.
Import ListNotations.

Close Scope Q_scope.
Close Scope Z_scope.
Close Scope N_scope.
Open Scope string_scope.
Open Scope list_scope.
Open Scope nat_scope.

Set Implicit Arguments.

(** ** Strings *)

Definition str := list ascii.

Definition of_string (s : string) : str := list_ascii_of_string s.
Coercion of_string : string >-> str.

Definition cat (a b : str) : str := a ++ b.
Infix "+++" := cat (at level 60, right associativity).

Definition LF : ascii := ascii_of_nat 10.
Definition CR : ascii := ascii_of_nat 13.
Definition SP : ascii := ascii_of_nat 32.

Definition nl : str := [LF].

Definition code (c : ascii) : N := N_of_ascii c.

Definition between (lo hi : N) (c : ascii) : bool :=
  ((lo <=? code c) && (code c <=? hi))%N.

Fixpoint str_eqb (a b : str) : bool :=
  match a, b with
  | [], [] => true
  | x :: a', y :: b' => Ascii.eqb x y && str_eqb a' b'
  | _, _ => false
  end.

(** [Py_UNICODE_ISSPACE] on U+0000..U+00FF: TAB..CR, FS..US, space, NEL,
    NBSP. *)
Definition is_space (c : ascii) : bool :=
  between 9 13 c || between 28 32 c
  || (code c =? 133)%N || (code c =? 160)%N.

(** [Py_UNICODE_ISDECIMAL] on the block: the ten ASCII digits. *)
Definition is_digit (c : ascii) : bool := between 48 57 c.

Definition is_ascii_upper (c : ascii) : bool := between 65 90 c.
Definition is_ascii_lower (c : ascii) : bool := between 97 122 c.

(** Upper-case letters of the block: A-Z, U+00C0..U+00DE without the
    multiplication sign. *)
Definition is_upper (c : ascii) : bool :=
  is_ascii_upper c || (between 192 222 c && negb (code c =? 215)%N).

(** Characters with the Lowercase property: a-z, the two ordinal
    indicators, the micro sign, U+00DF..U+00FF without the division sign. *)
Definition is_lower (c : ascii) : bool :=
  is_ascii_lower c || (code c =? 170)%N || (code c =? 181)%N
  || (code c =? 186)%N || (between 223 255 c && negb (code c =? 247)%N).

(** [Py_UNICODE_ISALNUM]: letters, the digits, and the numeric signs
    superscript 1 2 3 and the three vulgar fractions. *)
Definition is_alnum (c : ascii) : bool :=
  is_digit c || is_upper c || is_lower c
  || (code c =? 178)%N || (code c =? 179)%N || (code c =? 185)%N
  || between 188 190 c.

(** [\w] *)
Definition is_word (c : ascii) : bool :=
  is_alnum c || (code c =? 95)%N.

(** [str.lower] on one character: every upper-case letter of the block has
    its lower-case partner 32 code points above. *)
Definition lower_char (c : ascii) : ascii :=
  if is_upper c then ascii_of_N (code c + 32) else c.

(** The upper-case partner inside the block, when there is one. *)
Definition upper_char (c : ascii) : ascii :=
  if is_ascii_lower c || (between 224 254 c && negb (code c =? 247)%N)
  then ascii_of_N (code c - 32) else c.

Definition lower (s : str) : str := map lower_char s.

(** [str.isupper]: no lower-case character and at least one upper-case. *)
Definition isupper (s : str) : bool :=
  forallb (fun c => negb (is_lower c)) s && existsb is_upper s.

Fixpoint lstrip (s : str) : str :=
  match s with
  | c :: tl => if is_space c then lstrip tl else s
  | [] => []
  end.

Definition rstrip (s : str) : str := rev (lstrip (rev s)).

(** [str.strip()] *)
Definition strip (s : str) : str := rstrip (lstrip s).

Fixpoint startswith (p s : str) : bool :=
  match p, s with
  | [], _ => true
  | x :: p', y :: s' => Ascii.eqb x y && startswith p' s'
  | _ :: _, [] => false
  end.

(** [sub in s] on strings. *)
Fixpoint str_in (sub s : str) : bool :=
  startswith sub s ||
  match s with
  | [] => false
  | _ :: tl => str_in sub tl
  end.

(** [s.replace(old, new)] for a non-empty [old]: leftmost occurrences,
    not overlapping.  [skip] counts the characters of an occurrence that
    are still to be dropped. *)
Fixpoint replace_go (old new : str) (skip : nat) (s : str) : str :=
  match s with
  | [] => []
  | c :: tl =>
      match skip with
      | S k => replace_go old new k tl
      | O =>
          if startswith old s
          then new ++ replace_go old new (length old - 1) tl
          else c :: replace_go old new 0 tl
      end
  end.

Definition replace (old new s : str) : str := replace_go old new 0 s.

(** [s.split(sep)] for a one-character separator. *)
Fixpoint split_on (sep : ascii) (s : str) : list str :=
  match s with
  | [] => [[]]
  | c :: tl =>
      if Ascii.eqb c sep then [] :: split_on sep tl
      else match split_on sep tl with
           | l :: ls => (c :: l) :: ls
           | [] => [[c]]
           end
  end.

(** [sep.join(items)] *)
Fixpoint join (sep : str) (items : list str) : str :=
  match items with
  | [] => []
  | [x] => x
  | x :: tl => x ++ sep ++ join sep tl
  end.

(** ** Regular expressions

    The patterns of the source are kept as abstract syntax, each next to
    the pattern text it stands for.  The matcher is a backtracking one, as
    [re] is: alternatives left to right, greedy repetition longest first,
    lazy repetition shortest first, the leftmost start position wins. *)

Inductive citem : Type :=
| IChar (c : ascii)
| IRange (lo hi : ascii)
| IDigit
| ISpace
| IWord.

Inductive cset : Type :=
| Dot
| OneOf (items : list citem)
| NoneOf (items : list citem).

Inductive regex : Type :=
| Eps
| Cls (cs : cset)
| Cat (r1 r2 : regex)
| Alt (r1 r2 : regex)
| Rep (greedy : bool) (lo : nat) (hi : option nat) (r : regex)
| Grp (i : nat) (r : regex)
| Bnd.

Record flags : Type := Flags { IGNORECASE : bool; DOTALL : bool }.

Definition no_flags : flags := Flags false false.

Definition in_range (lo hi c : ascii) : bool := between (code lo) (code hi) c.

Definition citem_match (fl : flags) (it : citem) (c : ascii) : bool :=
  match it with
  | IChar x =>
      if IGNORECASE fl then Ascii.eqb (lower_char c) (lower_char x)
      else Ascii.eqb c x
  | IRange lo hi =>
      if IGNORECASE fl
      then in_range lo hi c || in_range lo hi (lower_char c)
           || in_range lo hi (upper_char c)
      else in_range lo hi c
  | IDigit => is_digit c
  | ISpace => is_space c
  | IWord => is_word c
  end.

Definition cset_match (fl : flags) (cs : cset) (c : ascii) : bool :=
  match cs with
  | Dot => DOTALL fl || negb (Ascii.eqb c LF)
  | OneOf items => existsb (fun it => citem_match fl it c) items
  | NoneOf items => negb (existsb (fun it => citem_match fl it c) items)
  end.

(** The state of a match attempt: the character before the cursor (for
    [\b]), the text from the cursor on, and the groups captured so far. *)
Record mstate : Type := MState {
  prev : option ascii;
  rest : str;
  caps : list (nat * str)
}.

Definition cont : Type := mstate -> option mstate.

Definition orelse (a b : option mstate) : option mstate :=
  match a with
  | Some x => Some x
  | None => b
  end.

Definition is_word_opt (o : option ascii) : bool :=
  match o with
  | Some c => is_word c
  | None => false
  end.

(** [\b]: exactly one side of the cursor is a word character. *)
Definition at_boundary (st : mstate) : bool :=
  xorb (is_word_opt (prev st)) (is_word_opt (hd_error (rest st))).

Definition consumed (st st' : mstate) : nat :=
  length (rest st) - length (rest st').

Definition under (cnt : nat) (hi : option nat) : bool :=
  match hi with
  | Some h => cnt <? h
  | None => true
  end.

Section Repeat.
Variable body : cont -> mstate -> option mstate.
Variables (greedy : bool) (lo : nat) (hi : option nat) (k : cont).

(** One more round of the body has to move the cursor; [fuel] starts
    above the number of characters left, so it never runs out before the
    text does. *)
Fixpoint rep_loop (fuel cnt : nat) (st : mstate) : option mstate :=
  let more :=
    match fuel with
    | O => None
    | S fuel' =>
        if under cnt hi
        then body (fun st' =>
                     if length (rest st') <? length (rest st)
                     then rep_loop fuel' (S cnt) st' else None) st
        else None
    end in
  let stop := if lo <=? cnt then k st else None in
  if greedy then orelse more stop else orelse stop more.
End Repeat.

Fixpoint rmatch (fl : flags) (r : regex) (k : cont) (st : mstate)
  : option mstate :=
  match r with
  | Eps => k st
  | Cls cs =>
      match rest st with
      | c :: tl =>
          if cset_match fl cs c then k (MState (Some c) tl (caps st))
          else None
      | [] => None
      end
  | Cat r1 r2 => rmatch fl r1 (rmatch fl r2 k) st
  | Alt r1 r2 => orelse (rmatch fl r1 k st) (rmatch fl r2 k st)
  | Rep greedy lo hi r1 =>
      rep_loop (rmatch fl r1) greedy lo hi k (S (length (rest st))) 0 st
  | Grp i r1 =>
      rmatch fl r1
        (fun st' =>
           k (MState (prev st') (rest st')
                ((i, firstn (consumed st st') (rest st)) :: caps st')))
        st
  | Bnd => if at_boundary st then k st else None
  end.

(** A match object: the text of group 0 and the captured groups. *)
Record match_obj : Type := Match {
  group0 : str;
  groups : list (nat * str);
  after : mstate
}.

Definition match_at (fl : flags) (r : regex) (p : option ascii) (s : str)
  : option match_obj :=
  match rmatch fl r (fun st => Some st) (MState p s []) with
  | Some st' => Some (Match (firstn (length s - length (rest st')) s)
                            (caps st') st')
  | None => None
  end.

(** [m.group(i)] for [i >= 1]; a group that took no part gives [None]. *)
Fixpoint lookup_group (i : nat) (g : list (nat * str)) : option str :=
  match g with
  | [] => None
  | (j, s) :: tl => if Nat.eqb i j then Some s else lookup_group i tl
  end.

Definition group (m : match_obj) (i : nat) : option str :=
  lookup_group i (groups m).

(** [re.search]: the first start position, left to right, with a match. *)
Fixpoint search_from (fl : flags) (r : regex) (p : option ascii) (s : str)
  : option match_obj :=
  match match_at fl r p s with
  | Some m => Some m
  | None =>
      match s with
      | [] => None
      | c :: tl => search_from fl r (Some c) tl
      end
  end.

Definition re_search (fl : flags) (r : regex) (s : str) : option match_obj :=
  search_from fl r None s.

(** The scan behind [re.findall] and [re.sub]: the text cut into matches
    and the characters between them. *)
Inductive piece : Type :=
| Keep (c : ascii)
| Hit (m : match_obj).

Fixpoint scan (fl : flags) (r : regex) (fuel : nat) (p : option ascii)
  (s : str) : list piece :=
  match fuel with
  | O => []
  | S fuel' =>
      let step :=
        match s with
        | [] => []
        | c :: tl => Keep c :: scan fl r fuel' (Some c) tl
        end in
      match match_at fl r p s with
      | Some m =>
          if length (rest (after m)) <? length s
          then Hit m :: scan fl r fuel' (prev (after m)) (rest (after m))
          else Hit m :: step
      | None => step
      end
  end.

Definition pieces (fl : flags) (r : regex) (s : str) : list piece :=
  scan fl r (S (length s)) None s.

(** [re.sub(pattern, repl, s)] for a replacement without group
    references. *)
Definition re_sub (fl : flags) (r : regex) (repl s : str) : str :=
  flat_map (fun p => match p with Keep c => [c] | Hit _ => repl end)
           (pieces fl r s).

(** An item of the list [re.findall] returns: the string of the only
    group (or of the whole match when the pattern has none), or the tuple
    of all groups when there are several. *)
Inductive found : Type :=
| FStr (s : str)
| FTuple (l : list str).

Definition group_or_empty (m : match_obj) (i : nat) : str :=
  match group m i with
  | Some s => s
  | None => []
  end.

Definition found_of (ngroups : nat) (m : match_obj) : found :=
  match ngroups with
  | 0 => FStr (group0 m)
  | 1 => FStr (group_or_empty m 1)
  | _ => FTuple (map (group_or_empty m) (seq 1 ngroups))
  end.

Definition re_findall (fl : flags) (ngroups : nat) (r : regex) (s : str)
  : list found :=
  flat_map (fun p => match p with
                     | Keep _ => []
                     | Hit m => [found_of ngroups m]
                     end)
           (pieces fl r s).

(** Pattern combinators, named after the syntax they stand for. *)
Definition chr (c : ascii) : regex := Cls (OneOf [IChar c]).
Definition digit : regex := Cls (OneOf [IDigit]).
Definition space : regex := Cls (OneOf [ISpace]).
Definition word : regex := Cls (OneOf [IWord]).
Definition star (r : regex) : regex := Rep true 0 None r.
Definition plus (r : regex) : regex := Rep true 1 None r.
Definition opt (r : regex) : regex := Rep true 0 (Some 1) r.
Definition lazy_star (r : regex) : regex := Rep false 0 None r.
Definition times (lo hi : nat) (r : regex) : regex := Rep true lo (Some hi) r.
Definition at_least (lo : nat) (r : regex) : regex := Rep true lo None r.

Fixpoint lit (s : str) : regex :=
  match s with
  | [] => Eps
  | [c] => chr c
  | c :: tl => Cat (chr c) (lit tl)
  end.

Fixpoint alts (l : list regex) : regex :=
  match l with
  | [] => Eps
  | [r] => r
  | r :: tl => Alt r (alts tl)
  end.

Declare Scope re_scope.
Delimit Scope re_scope with re.
Infix "+>" := Cat (at level 61, right associativity) : re_scope.

(** ** Exceptions and the local state of the extraction functions

    [extract_text_from_pdf] and [extract_text_from_docx] keep one local
    variable, [text], which the [try] blocks update and which keeps its
    value when a block is left by an exception.  A command runs on that
    variable and ends normally, by [return], or by an exception. *)

Inductive exn : Type :=
| ValueError (msg : str)
| UnicodeEncodeError (msg : str)
| LibraryError (msg : str).

(** [str(e)] *)
Definition str_of_exn (e : exn) : str :=
  match e with
  | ValueError msg | UnicodeEncodeError msg | LibraryError msg => msg
  end.

Inductive pyresult (A : Type) : Type :=
| Return (a : A)
| Raise (e : exn).
Arguments Return {A} a.
Arguments Raise {A} e.

Inductive outcome (A : Type) : Type :=
| Normal (a : A)
| Returned (v : str)
| Raised (e : exn).
Arguments Normal {A} a.
Arguments Returned {A} v.
Arguments Raised {A} e.

Definition cmd (A : Type) : Type := str -> outcome A * str.

Definition ret {A} (a : A) : cmd A := fun text => (Normal a, text).

Definition bind {A B} (c : cmd A) (f : A -> cmd B) : cmd B :=
  fun text =>
    match c text with
    | (Normal a, text') => f a text'
    | (Returned v, text') => (Returned v, text')
    | (Raised e, text') => (Raised e, text')
    end.

Notation "x <- c ;; k" := (bind c (fun x => k))
  (at level 62, c at next level, right associativity).
Notation "c ;;; k" := (bind c (fun _ => k))
  (at level 62, right associativity).

Definition skip : cmd unit := ret tt.
Definition get_text : cmd str := fun text => (Normal text, text).
Definition set_text (t : str) : cmd unit := fun _ => (Normal tt, t).
Definition return_ {A} (v : str) : cmd A := fun text => (Returned v, text).

(** A library call: it returns a value or raises. *)
Definition call {A} (r : pyresult A) : cmd A :=
  fun text =>
    match r with
    | Return a => (Normal a, text)
    | Raise e => (Raised e, text)
    end.

Definition when (b : bool) (c : cmd unit) : cmd unit :=
  if b then c else skip.

(** [try: body except Exception as e: handler]; the exceptions of the
    model are all subclasses of [Exception]. *)
Definition try_except (body : cmd unit) (handler : exn -> cmd unit)
  : cmd unit :=
  fun text =>
    match body text with
    | (Raised e, text') => handler e text'
    | other => other
    end.

Fixpoint for_each {A} (l : list A) (body : A -> cmd unit) : cmd unit :=
  match l with
  | [] => skip
  | x :: tl => body x ;;; for_each tl body
  end.

(** A function body started with [text = ""]; falling off the end returns
    [None], which no body here does: each ends in [return text]. *)
Definition run_body (c : cmd unit) : pyresult str :=
  match c [] with
  | (Returned v, _) => Return v
  | (Raised e, _) => Raise e
  | (Normal _, text) => Return text
  end.

(** ** The document libraries and the standard output

    What the four optional libraries do on a file is their business; the
    parser sees, per library, whether the import succeeded, whether opening
    the file raises, and what each page or paragraph yields.

    [print] hands a line to [sys.stdout], and the stream accepts it or
    raises: [UnicodeEncodeError] when its encoding has no byte for a
    character of the line, for one.  The lines printed hold characters
    beyond U+00FF, so a printed line is a list of code points. *)

Definition utext : Type := list N.

Definition codes (s : str) : utext := map code s.

(** U+2713 CHECK MARK and U+26A0 WARNING SIGN *)
Definition check_mark : N := 10003%N.
Definition warning_sign : N := 9888%N.

(** [f"{n}"] of a non-negative integer *)
Definition decimal (n : N) : str :=
  of_string (NilEmpty.string_of_uint (N.to_uint n)).

(** [page.extract_text()]: a text, [None], or an exception. *)
Definition page : Type := pyresult (option str).

Record docx_document : Type := Document {
  paragraphs : list str;
  tables : list (list (list str))
}.

Record Libs : Type := {
  PDFPLUMBER_AVAILABLE : bool;
  PYPDF2_AVAILABLE : bool;
  PDFMINER_AVAILABLE : bool;
  DOCX_AVAILABLE : bool;
  pdfplumber_open : str -> pyresult (list page);
  PyPDF2_PdfReader : str -> pyresult (list page);
  pdfminer_extract : str -> pyresult str;
  docx_Document : str -> pyresult docx_document;
  stdout : utext -> pyresult unit
}.

(** [print(l)] *)
Definition print (L : Libs) (l : utext) : cmd unit := call (stdout L l).

(** Truth value of a string and of an optional string. *)
Definition nonempty (s : str) : bool :=
  match s with
  | [] => false
  | _ :: _ => true
  end.

Definition truthy (o : option str) : bool :=
  match o with
  | Some s => nonempty s
  | None => false
  end.

Definition text_of (o : option str) : str :=
  match o with
  | Some s => s
  | None => []
  end.

(** ** CVParser *)

Module CVParser.

Section WithLibs.
Variable L : Libs.

(** The page loop shared by the pdfplumber and the PyPDF2 blocks. *)
Definition add_pages (pages : list page) : cmd unit :=
  for_each pages (fun pg =>
    page_text <- call pg ;;
    when (truthy page_text)
      (text <- get_text ;; set_text (text ++ text_of page_text ++ nl))).

(** [if text.strip(): print("\u2713 Used ... for PDF extraction");
    return text] *)
Definition return_if_text (library : string) : cmd unit :=
  text <- get_text ;;
  when (nonempty (strip text))
    (print L (check_mark
              :: codes (" Used " +++ library +++ " for PDF extraction")) ;;;
     return_ text).

(** [except Exception as e: print(f"... failed: {e}")] *)
Definition report (what : string) (e : exn) : cmd unit :=
  print L (codes (what +++ str_of_exn e)).

(** Method 1: pdfplumber *)
Definition method_pdfplumber (file_path : str) : cmd unit :=
  when (PDFPLUMBER_AVAILABLE L)
    (try_except
       (pdf <- call (pdfplumber_open L file_path) ;;
        add_pages pdf ;;;
        return_if_text "pdfplumber")
       (report "pdfplumber failed: ")).

(** Method 2: PyPDF2 *)
Definition method_pypdf2 (file_path : str) : cmd unit :=
  when (PYPDF2_AVAILABLE L)
    (try_except
       (pdf_reader <- call (PyPDF2_PdfReader L file_path) ;;
        add_pages pdf_reader ;;;
        return_if_text "PyPDF2")
       (report "PyPDF2 failed: ")).

(** Method 3: pdfminer *)
Definition method_pdfminer (file_path : str) : cmd unit :=
  when (PDFMINER_AVAILABLE L)
    (try_except
       (t <- call (pdfminer_extract L file_path) ;;
        set_text t ;;;
        return_if_text "pdfminer")
       (report "pdfminer failed: ")).

(** The two lines after the three methods, outside every [try]. *)
Definition suggest_ocr : cmd unit :=
  text <- get_text ;;
  when (negb (nonempty (strip text)))
    (print L (warning_sign
              :: codes " No text could be extracted. The PDF might be scanned.") ;;;
     print L (codes "   Consider using OCR: pip install pytesseract pillow")).

Definition extract_text_from_pdf (file_path : str) : pyresult str :=
  run_body (
    method_pdfplumber file_path ;;;
    method_pypdf2 file_path ;;;
    method_pdfminer file_path ;;;
    suggest_ocr ;;;
    text <- get_text ;;
    return_ text).

Definition method_docx (file_path : str) : cmd unit :=
  when (DOCX_AVAILABLE L)
    (try_except
       (doc <- call (docx_Document L file_path) ;;
        for_each (paragraphs doc) (fun paragraph =>
          text <- get_text ;; set_text (text ++ paragraph ++ nl)) ;;;
        for_each (tables doc) (fun table =>
          for_each table (fun row =>
            for_each row (fun cell =>
              text <- get_text ;; set_text (text ++ cell ++ nl)))))
       (report "Error reading DOCX: ")).

Definition extract_text_from_docx (file_path : str) : pyresult str :=
  run_body (
    method_docx file_path ;;;
    text <- get_text ;;
    return_ text).

Definition extract_text (file_path file_extension : str)
  : pyresult str :=
  let file_extension := lower file_extension in
  if str_eqb file_extension ".pdf" then extract_text_from_pdf file_path
  else if str_eqb file_extension ".docx"
       then extract_text_from_docx file_path
       else Raise (ValueError
                     ("Unsupported file format: " +++ file_extension)).
End WithLibs.

(** The four regular expressions and replacements of
    [clean_extracted_text]. *)

(** [\s+] *)
Definition re_whitespace : regex := plus space.

(** [[^\w\s.,:;!?@()\-/]] *)
Definition special : cset :=
  NoneOf [IWord; ISpace; IChar "."; IChar ","; IChar ":"; IChar ";";
          IChar "!"; IChar "?"; IChar "@"; IChar "("; IChar ")";
          IChar "-"; IChar "/"].

Definition re_special : regex := Cls special.

(** [\n\s*\n] *)
Definition re_blank_lines : regex := (chr LF +> star space +> chr LF)%re.

Definition clean_extracted_text (text : str) : str :=
  if negb (nonempty text) then []
  else
    let text := re_sub no_flags re_whitespace " " text in
    let text := re_sub no_flags re_special " " text in
    let text := replace [CR] [LF] (replace [CR; LF] [LF] text) in
    let text := re_sub no_flags re_blank_lines [LF; LF] text in
    strip text.

End CVParser.

(** ** Floats

    [float] is binary64: 53 bits of precision, exponents below 1024. *)

Module Float.

Definition prec : Z := 53%Z.
Definition emax : Z := 1024%Z.

(** [float(n)] of an integer [n], which is also [float(s)] of a decimal
    numeral [s] of [n]: the nearest float, ties to even, and infinity
    from 2^1024 - 2^970 on. *)
Definition of_Z (n : Z) : spec_float := binary_normalize prec emax n 0%Z false.

Definition add (x y : spec_float) : spec_float := SFadd prec emax x y.

Definition div (x y : spec_float) : spec_float := SFdiv prec emax x y.

End Float.

(** ** CVAnalyzer *)

(** A pattern of the source: its text, the number of capturing groups, and
    its syntax. *)
Record pattern : Type := Pattern {
  src : string;
  ngroups : nat;
  re : regex
}.

Module CVAnalyzer.

Definition SKILL_KEYWORDS : list (str * list str) :=
  map (fun kv : string * list string =>
         (of_string (fst kv), map of_string (snd kv)))
  [ ("python",
     ["python"; "python3"; "python 3"; "python programming"; "django";
      "flask"; "fastapi"; "pandas"; "numpy"]);
    ("java",
     ["java"; "java programming"; "spring"; "spring boot";
      "spring framework"; "hibernate"; "j2ee"]);
    ("javascript",
     ["javascript"; "js"; "node.js"; "nodejs"; "react"; "angular"; "vue";
      "typescript"; "express.js"]);
    ("sql",
     ["sql"; "mysql"; "postgresql"; "postgres"; "oracle"; "sql server";
      "database"; "mongodb"]);
    ("excel",
     ["excel"; "microsoft excel"; "spreadsheet"; "vlookup";
      "pivot table"]);
    ("ml",
     ["machine learning"; "ml"; "ai"; "artificial intelligence";
      "deep learning"; "neural network"; "tensorflow";
      "pytorch"]);
    ("data_analysis",
     ["data analysis"; "data analytics"; "power bi"; "tableau";
      "data visualization"; "business intelligence"]);
    ("web_development",
     ["html"; "css"; "bootstrap"; "web development"; "frontend";
      "backend"; "full stack"]);
    ("cloud",
     ["aws"; "amazon web services"; "azure"; "google cloud"; "gcp";
      "cloud computing"; "docker"; "kubernetes"]);
    ("testing",
     ["testing"; "selenium"; "junit"; "testng"; "automation testing";
      "manual testing"]);
    ("devops",
     ["devops"; "ci/cd"; "jenkins"; "git"; "github";
      "gitlab"]) ].

(** [(?:years?|yrs?)] *)
Definition years_or_yrs : regex :=
  Alt (lit "year" +> opt (chr "s"))%re (lit "yr" +> opt (chr "s"))%re.

(** "5 years experience" *)
Definition years_experience : pattern :=
  Pattern "(\d+)\s*(?:years?|yrs?)\s*(?:\+)?\s*experience" 1
    (Grp 1 (plus digit) +> star space +> years_or_yrs +> star space
     +> opt (chr "+") +> star space +> lit "experience")%re.

(** "experience of 5 years" *)
Definition experience_years_of : pattern :=
  Pattern "experience.*?(\d+)\s*(?:years?|yrs?)" 1
    (lit "experience" +> lazy_star (Cls Dot) +> Grp 1 (plus digit)
     +> star space +> years_or_yrs)%re.

(** "5+ years" *)
Definition plus_years : pattern :=
  Pattern "(\d+)\+?\s*years?" 1
    (Grp 1 (plus digit) +> opt (chr "+") +> star space +> lit "year"
     +> opt (chr "s"))%re.

(** "3-5 years" *)
Definition years_range : pattern :=
  Pattern "(\d+)\s*-\s*(\d+)\s*years?" 2
    (Grp 1 (plus digit) +> star space +> chr "-" +> star space
     +> Grp 2 (plus digit) +> star space +> lit "year"
     +> opt (chr "s"))%re.

(** "24 months" *)
Definition months : pattern :=
  Pattern "(\d+)\s*months?" 1
    (Grp 1 (plus digit) +> star space +> lit "month" +> opt (chr "s"))%re.

Definition EXPERIENCE_PATTERNS : list pattern :=
  [ years_experience; experience_years_of; plus_years; years_range;
    months ].

(** The end of a captured section: [(?:\n\n|\n\w+:)] *)
Definition section_end : regex :=
  Alt (chr LF +> chr LF)%re (chr LF +> plus word +> chr ":")%re.

(** [[\s:]*(.*?)(?:\n\n|\n\w+:)], the tail shared by the section
    patterns. *)
Definition section_tail : regex :=
  (star (Cls (OneOf [ISpace; IChar ":"])) +> Grp 1 (lazy_star (Cls Dot))
   +> section_end)%re.

Definition section_flags : flags := Flags true true.

Definition skill_contexts : list pattern :=
  [ Pattern "skills?[\s:]*(.*?)(?:\n\n|\n\w+:)" 1
      (lit "skill" +> opt (chr "s") +> section_tail)%re;
    Pattern "technical\s*skills?[\s:]*(.*?)(?:\n\n|\n\w+:)" 1
      (lit "technical" +> star space +> lit "skill" +> opt (chr "s")
       +> section_tail)%re;
    Pattern "expertise[\s:]*(.*?)(?:\n\n|\n\w+:)" 1
      (lit "expertise" +> section_tail)%re ].

Definition mem (x : str) (l : list str) : bool := existsb (str_eqb x) l.

(** [for variation in variations: if hit(variation): ...; break] *)
Fixpoint check_variations (hit : str -> bool) (skill : str)
  (variations : list str) (found_skills : list str) : list str :=
  match variations with
  | [] => found_skills
  | variation :: tl =>
      if hit variation
      then (if mem skill found_skills then found_skills
            else found_skills ++ [skill])
      else check_variations hit skill tl found_skills
  end.

(** [for skill, variations in SKILL_KEYWORDS.items(): ...] *)
Definition check_skills (hit : str -> bool) (found_skills : list str)
  : list str :=
  fold_left (fun found kv => check_variations hit (fst kv) (snd kv) found)
            SKILL_KEYWORDS found_skills.

(** [r'\b' + re.escape(variation) + r'\b'] *)
Definition word_pattern (variation : str) : regex :=
  (Bnd +> lit variation +> Bnd)%re.

Definition extract_skills (text : str) : list str :=
  let text_lower := lower text in
  let found_skills :=
    check_skills
      (fun variation =>
         match re_search (Flags true false) (word_pattern variation)
                         text_lower with
         | Some _ => true
         | None => false
         end) [] in
  fold_left
    (fun found_skills pat =>
       match re_search section_flags (re pat) text_lower with
       | Some m =>
           let skills_text := group_or_empty m 1 in
           check_skills (fun variation =>
                           str_in variation (lower skills_text))
                        found_skills
       | None => found_skills
       end)
    skill_contexts found_skills.

(** The value of a Python number, [experience_years] above all: a
    finite float or an [int] by the rational it denotes, an infinity, or
    not-a-number.  Comparisons with the integer constants of the rules
    are exact. *)
Inductive pyfloat : Type :=
| Finite (q : Q)
| PosInf
| NegInf
| NaN.

(** [e >= k] *)
Definition ge (e : pyfloat) (k : Z) : bool :=
  match e with
  | Finite q => Qle_bool (inject_Z k) q
  | PosInf => true
  | NegInf => false
  | NaN => false
  end.

(** [e < k] *)
Definition lt (e : pyfloat) (k : Z) : bool :=
  match e with
  | Finite q => negb (Qle_bool (inject_Z k) q)
  | PosInf => false
  | NegInf => true
  | NaN => false
  end.

(** [e == k] *)
Definition eq_num (e : pyfloat) (k : Z) : bool :=
  match e with
  | Finite q => Qeq_bool q (inject_Z k)
  | _ => false
  end.

(** [x > y] between two numbers; never true of not-a-number. *)
Definition greater (x y : pyfloat) : bool :=
  match x, y with
  | NaN, _ | _, NaN => false
  | NegInf, _ => false
  | _, PosInf => false
  | PosInf, _ => true
  | _, NegInf => true
  | Finite a, Finite b => negb (Qle_bool a b)
  end.

(** The value of a float, the rational in lowest terms. *)
Definition value (x : spec_float) : pyfloat :=
  match x with
  | S754_zero _ => Finite 0
  | S754_infinity false => PosInf
  | S754_infinity true => NegInf
  | S754_nan => NaN
  | S754_finite s m e =>
      let q := (inject_Z (Zpos m) * Qpower 2 e)%Q in
      Finite (Qred (if s then (- q)%Q else q))
  end.

(** [float(s)] on the strings that reach it, the digit groups: the float
    nearest to the number written, [None] standing for [ValueError].
    ([float] reads more than digit strings: signs, exponents, "inf";
    no group of the patterns holds one.) *)
Definition digit_value (c : ascii) : Z := Z.of_N (code c - 48).

Definition number (s : str) : Z :=
  fold_left (fun n c => (10 * n + digit_value c)%Z) s 0%Z.

Definition float_ (s : str) : option spec_float :=
  if nonempty s && forallb is_digit s
  then Some (Float.of_Z (number s))
  else None.

(** One item of [re.findall] in the pass over the whole text. *)
Definition candidate_of (pat : pattern) (m : found) : option pyfloat :=
  match m with
  | FTuple l =>
      match float_ (nth 0 l []) with
      | Some min_years =>
          match (if 1 <? length l then float_ (nth 1 l [])
                 else Some min_years) with
          | Some max_years =>
              Some (value (Float.div (Float.add min_years max_years)
                                     (Float.of_Z 2)))
          | None => None
          end
      | None => None
      end
  | FStr s =>
      match float_ s with
      | Some years =>
          if str_in "months" (src pat)
          then Some (value (Float.div years (Float.of_Z 12)))
          else Some (value years)
      | None => None
      end
  end.

(** One item of [re.findall] in the pass over the summary section. *)
Definition summary_candidate_of (m : found) : option pyfloat :=
  match m with
  | FTuple l => option_map value (float_ (nth 0 l []))
  | FStr s => option_map value (float_ s)
  end.

Definition append_candidate (years_found : list pyfloat)
  (o : option pyfloat) : list pyfloat :=
  match o with
  | Some years => years_found ++ [years]
  | None => years_found
  end.

(** [(?:jan|feb|...|dec)[a-z]*\s+\d{4}] *)
Definition month_year : regex :=
  (alts (map (fun m : string => lit m)
             ["jan"; "feb"; "mar"; "apr"; "may"; "jun"; "jul"; "aug";
              "sep"; "oct"; "nov"; "dec"])
   +> star (Cls (OneOf [IRange "a" "z"])) +> plus space
   +> times 4 4 digit)%re.

(** [\s*(?:-|to)\s*] *)
Definition dash_or_to : regex :=
  (star space +> Alt (chr "-") (lit "to") +> star space)%re.

(** [\d{1,2}/\d{4}] *)
Definition month_slash_year : regex :=
  (times 1 2 digit +> chr "/" +> times 4 4 digit)%re.

Definition date_patterns : list pattern :=
  [ Pattern "(?:jan|feb|mar|apr|may|jun|jul|aug|sep|oct|nov|dec)[a-z]*\s+\d{4}\s*(?:-|to)\s*(?:jan|feb|mar|apr|may|jun|jul|aug|sep|oct|nov|dec)[a-z]*\s+\d{4}"
      0 (month_year +> dash_or_to +> month_year)%re;
    Pattern "\d{1,2}/\d{4}\s*(?:-|to)\s*\d{1,2}/\d{4}"
      0 (month_slash_year +> dash_or_to +> month_slash_year)%re;
    Pattern "\d{4}\s*(?:-|to)\s*\d{4}"
      0 (times 4 4 digit +> dash_or_to +> times 4 4 digit)%re ].

Definition summary_pattern : pattern :=
  Pattern "(?:summary|objective|profile)[\s:]*(.*?)(?:\n\n|\n\w+:)" 1
    (alts (map (fun w : string => lit w) ["summary"; "objective"; "profile"])
     +> section_tail)%re.

(** Pattern 1: the experience patterns over the whole text. *)
Definition scan_text (text_lower : str) (years_found : list pyfloat)
  : list pyfloat :=
  fold_left
    (fun years_found pat =>
       fold_left
         (fun years_found m =>
            append_candidate years_found (candidate_of pat m))
         (re_findall no_flags (ngroups pat) (re pat) text_lower)
         years_found)
    EXPERIENCE_PATTERNS years_found.

(** Pattern 2: work history dates; [total_years] is an [int]. *)
Definition scan_dates (text_lower : str) (years_found : list pyfloat)
  : list pyfloat :=
  fold_left
    (fun years_found pat =>
       let matches :=
         re_findall (Flags true false) (ngroups pat) (re pat) text_lower in
       if 2 <=? length matches
       then years_found ++ [Finite (inject_Z (Z.of_nat (length matches * 2)))]
       else years_found)
    date_patterns years_found.

(** Pattern 3: the experience patterns over the summary section. *)
Definition scan_summary (text_lower : str) (years_found : list pyfloat)
  : list pyfloat :=
  match re_search section_flags (re summary_pattern) text_lower with
  | Some m =>
      let summary_text := group_or_empty m 1 in
      fold_left
        (fun years_found pat =>
           fold_left
             (fun years_found match_val =>
                append_candidate years_found
                                 (summary_candidate_of match_val))
             (re_findall no_flags (ngroups pat) (re pat) summary_text)
             years_found)
        EXPERIENCE_PATTERNS years_found
  | None => years_found
  end.

(** [max(l)] on a non-empty list: an item replaces the best so far when
    it is greater. *)
Definition py_max (first : pyfloat) (others : list pyfloat) : pyfloat :=
  fold_left (fun best x => if greater x best then x else best)
            others first.

Definition years_found (text : str) : list pyfloat :=
  let text_lower := lower text in
  scan_summary text_lower (scan_dates text_lower (scan_text text_lower [])).

Definition extract_experience (text : str) : pyfloat :=
  match years_found text with
  | [] => Finite 0
  | y :: ys => py_max y ys
  end.

Definition EDUCATION_KEYWORDS : list str :=
  map of_string
  [ "bachelor"; "bachelor's"; "b.tech"; "b.e."; "b.sc"; "b.com"; "ba";
    "b.a."; "master"; "master's"; "m.tech"; "m.sc"; "m.com"; "ma"; "m.a";
    "mba"; "phd"; "doctorate"; "ph.d"; "diploma"; "degree"; "certificate";
    "university"; "college"; "institute"; "school"; "computer science";
    "engineering"; "information technology" ].

(** [any(keyword in line.lower() for keyword in keywords)] *)
Definition any_keyword (keywords : list str) (line : str) : bool :=
  existsb (fun keyword => str_in keyword (lower line)) keywords.

(** The lines from the first one that names an education section, ten at
    most; [None] when the loop ends without [break]. *)
Fixpoint find_section (lines : list str) : option (list str) :=
  match lines with
  | [] => None
  | line :: tl =>
      if any_keyword (map of_string
                        ["education"; "academic"; "qualification"]) line
      then Some (firstn 10 lines)
      else find_section tl
  end.

Definition keep_education_lines (lines : list str) : list str :=
  flat_map
    (fun line =>
       if any_keyword EDUCATION_KEYWORDS line
          && nonempty (strip line) && (10 <? length (strip line))
       then [strip line] else [])
    lines.

(** Duplicates removed, the first occurrence kept. *)
Fixpoint unique (seen lines : list str) : list str :=
  match lines with
  | [] => []
  | line :: tl =>
      if mem line seen then unique seen tl
      else line :: unique (line :: seen) tl
  end.

Definition extract_education (text : str) : str :=
  let lines := split_on LF text in
  let education_section :=
    match find_section lines with
    | Some sec => flat_map (fun l => l ++ nl) sec
    | None => []
    end in
  let education_lines :=
    if nonempty education_section
    then keep_education_lines (split_on LF education_section)
    else keep_education_lines lines in
  join " | " (firstn 3 (unique [] education_lines)).

Definition NAME_PREFIXES : list str :=
  map of_string ["curriculum vitae"; "resume"; "cv"; "phone"; "email"].

(** The loop of [extract_name] over the first lines. *)
Fixpoint first_name_line (lines : list str) : str :=
  match lines with
  | [] => []
  | line :: tl =>
      let line := strip line in
      if nonempty line && (length line <? 50)
         && negb (match re_search no_flags digit line with
                  | Some _ => true
                  | None => false
                  end)
         && negb (isupper line)
         && negb (existsb (fun p => startswith p (lower line))
                          NAME_PREFIXES)
      then line
      else first_name_line tl
  end.

Definition extract_name (text : str) : str :=
  let lines := split_on LF (strip text) in
  first_name_line (firstn 5 lines).

(** [\b[A-Za-z0-9._%+-]+@[A-Za-z0-9.-]+\.[A-Z|a-z]{2,}\b] *)
Definition email_pattern : regex :=
  (Bnd
   +> plus (Cls (OneOf [IRange "A" "Z"; IRange "a" "z"; IRange "0" "9";
                        IChar "."; IChar "_"; IChar "%"; IChar "+";
                        IChar "-"]))
   +> chr "@"
   +> plus (Cls (OneOf [IRange "A" "Z"; IRange "a" "z"; IRange "0" "9";
                        IChar "."; IChar "-"]))
   +> chr "."
   +> at_least 2 (Cls (OneOf [IRange "A" "Z"; IChar "|";
                              IRange "a" "z"]))
   +> Bnd)%re.

Definition extract_email (text : str) : str :=
  match re_search no_flags email_pattern text with
  | Some m => group0 m
  | None => []
  end.

(** [[-.\s]?] *)
Definition separator : regex :=
  opt (Cls (OneOf [IChar "-"; IChar "."; ISpace])).

Definition phone_patterns : list regex :=
  [ (* \+\d{1,3}[-.\s]?\(?\d{1,4}\)?[-.\s]?\d{1,4}[-.\s]?\d{1,9} *)
    (chr "+" +> times 1 3 digit +> separator +> opt (chr "(")
     +> times 1 4 digit +> opt (chr ")") +> separator +> times 1 4 digit
     +> separator +> times 1 9 digit)%re;
    (* \(?\d{3}\)?[-.\s]?\d{3}[-.\s]?\d{4} *)
    (opt (chr "(") +> times 3 3 digit +> opt (chr ")") +> separator
     +> times 3 3 digit +> separator +> times 4 4 digit)%re;
    (* \d{10} *)
    times 10 10 digit ].

Fixpoint first_phone (patterns : list regex) (text : str) : str :=
  match patterns with
  | [] => []
  | pat :: tl =>
      match re_search no_flags pat text with
      | Some m => group0 m
      | None => first_phone tl text
      end
  end.

Definition extract_phone (text : str) : str :=
  first_phone phone_patterns text.

Record rule : Type := Rule {
  name : str;
  condition : list str -> pyfloat -> bool
}.

Definition has (s : list str) (skill : string) : bool := mem skill s.

Definition senior_python_developer : rule :=
  Rule "Senior Python Developer"
    (fun s e => has s "python" && ge e 5
                && (has s "django" || has s "flask")).

Definition python_developer : rule :=
  Rule "Python Developer"
    (fun s e => has s "python" && (has s "django" || has s "flask")).

Definition data_scientist : rule :=
  Rule "Data Scientist"
    (fun s e => has s "ml" && (has s "python" || has s "r") && ge e 2).

Definition data_analyst : rule :=
  Rule "Data Analyst"
    (fun s e => (has s "excel" && has s "sql") || has s "data_analysis").

Definition senior_java_developer : rule :=
  Rule "Senior Java Developer" (fun s e => has s "java" && ge e 5).

Definition java_developer : rule :=
  Rule "Java Developer" (fun s e => has s "java" && ge e 1).

Definition web_developer : rule :=
  Rule "Web Developer"
    (fun s e => has s "web_development"
                || (has s "javascript" && has s "html")).

Definition full_stack_developer : rule :=
  Rule "Full Stack Developer"
    (fun s e => (has s "python" || has s "java" || has s "javascript")
                && (has s "web_development" || has s "html")
                && ge e 2).

Definition ml_engineer : rule :=
  Rule "ML Engineer" (fun s e => has s "ml" && ge e 2).

Definition cloud_engineer : rule :=
  Rule "Cloud Engineer" (fun s e => has s "cloud" && ge e 2).

Definition devops_engineer : rule :=
  Rule "DevOps Engineer" (fun s e => has s "devops" && ge e 2).

Definition category_rules : list rule :=
  [ senior_python_developer; python_developer; data_scientist;
    data_analyst; senior_java_developer; java_developer; web_developer;
    full_stack_developer; ml_engineer; cloud_engineer; devops_engineer ].

(** [for rule in category_rules: if rule['condition'](...): return
    rule['name']] *)
Fixpoint first_rule (rules : list rule) (skills : list str)
  (experience_years : pyfloat) : option str :=
  match rules with
  | [] => None
  | r :: tl =>
      if condition r skills experience_years then Some (name r)
      else first_rule tl skills experience_years
  end.

Definition default_category (experience_years : pyfloat) : str :=
  if eq_num experience_years 0 then "Fresher"
  else if lt experience_years 2 then "Junior Developer"
  else if lt experience_years 5 then "Mid-Level Developer"
  else "Senior Professional".

Definition categorize_candidate (skills : list str)
  (experience_years : pyfloat) : str :=
  match first_rule category_rules skills experience_years with
  | Some category => category
  | None => default_category experience_years
  end.

End CVAnalyzer.

(** ** [models.py]: the candidate *)

Record Candidate : Type := {
  name : str;
  email : str;
  phone : str;
  raw_text : str;
  skills : str;
  experience_years : CVAnalyzer.pyfloat;
  education : str;
  category : option str;
  is_processed : bool
}.

Module Models.

(** [get_skills_list]: the stored skills split at the commas, each piece
    stripped; no skills stored gives the empty list. *)
Definition get_skills_list (self : Candidate) : list str :=
  if nonempty (skills self)
  then map strip (split_on "," (skills self))
  else [].

Definition get_experience_level (self : Candidate) : str :=
  if CVAnalyzer.eq_num (experience_years self) 0 then "Fresher"
  else if CVAnalyzer.lt (experience_years self) 3 then "Junior"
  else if CVAnalyzer.lt (experience_years self) 7 then "Mid-Level"
  else "Senior".

End Models.

(** ** [os.path.splitext], as the views use it on file names *)

(** [s.rfind(c)], [None] for -1. *)
Fixpoint rfind_go (c : ascii) (s : str) (i : nat) (last : option nat)
  : option nat :=
  match s with
  | [] => last
  | x :: tl => rfind_go c tl (S i) (if Ascii.eqb x c then Some i else last)
  end.

Definition rfind (c : ascii) (s : str) : option nat := rfind_go c s 0 None.

(** The extension starts at the last dot, when that dot comes after the
    last slash and after a character of the file name that is not a
    dot. *)
Definition splitext (p : str) : str * str :=
  match rfind "." p with
  | None => (p, [])
  | Some dotIndex =>
      let after_sep :=
        match rfind "/" p with
        | None => 0
        | Some sepIndex => S sepIndex
        end in
      if (after_sep <=? dotIndex)
         && existsb (fun c => negb (Ascii.eqb c "."))
                    (firstn (dotIndex - after_sep) (skipn after_sep p))
      then (firstn dotIndex p, skipn dotIndex p)
      else (p, [])
  end.

(** ** The view [upload_cv], POST branch *)

(** An uploaded file: its name and its size in bytes. *)
Record uploaded_file : Type := UploadedFile {
  file_name : str;
  file_size : N
}.

Inductive upload_result : Type :=
| Rejected (message : str)
| Saved (candidate : Candidate).

(** A file object is false when it has no name. *)
Definition no_file (cv_file : option uploaded_file) : bool :=
  match cv_file with
  | None => true
  | Some f => negb (nonempty (file_name f))
  end.

Definition allowed_extensions : list str := map of_string [".pdf"; ".docx"].

(** A fresh upload: only the name is set. *)
Definition uploaded (name : str) : Candidate :=
  {| name := name; email := []; phone := []; raw_text := [];
     skills := []; experience_years := CVAnalyzer.Finite 0; education := [];
     category := None; is_processed := false |}.

Definition upload_cv (name_field : str) (cv_file : option uploaded_file)
  : upload_result :=
  let name := strip name_field in
  match cv_file with
  | None => Rejected "Please select a CV file"
  | Some f =>
      if no_file cv_file then Rejected "Please select a CV file"
      else
        let file_extension := lower (snd (splitext (file_name f))) in
        if negb (CVAnalyzer.mem file_extension allowed_extensions)
        then Rejected "Only PDF and DOCX files are allowed"
        else if (10 * 1024 * 1024 <? file_size f)%N
        then Rejected "File size must be less than 10MB"
        else Saved (uploaded (if nonempty name then name
                              else fst (splitext (file_name f))))
  end.

(** ** The view [process_cv], POST branch

    The candidate comes with what the storage holds for it: the path and
    the name of its file ([candidate.cv_file.path] and
    [candidate.cv_file.name], the name as the storage made it under
    [upload_to='cvs/']) when the file is there, nothing when the field is
    empty or the file is gone. *)

(** Where the view sends the browser: back to the upload when there is
    no file; to the candidate, saved as given; or, from the handler,
    back to the processing page, with nothing saved. *)
Inductive response : Type :=
| To_upload_cv
| To_candidate_detail (saved : Candidate)
| To_process_cv (e : exn).

Definition process_cv (L : Libs) (candidate_id : N) (candidate : Candidate)
  (cv_file : option (str * str)) : pyresult response :=
  match cv_file with
  | None => Return To_upload_cv
  | Some (file_path, cv_file_name) =>
  let file_extension := lower (snd (splitext cv_file_name)) in
  match CVParser.extract_text L file_path file_extension with
  | Raise e =>
      match stdout L (codes ("Error processing CV " +++ decimal candidate_id
                             +++ ": " +++ str_of_exn e)) with
      | Return _ => Return (To_process_cv e)
      | Raise e' => Raise e'
      end
  | Return cv_text =>
      let cv_text := CVParser.clean_extracted_text cv_text in
      let has_text := nonempty (strip cv_text) in
      let raw_text' :=
        if has_text then cv_text
        else of_string "No text could be extracted. Possibly a scanned PDF." in
      let name' :=
        if negb (nonempty (name candidate))
           || str_eqb (name candidate) (fst (splitext cv_file_name))
        then (let extracted_name := CVAnalyzer.extract_name cv_text in
              if nonempty extracted_name then extracted_name
              else name candidate)
        else name candidate in
      let email' :=
        if negb (nonempty (email candidate))
        then (let extracted_email := CVAnalyzer.extract_email cv_text in
              if nonempty extracted_email then extracted_email
              else email candidate)
        else email candidate in
      let phone' :=
        if negb (nonempty (phone candidate))
        then (let extracted_phone := CVAnalyzer.extract_phone cv_text in
              if nonempty extracted_phone then extracted_phone
              else phone candidate)
        else phone candidate in
      if has_text
      then
        let skills := CVAnalyzer.extract_skills cv_text in
        let experience_years := CVAnalyzer.extract_experience cv_text in
        let education := CVAnalyzer.extract_education cv_text in
        let category_name :=
          CVAnalyzer.categorize_candidate skills experience_years in
        Return (To_candidate_detail
                  {| name := name'; email := email'; phone := phone';
                     raw_text := raw_text';
                     skills := join "," skills;
                     experience_years := experience_years;
                     education := education;
                     category := Some category_name;
                     is_processed := true |})
      else
        Return (To_candidate_detail
                  {| name := name'; email := email'; phone := phone';
                     raw_text := raw_text';
                     skills := [];
                     experience_years := CVAnalyzer.Finite 0;
                     education := of_string "Could not extract education";
                     category := Some (of_string "Unknown");
                     is_processed := true |})
  end
  end.

(** A standard output that takes every line. *)
Definition any_line (l : utext) : pyresult unit := Return tt.

(** The libraries on a machine where python-docx opens every file as one
    given document. *)
Definition docx_only (doc : docx_document) : Libs :=
  {| PDFPLUMBER_AVAILABLE := false; PYPDF2_AVAILABLE := false;
     PDFMINER_AVAILABLE := false; DOCX_AVAILABLE := true;
     pdfplumber_open := fun _ => Raise (LibraryError []);
     PyPDF2_PdfReader := fun _ => Raise (LibraryError []);
     pdfminer_extract := fun _ => Raise (LibraryError []);
     docx_Document := fun _ => Return doc;
     stdout := any_line |}.

Definition john_smith_docx : docx_document :=
  Document (map of_string ["John Smith"; "john@x.com";
                           "5 years experience with Python and Django"])
           [].

(** ** The view [dashboard]: the experience filter *)

(** Whether a candidate stays in the list under the [experience]
    parameter of the request; [None] is a missing parameter. *)
Definition experience_filter (param : option str) (c : Candidate) : bool :=
  match param with
  | None => true
  | Some f =>
      if negb (nonempty f) then true
      else if str_eqb f "fresher"
      then CVAnalyzer.eq_num (experience_years c) 0
      else if str_eqb f "junior"
      then CVAnalyzer.greater (experience_years c) (CVAnalyzer.Finite 0)
           && CVAnalyzer.lt (experience_years c) 3
      else if str_eqb f "mid"
      then CVAnalyzer.ge (experience_years c) 3
           && CVAnalyzer.lt (experience_years c) 7
      else if str_eqb f "senior" then CVAnalyzer.ge (experience_years c) 7
      else true
  end.

(** ** The view [categorize_candidates], POST branch *)

(** A row of the candidate table with what the storage holds for it: the
    path and the name of the CV file, when the file is there. *)
Record stored : Type := Stored {
  candidate_id : N;
  row : Candidate;
  cv_file : option (str * str)
}.

Definition mark_processed (c : Candidate) : Candidate :=
  {| name := name c; email := email c; phone := phone c;
     raw_text := raw_text c; skills := skills c;
     experience_years := experience_years c; education := education c;
     category := category c; is_processed := true |}.

(** One round of the loop: the candidate as saved, and whether the round
    went through the handler; [Raise] when the handler's [print]
    raises, before anything is saved. *)
Definition categorize_one (L : Libs) (s : stored)
  : pyresult (Candidate * bool) :=
  let candidate := row s in
  match cv_file s with
  | Some (path, fname) =>
      let file_extension := lower (snd (splitext fname)) in
      match CVParser.extract_text L path file_extension with
      | Raise e =>
          match stdout L (codes ("Error categorizing candidate "
                                 +++ decimal (candidate_id s) +++ ": "
                                 +++ str_of_exn e)) with
          | Return _ => Return (mark_processed candidate, true)
          | Raise e' => Raise e'
          end
      | Return cv_text =>
          if nonempty (strip cv_text)
          then
            let skills := CVAnalyzer.extract_skills cv_text in
            let experience_years := CVAnalyzer.extract_experience cv_text in
            let education := CVAnalyzer.extract_education cv_text in
            let category_name :=
              CVAnalyzer.categorize_candidate skills experience_years in
            Return
              ({| name := name candidate; email := email candidate;
                  phone := phone candidate;
                  raw_text := cv_text;
                  skills := join "," skills;
                  experience_years := experience_years;
                  education := education;
                  category := Some category_name;
                  is_processed := true |}, false)
          else
            Return
              ({| name := name candidate; email := email candidate;
                  phone := phone candidate;
                  raw_text := of_string "No text could be extracted";
                  skills := skills candidate;
                  experience_years := experience_years candidate;
                  education := education candidate;
                  category := Some (of_string "Unknown");
                  is_processed := true |}, false)
      end
  | None => Return (mark_processed candidate, false)
  end.

(** The table after the loop, [categorized_count] and [error_count], and
    the exception that ended the loop, when the handler's [print]
    raised: the rows from that one on are as they were. *)
Record bulk_result : Type := BulkResult {
  table : list stored;
  categorized_count : nat;
  error_count : nat;
  raised : option exn
}.

Fixpoint categorize_loop (L : Libs) (rows : list stored)
  (categorized errors : nat) : bulk_result :=
  match rows with
  | [] => BulkResult [] categorized errors None
  | s :: tl =>
      if is_processed (row s)
      then
        let r := categorize_loop L tl categorized errors in
        BulkResult (s :: table r) (categorized_count r) (error_count r)
                   (raised r)
      else
        match categorize_one L s with
        | Raise e => BulkResult (s :: tl) categorized (S errors) (Some e)
        | Return (candidate, failed) =>
            let r :=
              if failed then categorize_loop L tl categorized (S errors)
              else categorize_loop L tl (S categorized) errors in
            BulkResult (Stored (candidate_id s) candidate (cv_file s)
                        :: table r)
                       (categorized_count r) (error_count r) (raised r)
        end
  end.

Definition categorize_candidates (L : Libs) (rows : list stored)
  : bulk_result :=
  categorize_loop L rows 0 0.

(** * The vocabulary of the properties *)

(** ** What a match is

    The matcher searches; [Matches] says what it may find: the states
    before and after a piece of text that the expression describes. *)

Fixpoint iter (R : mstate -> mstate -> Prop) (n : nat) (a b : mstate)
  : Prop :=
  match n with
  | O => a = b
  | S n' => exists m, R a m /\ iter R n' m b
  end.

Fixpoint Matches (fl : flags) (r : regex) (a b : mstate) : Prop :=
  match r with
  | Eps => a = b
  | Cls cs =>
      exists c tl, rest a = c :: tl /\ cset_match fl cs c = true
                   /\ b = MState (Some c) tl (caps a)
  | Cat r1 r2 => exists m, Matches fl r1 a m /\ Matches fl r2 m b
  | Alt r1 r2 => Matches fl r1 a b \/ Matches fl r2 a b
  | Rep _ lo _ r1 => exists n, lo <= n /\ iter (Matches fl r1) n a b
  | Grp i r1 =>
      exists m, Matches fl r1 a m
                /\ b = MState (prev m) (rest m)
                         ((i, firstn (consumed a m) (rest a)) :: caps m)
  | Bnd => at_boundary a = true /\ a = b
  end.






(** A matcher that does not tell apart continuations that agree on every
    state. *)
Definition respects_ext (body : cont -> mstate -> option mstate) : Prop :=
  forall k1 k2, (forall st, k1 st = k2 st) ->
                forall st, body k1 st = body k2 st.

(** ** Substitution and the cleaned text *)

Definition sub_piece (repl : str) (p : piece) : str :=
  match p with
  | Keep c => [c]
  | Hit _ => repl
  end.

(** Runs of whitespace squeezed to one space each; [in_run] tells that
    the character before was whitespace. *)
Fixpoint squeeze (in_run : bool) (s : str) : str :=
  match s with
  | [] => []
  | c :: tl =>
      if is_space c
      then (if in_run then squeeze true tl else SP :: squeeze true tl)
      else c :: squeeze false tl
  end.

Definition prev_after (p : option ascii) (run : str) : option ascii :=
  fold_left (fun _ c => Some c) run p.

Definition head_fails (f : ascii -> bool) (s : str) : Prop :=
  match s with
  | c :: _ => f c = false
  | [] => True
  end.

(** The characters that [clean_extracted_text] keeps: word characters,
    whitespace, and [. , : ; ! ? @ ( ) - /]. *)
Definition whitelisted (c : ascii) : bool :=
  is_word c || (is_space c || existsb (Ascii.eqb c) (of_string ".,:;!?@()-/")).

Definition sanitize (c : ascii) : ascii :=
  if whitelisted c then c else SP.

(** The text before the final [strip]. *)
Definition core (x : str) : str := map sanitize (squeeze false x).

Definition no_space_head (s : str) : Prop := head_fails is_space s.

(** Whitespace is single spaces only. *)
Fixpoint tidy (s : str) : Prop :=
  match s with
  | [] => True
  | c :: tl =>
      (is_space c = true -> c = SP /\ no_space_head tl) /\ tidy tl
  end.

Definition two_lines_far_apart : str := "a" +++ [LF; LF; LF] +++ "b".

Definition spaced_out : str :=
  "  Jane  Doe" +++ [LF; LF; LF] +++ "jane@x.org ".

(** ** The standard output *)

(** A standard output that takes every line: [print] never raises. *)
Definition accepts_all (L : Libs) : Prop :=
  forall l, stdout L l = Return tt.

(** A standard output in ASCII, as under [PYTHONIOENCODING=ascii]: a
    line with a character from U+0080 on raises. *)
Definition ascii_only (l : utext) : pyresult unit :=
  if forallb (fun c => (c <? 128)%N) l then Return tt
  else Raise (UnicodeEncodeError
                "'ascii' codec can't encode character: ordinal not in range(128)").

(** ** The strategies of [extract_text_from_pdf], one after the other

    What the claim says of them, written out: a strategy gives the text,
    or it fails and leaves the text gathered so far to the next one. *)

Inductive attempt : Type :=
| Gave (text : str)
| Failed (text : str).

(** The pages before the first one that raises, and whether one does. *)
Fixpoint readable (pages : list page) : list page :=
  match pages with
  | Return o :: tl => Return o :: readable tl
  | _ => []
  end.

Fixpoint first_raise (pages : list page) : option exn :=
  match pages with
  | [] => None
  | Return _ :: tl => first_raise tl
  | Raise e :: _ => Some e
  end.

Definition breaks (pages : list page) : bool :=
  match first_raise pages with
  | Some _ => true
  | None => false
  end.

(** The text that the page loop adds for a list of pages that all
    return. *)
Definition pages_text (pages : list page) : str :=
  flat_map (fun pg =>
              match pg with
              | Return (Some t) => if nonempty t then t ++ nl else []
              | _ => []
              end)
           pages.

(** A strategy that reads page by page fails when its library is
    missing, when the file does not open, when a page raises, and when
    the text is blank after the last page. *)
Definition by_pages (available : bool) (opened : pyresult (list page))
  (text : str) : attempt :=
  if available then
    match opened with
    | Raise _ => Failed text
    | Return pages =>
        let text' := text ++ pages_text (readable pages) in
        if negb (breaks pages) && nonempty (strip text')
        then Gave text' else Failed text'
    end
  else Failed text.

(** pdfminer reads the file in one go; its text replaces what was
    gathered. *)
Definition in_one_go (available : bool) (extracted : pyresult str)
  (text : str) : attempt :=
  if available then
    match extracted with
    | Raise _ => Failed text
    | Return t => if nonempty (strip t) then Gave t else Failed t
    end
  else Failed text.

(** The first strategy that gives a text decides; when all fail the text
    that the last one left is the result. *)
Fixpoint first_to_give (strategies : list (str -> attempt)) (text : str)
  : str :=
  match strategies with
  | [] => text
  | strategy :: tl =>
      match strategy text with
      | Gave t => t
      | Failed t => first_to_give tl t
      end
  end.

Definition pdfplumber_strategy (L : Libs) (p : str) : str -> attempt :=
  by_pages (PDFPLUMBER_AVAILABLE L) (pdfplumber_open L p).

Definition pypdf2_strategy (L : Libs) (p : str) : str -> attempt :=
  by_pages (PYPDF2_AVAILABLE L) (PyPDF2_PdfReader L p).

Definition pdfminer_strategy (L : Libs) (p : str) : str -> attempt :=
  in_one_go (PDFMINER_AVAILABLE L) (pdfminer_extract L p).

(** The text of a document: the paragraphs, then the cells of the tables
    row by row, a newline after each. *)
Definition document_text (doc : docx_document) : str :=
  flat_map (fun paragraph => paragraph ++ nl) (paragraphs doc)
  ++ flat_map (fun table =>
                 flat_map (fun row => flat_map (fun cell => cell ++ nl) row)
                          table)
              (tables doc).

Definition docx_text (L : Libs) (p : str) : str :=
  if DOCX_AVAILABLE L then
    match docx_Document L p with
    | Return doc => document_text doc
    | Raise _ => []
    end
  else [].

(** A strategy whose library is missing, or raises when it opens the
    file. *)
Definition fails_at_once {A} (available : bool) (r : pyresult A) : Prop :=
  available = false \/ exists e, r = Raise e.

(** A machine on which every library is installed and every one of them
    raises on every file. *)
Definition all_raise : Libs :=
  {| PDFPLUMBER_AVAILABLE := true; PYPDF2_AVAILABLE := true;
     PDFMINER_AVAILABLE := true; DOCX_AVAILABLE := true;
     pdfplumber_open := fun _ => Raise (LibraryError "pdfplumber");
     PyPDF2_PdfReader := fun _ => Raise (LibraryError "PyPDF2");
     pdfminer_extract := fun _ => Raise (LibraryError "pdfminer");
     docx_Document := fun _ => Raise (LibraryError "docx");
     stdout := any_line |}.

(** A machine with pdfplumber and PyPDF2, each reading every file as a
    given list of pages; pdfminer and python-docx raise. *)
Definition two_readers (pages1 pages2 : list page) : Libs :=
  {| PDFPLUMBER_AVAILABLE := true; PYPDF2_AVAILABLE := true;
     PDFMINER_AVAILABLE := true; DOCX_AVAILABLE := true;
     pdfplumber_open := fun _ => Return pages1;
     PyPDF2_PdfReader := fun _ => Return pages2;
     pdfminer_extract := fun _ => Raise (LibraryError "pdfminer");
     docx_Document := fun _ => Raise (LibraryError "docx");
     stdout := any_line |}.

(** pdfplumber and PyPDF2 as in [two_readers], no pdfminer, and a
    standard output in ASCII. *)
Definition readers_on_ascii (pages1 pages2 : list page) : Libs :=
  {| PDFPLUMBER_AVAILABLE := true; PYPDF2_AVAILABLE := true;
     PDFMINER_AVAILABLE := false; DOCX_AVAILABLE := true;
     pdfplumber_open := fun _ => Return pages1;
     PyPDF2_PdfReader := fun _ => Return pages2;
     pdfminer_extract := fun _ => Raise (LibraryError "pdfminer");
     docx_Document := fun _ => Raise (LibraryError "docx");
     stdout := ascii_only |}.

(** A scanned PDF on a machine whose standard output is ASCII: the three
    libraries open the file and find no text in it. *)
Definition scanned_on_ascii : Libs :=
  {| PDFPLUMBER_AVAILABLE := true; PYPDF2_AVAILABLE := true;
     PDFMINER_AVAILABLE := true; DOCX_AVAILABLE := true;
     pdfplumber_open := fun _ => Return [Return None];
     PyPDF2_PdfReader := fun _ => Return [Return (Some [])];
     pdfminer_extract := fun _ => Return [];
     docx_Document := fun _ => Raise (LibraryError "docx");
     stdout := ascii_only |}.

(** A DOCX that python-docx cannot find, its name with a letter beyond
    ASCII, on the same standard output. *)
Definition missing_on_ascii : Libs :=
  {| PDFPLUMBER_AVAILABLE := true; PYPDF2_AVAILABLE := true;
     PDFMINER_AVAILABLE := true; DOCX_AVAILABLE := true;
     pdfplumber_open := fun _ => Raise (LibraryError "pdfplumber");
     PyPDF2_PdfReader := fun _ => Raise (LibraryError "PyPDF2");
     pdfminer_extract := fun _ => Raise (LibraryError "pdfminer");
     docx_Document :=
       fun p => Raise (LibraryError ("Package not found at '" +++ p +++ "'"));
     stdout := ascii_only |}.

Definition resume_docx : str :=
  "r" +++ [ascii_of_nat 233] +++ "sum" +++ [ascii_of_nat 233] +++ ".docx".

(** ** Skills, categories and candidates of experience *)

Definition keys : list str := map fst CVAnalyzer.SKILL_KEYWORDS.

(** The categories within reach of a list of keys: rules 1, 2 and 8 are
    missing. *)
Definition reachable_names : list str :=
  map of_string
    [ "Data Scientist"; "Data Analyst"; "Senior Java Developer";
      "Java Developer"; "Web Developer"; "ML Engineer"; "Cloud Engineer";
      "DevOps Engineer"; "Fresher"; "Junior Developer";
      "Mid-Level Developer"; "Senior Professional" ].

Definition skills_section_javascripting : str :=
  "skills: javascripting" +++ [LF; LF].

Definition found_as_word (variation text : str) : bool :=
  match re_search (Flags true false) (CVAnalyzer.word_pattern variation)
                  (lower text) with
  | Some _ => true
  | None => false
  end.

Definition summary_24_months : str := "summary: 24 months" +++ [LF; LF].


Definition opt_list (o : option CVAnalyzer.pyfloat)
  : list CVAnalyzer.pyfloat :=
  match o with
  | Some q => [q]
  | None => []
  end.


(** Case split on the variable that decides a condition built from [&&]
    and [||]. *)
Ltac split_head c :=
  lazymatch c with
  | andb ?a _ => split_head a
  | orb ?a _ => split_head a
  | _ => is_var c; destruct c
  end.

(** ** What a pattern cannot do without *)

Definition all_chars : list ascii := map ascii_of_nat (seq 0 256).

(** Every match of the expression takes in a character with [P]: a
    check on the syntax, with the classes compared on all characters. *)
Fixpoint must_have (fl : flags) (P : ascii -> bool) (r : regex) : bool :=
  match r with
  | Eps | Bnd => false
  | Cls cs => forallb (fun c => implb (cset_match fl cs c) (P c)) all_chars
  | Cat r1 r2 => must_have fl P r1 || must_have fl P r2
  | Alt r1 r2 => must_have fl P r1 && must_have fl P r2
  | Rep _ lo _ r1 => (1 <=? lo) && must_have fl P r1
  | Grp _ r1 => must_have fl P r1
  end.

(** From [a] to [b] a piece of the text is taken, and in it a character
    with [P] when the expression cannot do without. *)
Definition takes (fl : flags) (P : ascii -> bool) (r : regex)
  (a b : mstate) : Prop :=
  exists w, rest a = w ++ rest b
            /\ (must_have fl P r = true -> exists c, In c w /\ P c = true).

Definition is_LF (c : ascii) : bool := Ascii.eqb c LF.
Definition is_at (c : ascii) : bool := Ascii.eqb c "@".

(** The three classes of [email_pattern]. *)
Definition local_char (c : ascii) : bool :=
  in_range "A" "Z" c || (in_range "a" "z" c || (in_range "0" "9" c
  || existsb (Ascii.eqb c) (of_string "._%+-"))).

Definition domain_char (c : ascii) : bool :=
  in_range "A" "Z" c || (in_range "a" "z" c || (in_range "0" "9" c
  || existsb (Ascii.eqb c) (of_string ".-"))).

Definition tld_char (c : ascii) : bool :=
  in_range "A" "Z" c || (Ascii.eqb c "|" || in_range "a" "z" c).

(** What [extract_name] asks of a stripped line. *)
Definition name_like (line : str) : Prop :=
  line <> [] /\ length line < 50
  /\ (forall c, In c line -> is_digit c = false)
  /\ isupper line = false
  /\ forall p, In p CVAnalyzer.NAME_PREFIXES -> startswith p (lower line) = false.

Definition returns_all (pages : list page) : Prop :=
  forall pg, In pg pages -> exists o, pg = Return o.

(** An extension that [extract_text] reads, in any case. *)
Definition supported (file_extension : str) : Prop :=
  lower file_extension = ".pdf" \/ lower file_extension = ".docx".

Definition supportedb (file_extension : str) : bool :=
  str_eqb (lower file_extension) ".pdf"
  || str_eqb (lower file_extension) ".docx".

(** A row that the bulk run has to work on, and one whose file is there
    but has an extension that [extract_text] refuses. *)
Definition pending (s : stored) : bool := negb (is_processed (row s)).

Definition unreadable (s : stored) : bool :=
  match cv_file s with
  | Some (_, fname) => negb (supportedb (snd (splitext fname)))
  | None => false
  end.

Definition count {A} (f : A -> bool) (l : list A) : nat :=
  length (filter f l).

(** The least number of characters with [P] in a match of the
    expression, and whether every class of the expression lies within
    [P]: checks on the syntax, the classes compared on all characters. *)
Definition class_within (fl : flags) (P : ascii -> bool) (cs : cset) : bool :=
  forallb (fun c => implb (cset_match fl cs c) (P c)) all_chars.

Fixpoint fewest (fl : flags) (P : ascii -> bool) (r : regex) : nat :=
  match r with
  | Eps | Bnd => 0
  | Cls cs => if class_within fl P cs then 1 else 0
  | Cat r1 r2 => fewest fl P r1 + fewest fl P r2
  | Alt r1 r2 => Nat.min (fewest fl P r1) (fewest fl P r2)
  | Rep _ lo _ r1 => lo * fewest fl P r1
  | Grp _ r1 => fewest fl P r1
  end.

Fixpoint only (fl : flags) (P : ascii -> bool) (r : regex) : bool :=
  match r with
  | Eps | Bnd => true
  | Cls cs => class_within fl P cs
  | Cat r1 r2 | Alt r1 r2 => only fl P r1 && only fl P r2
  | Rep _ _ _ r1 | Grp _ r1 => only fl P r1
  end.

(** The characters of the three [phone_patterns]. *)
Definition phone_char (c : ascii) : bool :=
  is_digit c || is_space c
  || existsb (Ascii.eqb c) (list_ascii_of_string "+-.()").

Definition any_char (c : ascii) : bool := true.

(** What the bulk run leaves alone in a row. *)
Definition identity (s : stored) : str * str * str * option (str * str) :=
  (name (row s), email (row s), phone (row s), cv_file s).

Definition ten_megabytes : N := 10 * 1024 * 1024.

(** A stored skill: not empty, no comma in it, no whitespace around
    it. *)
Definition plain_skill (x : str) : Prop :=
  x <> [] /\ ~ In ","%char x /\ strip x = x.

Definition with_skills (l : list str) : Candidate :=
  {| name := of_string "Jane Doe"; email := []; phone := []; raw_text := [];
     skills := join "," l; experience_years := CVAnalyzer.Finite 0;
     education := [];
     category := None; is_processed := true |}.

Definition with_experience (q : Q) : Candidate :=
  {| name := of_string "Jane Doe"; email := []; phone := []; raw_text := [];
     skills := []; experience_years := CVAnalyzer.Finite q; education := [];
     category := None; is_processed := true |}.

(** A character that [clean_extracted_text] keeps and [strip] does not
    remove. *)
Definition solid (c : ascii) : bool := whitelisted c && negb (is_space c).

(** A float that is zero or more, infinity included. *)
Definition nonneg_float (x : spec_float) : bool :=
  match x with
  | S754_zero _ => true
  | S754_infinity s | S754_finite s _ _ => negb s
  | S754_nan => false
  end.

(** A list of candidates without a negative one and without
    not-a-number. *)
Definition nonneg (l : list CVAnalyzer.pyfloat) : Prop :=
  Forall (fun y => CVAnalyzer.ge y 0 = true) l.

(** [x <= y] between two numbers. *)
Definition leq (x y : CVAnalyzer.pyfloat) : bool :=
  match x, y with
  | CVAnalyzer.NaN, _ | _, CVAnalyzer.NaN => false
  | CVAnalyzer.NegInf, _ => true
  | _, CVAnalyzer.PosInf => true
  | CVAnalyzer.PosInf, _ => false
  | _, CVAnalyzer.NegInf => false
  | CVAnalyzer.Finite a, CVAnalyzer.Finite b => Qle_bool a b
  end.

(** [x] shifted left by [n] bits; the zeros that pad a number to the 53
    bits of a mantissa, and the padded number. *)
Definition shl (x : positive) (n : nat) : positive := Nat.iter n xO x.

Definition pad (k : positive) : nat :=
  Z.to_nat (53 - Zpos (digits2_pos k)).

Definition mantissa (k : positive) : positive := shl k (pad k).


(** The tags of the first pass of [extract_skills] alone. *)
Definition whole_word_tags (text : str) : list str :=
  CVAnalyzer.check_skills (fun variation => found_as_word variation text) [].

(** * Properties *)

(** ** Strings *)

Lemma str_eqb_eq (a b : str) : str_eqb a b = true <-> a = b.
Proof.
  revert b. induction a as [|x a IH]; intros [|y b]; simpl;
    try (split; [discriminate|discriminate]); [tauto|].
  rewrite andb_true_iff, Ascii.eqb_eq, IH.
  split; [intros [-> ->]; reflexivity|intros [= -> ->]; auto].
Qed.

Lemma mem_In (x : str) (l : list str) :
  CVAnalyzer.mem x l = true <-> In x l.
Proof.
  unfold CVAnalyzer.mem. rewrite existsb_exists. split.
  - intros (y & Hin & Heq). apply str_eqb_eq in Heq. subst. exact Hin.
  - intros Hin. exists x. split; [exact Hin|]. apply str_eqb_eq. reflexivity.
Qed.

(** ** The fuel of the matcher never runs out

    A repetition and a scan start with more fuel than there are
    characters left, and each round uses up a character: any larger
    amount of fuel gives the same result. *)

Section Fuel.
Variable fl : flags.

Lemma rep_loop_ext (body : cont -> mstate -> option mstate)
  (Hbody : respects_ext body) (greedy : bool) (lo : nat) (hi : option nat)
  (k1 k2 : cont) (Hk : forall st, k1 st = k2 st) :
  forall fuel cnt st,
    rep_loop body greedy lo hi k1 fuel cnt st
    = rep_loop body greedy lo hi k2 fuel cnt st.
Proof.
induction fuel as [|fuel IH]; intros cnt st; cbn [rep_loop];
  rewrite (Hk st); [reflexivity|].
destruct (under cnt hi); [|reflexivity].
rewrite (Hbody _ (fun st' =>
                    if length (rest st') <? length (rest st)
                    then rep_loop body greedy lo hi k2 fuel (S cnt) st'
                    else None)); [reflexivity|].
intros st'. destruct (length (rest st') <? length (rest st)); auto.
Qed.

Lemma rmatch_ext (r : regex) : respects_ext (rmatch fl r).
Proof.
unfold respects_ext.
induction r as [|cs|r1 IH1 r2 IH2|r1 IH1 r2 IH2|g lo hi r1 IH1|i r1 IH1|];
  intros k1 k2 Hk st; cbn [rmatch].
- apply Hk.
- destruct (rest st) as [|c tl]; [reflexivity|].
  destruct (cset_match fl cs c); [apply Hk|reflexivity].
- apply IH1. intros st'. apply IH2. exact Hk.
- rewrite (IH1 k1 k2 Hk), (IH2 k1 k2 Hk). reflexivity.
- apply rep_loop_ext; [exact IH1|exact Hk].
- apply IH1. intros st'. apply Hk.
- destruct (at_boundary st); [apply Hk|reflexivity].
Qed.

Lemma rep_loop_fuel (body : cont -> mstate -> option mstate)
  (Hbody : respects_ext body) (greedy : bool) (lo : nat) (hi : option nat)
  (k : cont) :
  forall f1 f2 cnt st,
    length (rest st) < f1 -> length (rest st) < f2 ->
    rep_loop body greedy lo hi k f1 cnt st
    = rep_loop body greedy lo hi k f2 cnt st.
Proof.
induction f1 as [|f1 IH]; intros f2 cnt st H1 H2; [inversion H1|].
destruct f2 as [|f2]; [inversion H2|]. cbn [rep_loop].
destruct (under cnt hi); [|reflexivity].
rewrite (Hbody _ (fun st' =>
                    if length (rest st') <? length (rest st)
                    then rep_loop body greedy lo hi k f2 (S cnt) st'
                    else None)); [reflexivity|].
intros st'. destruct (length (rest st') <? length (rest st)) eqn:E;
  [|reflexivity].
apply Nat.ltb_lt in E. apply IH; lia.
Qed.

(** The repetition case of [rmatch], with any fuel above the number of
    characters left. *)
Lemma rmatch_rep_fuel (greedy : bool) (lo : nat) (hi : option nat)
  (r : regex) (k : cont) (st : mstate) (fuel : nat) :
  length (rest st) < fuel ->
  rmatch fl (Rep greedy lo hi r) k st
  = rep_loop (rmatch fl r) greedy lo hi k fuel 0 st.
Proof.
intros H. cbn [rmatch]. apply rep_loop_fuel; [apply rmatch_ext|lia|exact H].
Qed.

Lemma scan_fuel (r : regex) :
  forall f1 f2 p s,
    length s < f1 -> length s < f2 ->
    scan fl r f1 p s = scan fl r f2 p s.
Proof.
induction f1 as [|f1 IH]; intros f2 p s H1 H2; [inversion H1|].
destruct f2 as [|f2]; [inversion H2|]. cbn [scan].
assert (Hstep : match s with
                | [] => []
                | c :: tl => Keep c :: scan fl r f1 (Some c) tl
                end
                = match s with
                  | [] => []
                  | c :: tl => Keep c :: scan fl r f2 (Some c) tl
                  end).
{ destruct s as [|c tl]; [reflexivity|]. f_equal.
  simpl in H1, H2. apply IH; lia. }
destruct (match_at fl r p s) as [m|]; [|exact Hstep].
destruct (length (rest (after m)) <? length s) eqn:E.
- apply Nat.ltb_lt in E. f_equal. apply IH; lia.
- f_equal. exact Hstep.
Qed.

(** The scan of a text is the scan with any fuel above its length. *)
Lemma pieces_fuel (r : regex) (s : str) (fuel : nat) :
  length s < fuel -> pieces fl r s = scan fl r fuel None s.
Proof.
intros H. unfold pieces. apply scan_fuel; [lia|exact H].
Qed.
End Fuel.

(** ** Soundness of the matcher *)

Lemma firstn_run (run tl : str) :
  firstn (length (run ++ tl) - length tl) (run ++ tl) = run.
Proof.
  rewrite length_app, Nat.add_sub.
  rewrite firstn_app, Nat.sub_diag, firstn_all. cbn [firstn].
  apply app_nil_r.
Qed.

Section Soundness.
Variable fl : flags.

Lemma rep_loop_sound (body : cont -> mstate -> option mstate)
  (R : mstate -> mstate -> Prop)
  (Hbody : forall k st res, body k st = Some res ->
                            exists mid, R st mid /\ k mid = Some res)
  (greedy : bool) (lo : nat) (hi : option nat) (k : cont) :
  forall fuel cnt st res,
    rep_loop body greedy lo hi k fuel cnt st = Some res ->
    exists n mid, iter R n st mid /\ lo <= cnt + n /\ k mid = Some res.
Proof.
induction fuel as [|fuel IH]; intros cnt st res; cbn [rep_loop].
- assert (Hstop : (if lo <=? cnt then k st else None) = Some res ->
                  exists n mid, iter R n st mid /\ lo <= cnt + n
                                /\ k mid = Some res).
  { destruct (lo <=? cnt) eqn:E; [|discriminate]. intros Hk.
    exists 0, st. apply Nat.leb_le in E. repeat split; auto. lia. }
  destruct greedy; cbn [orelse]; [exact Hstop|].
  destruct (if lo <=? cnt then k st else None); [exact Hstop|discriminate].
- set (more := if under cnt hi then _ else None).
  assert (Hmore : more = Some res ->
                  exists n mid, iter R n st mid /\ lo <= cnt + n
                                /\ k mid = Some res).
  { unfold more. destruct (under cnt hi); [|discriminate]. intros Hb.
    apply Hbody in Hb as (mid1 & HR & Hk).
    destruct (length (rest mid1) <? length (rest st)); [|discriminate].
    apply IH in Hk as (n & mid & Hit & Hlo & Hk).
    exists (S n), mid. repeat split; [exists mid1; auto|lia|exact Hk]. }
  assert (Hstop : (if lo <=? cnt then k st else None) = Some res ->
                  exists n mid, iter R n st mid /\ lo <= cnt + n
                                /\ k mid = Some res).
  { destruct (lo <=? cnt) eqn:E; [|discriminate]. intros Hk.
    exists 0, st. apply Nat.leb_le in E. repeat split; auto. lia. }
  clearbody more.
  destruct greedy; unfold orelse.
  + destruct more; [exact Hmore|exact Hstop].
  + destruct (if lo <=? cnt then k st else None); [exact Hstop|exact Hmore].
Qed.

(** Whatever the matcher finds is a match, and the continuation accepted
    the state after it. *)
Lemma rmatch_sound (r : regex) :
  forall k st res,
    rmatch fl r k st = Some res ->
    exists mid, Matches fl r st mid /\ k mid = Some res.
Proof.
induction r as [|cs|r1 IH1 r2 IH2|r1 IH1 r2 IH2|g lo hi r1 IH1|i r1 IH1|];
  intros k st res; cbn [rmatch Matches].
- intros Hk. exists st. auto.
- destruct (rest st) as [|c tl] eqn:Hrest; [discriminate|].
  destruct (cset_match fl cs c) eqn:Hc; [|discriminate].
  intros Hk. eexists. split; [|exact Hk]. exists c, tl. auto.
- intros H. apply IH1 in H as (m & H1 & H).
  apply IH2 in H as (mid & H2 & Hk). exists mid. split; [|exact Hk].
  exists m. auto.
- unfold orelse. destruct (rmatch fl r1 k st) eqn:E1.
  + intros [= <-]. apply IH1 in E1 as (mid & H1 & Hk). eauto.
  + intros H. apply IH2 in H as (mid & H2 & Hk). eauto.
- intros H.
  apply (rep_loop_sound (rmatch fl r1) (Matches fl r1) IH1) in H
    as (n & mid & Hit & Hlo & Hk).
  exists mid. split; [|exact Hk]. exists n. split; [lia|exact Hit].
- intros H. apply IH1 in H as (m & H1 & Hk).
  eexists. split; [|exact Hk]. exists m. auto.
- destruct (at_boundary st) eqn:Hb; [|discriminate].
  intros Hk. exists st. auto.
Qed.

Lemma match_at_sound (r : regex) (p : option ascii) (s : str)
  (m : match_obj) :
  match_at fl r p s = Some m ->
  Matches fl r (MState p s []) (after m) /\ groups m = caps (after m).
Proof.
unfold match_at.
destruct (rmatch fl r (fun st => Some st) (MState p s [])) as [st'|] eqn:E;
  [|discriminate].
intros [= <-]. apply rmatch_sound in E as (mid & HM & [= ->]).
split; [exact HM|reflexivity].
Qed.


(** A run of [n] characters of a class. *)
Lemma iter_cls (cs : cset) (n : nat) :
  forall a b, iter (Matches fl (Cls cs)) n a b ->
  exists run, rest a = run ++ rest b /\ length run = n
              /\ Forall (fun c => cset_match fl cs c = true) run
              /\ caps b = caps a.
Proof.
induction n as [|n IH]; intros a b; cbn [iter].
- intros <-. exists []. repeat split. constructor.
- intros (m & (c & tl & Hrest & Hc & ->) & Hit).
  apply IH in Hit as (run & Hr & Hlen & Hall & Hcaps).
  cbn [rest caps] in *. exists (c :: run).
  rewrite Hrest, Hr. repeat split; cbn; auto.
Qed.

Lemma digit_class (c : ascii) :
  cset_match fl (OneOf [IDigit]) c = is_digit c.
Proof. cbn. apply orb_false_r. Qed.




End Soundness.

(** ** The scan of [re.sub] on the patterns of [clean_extracted_text] *)

Lemma re_sub_scan (fl : flags) (r : regex) (repl s : str) :
  re_sub fl r repl s
  = flat_map (sub_piece repl) (scan fl r (S (length s)) None s).
Proof. reflexivity. Qed.

Lemma length_cons_sub (c : ascii) (tl : str) :
  length (c :: tl) - length tl = 1.
Proof. simpl. destruct (length tl) eqn:E; [reflexivity|]. lia. Qed.

Lemma match_at_cls (fl : flags) (cs : cset) (p : option ascii) (s : str) :
  match_at fl (Cls cs) p s
  = match s with
    | c :: tl =>
        if cset_match fl cs c
        then Some (Match [c] [] (MState (Some c) tl []))
        else None
    | [] => None
    end.
Proof.
  unfold match_at. cbn [rmatch rest caps].
  destruct s as [|c tl]; [reflexivity|].
  destruct (cset_match fl cs c); [|reflexivity].
  cbn [rest caps]. rewrite length_cons_sub. reflexivity.
Qed.

(** A one-character pattern: every character it accepts is replaced. *)
Lemma scan_cls (fl : flags) (cs : cset) (repl : str) (s : str) :
  forall fuel p, length s < fuel ->
  flat_map (sub_piece repl) (scan fl (Cls cs) fuel p s)
  = flat_map (fun c => if cset_match fl cs c then repl else [c]) s.
Proof.
  induction s as [|c tl IH]; intros fuel p Hlen;
    (destruct fuel as [|fuel]; [inversion Hlen|]); cbn [scan].
  - rewrite match_at_cls. reflexivity.
  - rewrite match_at_cls. simpl in Hlen.
    destruct (cset_match fl cs c) eqn:Hc; cbn [after rest prev].
    + replace (length tl <? length (c :: tl)) with true
        by (symmetry; apply Nat.ltb_lt; simpl; lia).
      cbn [flat_map sub_piece]. rewrite Hc. f_equal. apply IH. lia.
    + cbn [flat_map sub_piece]. rewrite Hc. cbn [app]. f_equal.
      apply IH. lia.
Qed.

(** A pattern that starts with a character class finds nothing in a text
    without such a character. *)
Lemma match_at_cat_cls_none (fl : flags) (cs : cset) (r2 : regex)
  (p : option ascii) (s : str) :
  match s with
  | c :: _ => cset_match fl cs c = false
  | [] => True
  end ->
  match_at fl (Cat (Cls cs) r2) p s = None.
Proof.
  unfold match_at. cbn [rmatch rest].
  destruct s as [|c tl]; [reflexivity|]. intros ->. reflexivity.
Qed.

Lemma scan_cat_cls_none (fl : flags) (cs : cset) (r2 : regex) (repl : str)
  (s : str) :
  Forall (fun c => cset_match fl cs c = false) s ->
  forall fuel p, length s < fuel ->
  flat_map (sub_piece repl) (scan fl (Cat (Cls cs) r2) fuel p s) = s.
Proof.
  induction 1 as [|c tl Hc Htl IH]; intros fuel p Hlen;
    (destruct fuel as [|fuel]; [inversion Hlen|]); cbn [scan].
  - rewrite match_at_cat_cls_none by exact I. reflexivity.
  - rewrite match_at_cat_cls_none by exact Hc.
    cbn [flat_map sub_piece app]. f_equal. apply IH. simpl in Hlen. lia.
Qed.

(** [replace] leaves a text alone when the first character of [old] does
    not occur in it. *)
Lemma replace_absent (c0 : ascii) (old new s : str) :
  ~ In c0 s -> replace (c0 :: old) new s = s.
Proof.
  unfold replace. induction s as [|c tl IH]; intros Hnot; [reflexivity|].
  cbn [replace_go startswith].
  destruct (Ascii.eqb c0 c) eqn:E.
  - apply Ascii.eqb_eq in E. subst. exfalso. apply Hnot. left. reflexivity.
  - cbn [andb]. f_equal. apply IH. intros Hin. apply Hnot. right. exact Hin.
Qed.

(** A greedy repetition of a character class, with nothing to backtrack
    into afterwards, takes the whole run of such characters. *)
Lemma rep_loop_run (fl : flags) (cs : cset) (lo : nat) (tl : str)
  (caps0 : list (nat * str)) :
  head_fails (cset_match fl cs) tl ->
  forall run p fuel cnt,
    Forall (fun c => cset_match fl cs c = true) run ->
    length run < fuel ->
    rep_loop (rmatch fl (Cls cs)) true lo None (fun st => Some st)
             fuel cnt (MState p (run ++ tl) caps0)
    = if lo <=? cnt + length run
      then Some (MState (prev_after p run) tl caps0)
      else None.
Proof.
  intros Htl. induction run as [|c run IH]; intros p fuel cnt Hrun Hfuel;
    (destruct fuel as [|fuel]; [inversion Hfuel|]);
    cbn [rep_loop under rmatch rest caps app].
  - rewrite Nat.add_0_r.
    destruct tl as [|c tl']; cbn [orelse]; [reflexivity|].
    cbn [head_fails] in Htl. rewrite Htl. reflexivity.
  - inversion Hrun as [|? ? Hc Hrun']; subst. rewrite Hc.
    cbn [rest].
    replace (length (run ++ tl) <? length (c :: run ++ tl)) with true
      by (symmetry; apply Nat.ltb_lt; simpl; lia).
    rewrite IH by (simpl in Hfuel; auto; lia).
    cbn [length prev_after fold_left].
    replace (S cnt + length run) with (cnt + S (length run)) by lia.
    destruct (lo <=? cnt + S (length run)) eqn:E; cbn [orelse];
      [reflexivity|].
    replace (lo <=? cnt) with false; [reflexivity|].
    symmetry. apply Nat.leb_gt. apply Nat.leb_gt in E. lia.
Qed.

Lemma match_at_plus_run (fl : flags) (cs : cset) (p : option ascii)
  (run tl : str) :
  Forall (fun c => cset_match fl cs c = true) run ->
  head_fails (cset_match fl cs) tl ->
  match_at fl (plus (Cls cs)) p (run ++ tl)
  = if 1 <=? length run
    then Some (Match run [] (MState (prev_after p run) tl []))
    else None.
Proof.
  intros Hrun Htl. unfold match_at, plus.
  change (rmatch fl (Rep true 1 None (Cls cs)) (fun st => Some st)
                 (MState p (run ++ tl) []))
    with (rep_loop (rmatch fl (Cls cs)) true 1 None (fun st => Some st)
                   (S (length (run ++ tl))) 0 (MState p (run ++ tl) [])).
  rewrite rep_loop_run by (auto; rewrite length_app; lia).
  cbn [Nat.add]. destruct (1 <=? length run); [|reflexivity].
  cbn [rest caps]. rewrite firstn_run. reflexivity.
Qed.

(** [lstrip] cuts a run of whitespace off the front. *)
Lemma lstrip_split (s : str) :
  exists run, s = run ++ lstrip s
              /\ Forall (fun c => is_space c = true) run
              /\ head_fails is_space (lstrip s).
Proof.
  induction s as [|c tl (run & Heq & Hrun & Hhd)]; cbn [lstrip].
  - exists []. repeat split. constructor.
  - destruct (is_space c) eqn:Hc.
    + exists (c :: run). cbn [app]. rewrite <- Heq. repeat split; auto.
    + exists []. repeat split; [constructor|exact Hc].
Qed.

Lemma squeeze_true_lstrip (s : str) :
  squeeze true s = squeeze false (lstrip s).
Proof.
  induction s as [|c tl IH]; cbn [squeeze lstrip]; [reflexivity|].
  destruct (is_space c) eqn:Hc; [exact IH|].
  cbn [squeeze]. rewrite Hc. reflexivity.
Qed.

Lemma space_class (c : ascii) :
  cset_match no_flags (OneOf [ISpace]) c = is_space c.
Proof. cbn. apply orb_false_r. Qed.

(** [re.sub(r'\s+', ' ', s)] squeezes each run of whitespace to one
    space. *)
Lemma scan_whitespace (fuel : nat) :
  forall p s, length s < fuel ->
  flat_map (sub_piece [SP])
           (scan no_flags CVParser.re_whitespace fuel p s)
  = squeeze false s.
Proof.
  induction fuel as [|fuel IH]; intros p s Hlen; [inversion Hlen|].
  cbn [scan]. unfold CVParser.re_whitespace, space.
  destruct s as [|c tl0].
  - change (match_at no_flags (plus (Cls (OneOf [ISpace]))) p [])
      with (match_at no_flags (plus (Cls (OneOf [ISpace]))) p ([] ++ [])).
    rewrite match_at_plus_run by (constructor || exact I).
    reflexivity.
  - destruct (is_space c) eqn:Hc.
    + destruct (lstrip_split tl0) as (run & Heq & Hrun & Hhd).
      replace (match_at no_flags (plus (Cls (OneOf [ISpace]))) p (c :: tl0))
        with (match_at no_flags (plus (Cls (OneOf [ISpace]))) p
                       ((c :: run) ++ lstrip tl0))
        by (cbn [app]; rewrite <- Heq; reflexivity).
      rewrite match_at_plus_run.
      * cbn [length Nat.leb after rest prev].
        replace (length (lstrip tl0) <? S (length tl0)) with true.
        2:{ symmetry. apply Nat.ltb_lt. rewrite Heq at 2.
            rewrite length_app. lia. }
        cbn [flat_map sub_piece squeeze]. rewrite Hc.
        rewrite squeeze_true_lstrip. cbn [app]. f_equal.
        apply IH. simpl in Hlen. rewrite Heq in Hlen.
        rewrite length_app in Hlen. lia.
      * constructor; [rewrite space_class; exact Hc|].
        eapply Forall_impl; [|exact Hrun].
        intros a Ha. rewrite space_class. exact Ha.
      * destruct (lstrip tl0); [exact I|].
        cbn [head_fails] in *. rewrite space_class. exact Hhd.
    + change (match_at no_flags (plus (Cls (OneOf [ISpace]))) p (c :: tl0))
        with (match_at no_flags (plus (Cls (OneOf [ISpace]))) p
                       ([] ++ c :: tl0)).
      rewrite match_at_plus_run.
      * cbn [length Nat.leb flat_map sub_piece squeeze app].
        rewrite Hc. f_equal. apply IH. simpl in Hlen. lia.
      * constructor.
      * cbn [head_fails]. rewrite space_class. exact Hc.
Qed.

(** ** clean_extracted_text *)

Lemma special_whitelisted (c : ascii) :
  cset_match no_flags CVParser.special c = negb (whitelisted c).
Proof.
  unfold whitelisted, CVParser.special.
  cbn [cset_match existsb citem_match no_flags IGNORECASE of_string
       list_ascii_of_string].
  rewrite !orb_false_r. reflexivity.
Qed.

Lemma squeeze_chars (s : str) :
  forall b c, In c (squeeze b s) ->
              c = SP \/ (is_space c = false /\ In c s).
Proof.
  induction s as [|a tl IH]; intros b c; cbn [squeeze]; [intros []|].
  destruct (is_space a) eqn:Ha.
  - destruct b; [|intros [<-|Hin]; [left; reflexivity|]];
      (intros Hin || idtac);
      (destruct (IH _ _ Hin) as [->|[Hc Hin']];
       [left; reflexivity|right; split; [exact Hc|right; exact Hin']]).
  - intros [<-|Hin].
    + right. split; [exact Ha|left; reflexivity].
    + destruct (IH _ _ Hin) as [->|[Hc Hin']];
        [left; reflexivity|right; split; [exact Hc|right; exact Hin']].
Qed.

Lemma core_chars (x : str) (c : ascii) :
  In c (core x) ->
  c = SP \/ (is_space c = false /\ whitelisted c = true).
Proof.
  unfold core. rewrite in_map_iff. intros (a & <- & Hin).
  unfold sanitize. destruct (whitelisted a) eqn:Hw; [|left; reflexivity].
  destruct (squeeze_chars _ _ _ Hin) as [->|[Ha _]];
    [left; reflexivity|right; split; assumption].
Qed.

Lemma core_no_char (x : str) (c : ascii) :
  is_space c = true -> c <> SP -> ~ In c (core x).
Proof.
  intros Hs Hne Hin.
  destruct (core_chars _ _ Hin) as [->|[Hc _]]; congruence.
Qed.

Lemma lstrip_In (s : str) (c : ascii) : In c (lstrip s) -> In c s.
Proof.
  destruct (lstrip_split s) as (run & Heq & _). intros Hin.
  rewrite Heq. apply in_or_app. right. exact Hin.
Qed.

Lemma rstrip_In (s : str) (c : ascii) : In c (rstrip s) -> In c s.
Proof.
  unfold rstrip. rewrite <- in_rev. intros Hin.
  apply lstrip_In in Hin. rewrite <- in_rev in Hin. exact Hin.
Qed.

Lemma strip_In (s : str) (c : ascii) : In c (strip s) -> In c s.
Proof. unfold strip. intros Hin. apply lstrip_In, rstrip_In, Hin. Qed.

Lemma flat_map_sanitize (l : str) :
  flat_map (fun c => if cset_match no_flags CVParser.special c
                     then of_string " " else [c]) l
  = map sanitize l.
Proof.
  induction l as [|a l IH]; [reflexivity|].
  cbn [flat_map map]. rewrite IH, special_whitelisted.
  unfold sanitize. destruct (whitelisted a); reflexivity.
Qed.

(** What [clean_extracted_text] computes: runs of whitespace squeezed,
    then every other character outside the white list turned into a
    space, then the ends stripped.  The two newline steps find nothing
    left to do. *)
Lemma clean_formula (x : str) :
  CVParser.clean_extracted_text x = strip (core x).
Proof.
  unfold CVParser.clean_extracted_text.
  destruct x as [|c0 x0]; [reflexivity|]. cbn [nonempty negb].
  set (x := c0 :: x0).
  assert (H1 : re_sub no_flags CVParser.re_whitespace " " x
               = squeeze false x).
  { rewrite re_sub_scan. apply scan_whitespace. lia. }
  rewrite H1.
  assert (H2 : re_sub no_flags CVParser.re_special " " (squeeze false x)
               = core x).
  { rewrite re_sub_scan. unfold CVParser.re_special.
    rewrite scan_cls by lia. apply flat_map_sanitize. }
  rewrite H2.
  assert (HCR : ~ In CR (core x))
    by (apply core_no_char; [reflexivity|discriminate]).
  assert (HLF : ~ In LF (core x))
    by (apply core_no_char; [reflexivity|discriminate]).
  rewrite (@replace_absent CR [LF] [LF] (core x) HCR).
  rewrite (@replace_absent CR [] [LF] (core x) HCR).
  rewrite re_sub_scan. unfold CVParser.re_blank_lines, chr.
  rewrite scan_cat_cls_none; [reflexivity| |lia].
  apply Forall_forall. intros a Ha. cbn.
  rewrite orb_false_r. apply Ascii.eqb_neq. intros ->. contradiction.
Qed.

Lemma lstrip_no_space_head (s : str) : no_space_head (lstrip s).
Proof.
  destruct (lstrip_split s) as (_ & _ & _ & H). exact H.
Qed.

Lemma lstrip_fixed (s : str) : no_space_head s -> lstrip s = s.
Proof.
  destruct s as [|c tl]; [reflexivity|]. cbn. intros ->. reflexivity.
Qed.

Lemma lstrip_idem (s : str) : lstrip (lstrip s) = lstrip s.
Proof. apply lstrip_fixed, lstrip_no_space_head. Qed.

(** [rstrip] cuts a run of whitespace off the end. *)
Lemma rstrip_split (s : str) :
  exists run, s = rstrip s ++ run
              /\ Forall (fun c => is_space c = true) run.
Proof.
  unfold rstrip.
  destruct (lstrip_split (rev s)) as (run & Heq & Hrun & _).
  exists (rev run). split.
  - rewrite <- rev_app_distr, <- Heq, rev_involutive. reflexivity.
  - apply Forall_rev. exact Hrun.
Qed.

Lemma rstrip_idem (s : str) : rstrip (rstrip s) = rstrip s.
Proof.
  unfold rstrip. rewrite rev_involutive, lstrip_idem. reflexivity.
Qed.

Lemma rstrip_no_space_head (s : str) :
  no_space_head s -> no_space_head (rstrip s).
Proof.
  destruct (rstrip_split s) as (run & Heq & _).
  destruct (rstrip s) as [|c tl]; [intros _; exact I|].
  rewrite Heq. cbn. auto.
Qed.

Lemma strip_idem (s : str) : strip (strip s) = strip s.
Proof.
  unfold strip.
  rewrite (lstrip_fixed (rstrip (lstrip s)))
    by apply rstrip_no_space_head, lstrip_no_space_head.
  apply rstrip_idem.
Qed.

Lemma tidy_app_r (a b : str) : tidy (a ++ b) -> tidy b.
Proof.
  induction a as [|c a IH]; cbn [app tidy]; [auto|].
  intros [_ H]. auto.
Qed.

Lemma tidy_app_l (a b : str) : tidy (a ++ b) -> tidy a.
Proof.
  induction a as [|c a IH]; cbn [app tidy]; [auto|].
  intros [Hc H]. split; [|auto].
  intros Hs. destruct (Hc Hs) as [-> Hhd]. split; [reflexivity|].
  destruct a; [exact I|exact Hhd].
Qed.

Lemma tidy_strip (s : str) : tidy s -> tidy (strip s).
Proof.
  intros H. unfold strip.
  destruct (lstrip_split s) as (run & Heq & _).
  rewrite Heq in H. apply tidy_app_r in H.
  destruct (rstrip_split (lstrip s)) as (run' & Heq' & _).
  rewrite Heq' in H. apply tidy_app_l in H. exact H.
Qed.

Lemma squeeze_no_space_head (s : str) : no_space_head (squeeze true s).
Proof.
  induction s as [|c tl IH]; cbn [squeeze]; [exact I|].
  destruct (is_space c) eqn:Hc; [exact IH|exact Hc].
Qed.

Lemma tidy_squeeze (s : str) : forall b, tidy (squeeze b s).
Proof.
  induction s as [|c tl IH]; intros b; cbn [squeeze]; [exact I|].
  destruct (is_space c) eqn:Hc.
  - destruct b; [apply IH|]. cbn [tidy]. split; [|apply IH].
    intros _. split; [reflexivity|apply squeeze_no_space_head].
  - cbn [tidy]. split; [|apply IH]. intros H. congruence.
Qed.

Lemma squeeze_fixed (s : str) : tidy s -> squeeze false s = s.
Proof.
  induction s as [|c tl IH]; cbn [squeeze tidy]; [reflexivity|].
  intros [Hc Ht]. destruct (is_space c) eqn:Hs.
  - destruct (Hc eq_refl) as [-> Hhd]. f_equal.
    rewrite squeeze_true_lstrip, lstrip_fixed by exact Hhd. auto.
  - f_equal. auto.
Qed.

Lemma sanitize_fixed (s : str) :
  Forall (fun c => whitelisted c = true) s -> map sanitize s = s.
Proof.
  induction 1 as [|c tl Hc _ IH]; [reflexivity|].
  cbn [map]. unfold sanitize at 1. rewrite Hc, IH. reflexivity.
Qed.

Lemma whitelisted_squeeze (s : str) (b : bool) :
  Forall (fun c => whitelisted c = true) s ->
  Forall (fun c => whitelisted c = true) (squeeze b s).
Proof.
  intros H. apply Forall_forall. intros c Hin.
  destruct (squeeze_chars _ _ _ Hin) as [->|[_ Hin']]; [reflexivity|].
  rewrite Forall_forall in H. auto.
Qed.

Lemma whitelisted_strip (s : str) :
  Forall (fun c => whitelisted c = true) s ->
  Forall (fun c => whitelisted c = true) (strip s).
Proof.
  rewrite !Forall_forall. intros H c Hin. apply H, strip_In, Hin.
Qed.

(** The cleaned text has white-listed characters only. *)
Lemma clean_whitelisted (x : str) :
  Forall (fun c => whitelisted c = true) (CVParser.clean_extracted_text x).
Proof.
  rewrite clean_formula. apply whitelisted_strip.
  apply Forall_forall. intros c Hin.
  destruct (core_chars _ _ Hin) as [->|[_ H]]; [reflexivity|exact H].
Qed.

(** On a text of white-listed characters, cleaning is squeezing and
    stripping, and doing it twice changes nothing more. *)
Lemma clean_whitelisted_idem (x : str) :
  Forall (fun c => whitelisted c = true) x ->
  CVParser.clean_extracted_text (CVParser.clean_extracted_text x)
  = CVParser.clean_extracted_text x.
Proof.
  intros Hx. rewrite !clean_formula.
  assert (Hc : core x = squeeze false x)
    by (unfold core; apply sanitize_fixed, whitelisted_squeeze, Hx).
  rewrite Hc.
  set (y := strip (squeeze false x)).
  assert (Hy : tidy y) by (apply tidy_strip, tidy_squeeze).
  assert (Hw : Forall (fun c => whitelisted c = true) y)
    by (apply whitelisted_strip, whitelisted_squeeze, Hx).
  unfold core. rewrite (squeeze_fixed _ Hy), (sanitize_fixed Hw).
  apply strip_idem.
Qed.

(** X24.  From the second application on, cleaning changes nothing,
    whatever the text. *)
Theorem clean_stable (x : str) :
  CVParser.clean_extracted_text
    (CVParser.clean_extracted_text (CVParser.clean_extracted_text x))
  = CVParser.clean_extracted_text (CVParser.clean_extracted_text x).
Proof. apply clean_whitelisted_idem, clean_whitelisted. Qed.

Lemma clean_no_newline (x : str) :
  ~ In LF (CVParser.clean_extracted_text x).
Proof.
  rewrite clean_formula. intros Hin. apply strip_In in Hin.
  revert Hin. apply core_no_char; [reflexivity|discriminate].
Qed.

(** C6, as the code has it.  The first step of [clean_extracted_text]
    turns every run of whitespace, newlines included, into one space, so
    no output holds a newline and the two newline steps never fire: two
    lines three newlines apart come out as one line, "a b", not as two
    lines with one blank line between them. *)
Theorem clean_extracted_text_loses_lines :
  (forall x, ~ In LF (CVParser.clean_extracted_text x))
  /\ CVParser.clean_extracted_text two_lines_far_apart = "a b"
  /\ CVParser.clean_extracted_text two_lines_far_apart
     <> "a" +++ [LF; LF] +++ "b".
Proof.
  split; [exact clean_no_newline|].
  split; [vm_compute; reflexivity|vm_compute; discriminate].
Qed.

(** C8, as the code has it.  The whitespace is squeezed before the
    other characters are replaced by spaces, so a replaced character
    next to a space leaves two spaces in the result, "a  b" for "a #b",
    under the comment "Remove excessive whitespace"; only the next
    application squeezes them, and so cleaning twice is not cleaning
    once. *)
Theorem clean_extracted_text_not_idempotent :
  CVParser.clean_extracted_text "a #b" = "a  b"
  /\ CVParser.clean_extracted_text (CVParser.clean_extracted_text "a #b")
     = "a b"
  /\ CVParser.clean_extracted_text (CVParser.clean_extracted_text "a #b")
     <> CVParser.clean_extracted_text "a #b".
Proof.
  split; [|split]; [vm_compute; reflexivity..|vm_compute; discriminate].
Qed.

(** X23.  [clean_extracted_text] is idempotent on every text whose
    characters are all on the white list (word characters, whitespace,
    and [. , : ; ! ? @ ( ) - /]). *)
Theorem clean_extracted_text_idempotent_on_whitelist (x : str)
  (Hx : Forall (fun c => whitelisted c = true) x) :
  CVParser.clean_extracted_text (CVParser.clean_extracted_text x)
  = CVParser.clean_extracted_text x.
Proof. exact (clean_whitelisted_idem Hx). Qed.

Lemma clean_extracted_text_idempotent_on_whitelist_witness :
  Forall (fun c => whitelisted c = true) spaced_out /\
  CVParser.clean_extracted_text (CVParser.clean_extracted_text spaced_out)
  = CVParser.clean_extracted_text spaced_out.
Proof.
  assert (H : Forall (fun c => whitelisted c = true) spaced_out).
  { apply Forall_forall. intros c Hin.
    assert (Hall : forallb whitelisted spaced_out = true)
      by (vm_compute; reflexivity).
    rewrite forallb_forall in Hall. exact (Hall c Hin). }
  split; [exact H|].
  exact (clean_extracted_text_idempotent_on_whitelist H).
Defined.

(** ** extract_text: exceptions *)

Lemma bind_run {A B} (c : cmd A) (f : A -> cmd B) (text : str) :
  bind c f text
  = match c text with
    | (Normal a, text') => f a text'
    | (Returned v, text') => (Returned v, text')
    | (Raised e, text') => (Raised e, text')
    end.
Proof. reflexivity. Qed.

(** The page loop: the text of the pages before the first one that
    raises is added, and the loop ends in that page's exception. *)
Lemma add_pages_run (L : Libs) (pages : list page) :
  forall text,
    CVParser.add_pages pages text
    = (match first_raise pages with
       | Some e => Raised e
       | None => Normal tt
       end, text ++ pages_text (readable pages)).
Proof.
unfold CVParser.add_pages.
induction pages as [|[o|e] tl IH]; intros text;
  cbn [for_each first_raise readable pages_text flat_map].
- unfold skip, ret. rewrite app_nil_r. reflexivity.
- rewrite bind_run, bind_run. unfold call at 1.
  destruct o as [t|]; cbn [truthy text_of when].
  + destruct (nonempty t) eqn:Ht; cbn [when].
    * rewrite bind_run. unfold get_text, set_text. rewrite IH.
      rewrite <- !app_assoc. reflexivity.
    * unfold skip, ret. rewrite IH. reflexivity.
  + unfold skip, ret. rewrite IH. reflexivity.
- rewrite bind_run, bind_run. unfold call at 1.
  rewrite app_nil_r. reflexivity.
Qed.

Lemma pages_text_app (a b : list page) :
  pages_text (a ++ b) = pages_text a ++ pages_text b.
Proof. unfold pages_text. apply flat_map_app. Qed.

Lemma readable_all (pages : list page) :
  returns_all pages -> readable pages = pages /\ first_raise pages = None.
Proof.
induction pages as [|[o|e] tl IH]; intros H; cbn [readable first_raise].
- auto.
- destruct IH as [-> ->]; [|auto].
  intros pg Hin. apply H. right. exact Hin.
- destruct (H (Raise e) (or_introl eq_refl)) as [o Ho]. discriminate Ho.
Qed.

Lemma readable_until (good more : list page) (e : exn) :
  returns_all good ->
  readable (good ++ Raise e :: more) = good
  /\ first_raise (good ++ Raise e :: more) = Some e.
Proof.
induction good as [|[o|e0] tl IH]; intros H; cbn [app readable first_raise].
- auto.
- destruct IH as [-> ->]; [|auto].
  intros pg Hin. apply H. right. exact Hin.
- destruct (H (Raise e0) (or_introl eq_refl)) as [o Ho]. discriminate Ho.
Qed.

Section ExtractText.
Import CVParser.
Variable L : Libs.

Lemma extract_text_pdf (p ext : str) :
  lower ext = ".pdf" ->
  extract_text L p ext = extract_text_from_pdf L p.
Proof.
  intros H. unfold extract_text. rewrite H. reflexivity.
Qed.

Lemma extract_text_docx (p ext : str) :
  lower ext = ".docx" ->
  extract_text L p ext = extract_text_from_docx L p.
Proof.
  intros H. unfold extract_text. rewrite H. reflexivity.
Qed.

Lemma extract_text_unsupported (p ext : str) :
  lower ext <> ".pdf" -> lower ext <> ".docx" ->
  extract_text L p ext
  = Raise (ValueError ("Unsupported file format: " +++ lower ext)).
Proof.
  intros H1 H2. unfold extract_text.
  destruct (str_eqb (lower ext) ".pdf") eqn:E1;
    [apply str_eqb_eq in E1; contradiction|].
  destruct (str_eqb (lower ext) ".docx") eqn:E2;
    [apply str_eqb_eq in E2; contradiction|].
  reflexivity.
Qed.

Lemma extension_cases (ext : str) :
  lower ext = ".pdf" \/ lower ext = ".docx"
  \/ (lower ext <> ".pdf" /\ lower ext <> ".docx").
Proof.
  destruct (str_eqb (lower ext) ".pdf") eqn:E1;
    [left; apply str_eqb_eq; exact E1|].
  destruct (str_eqb (lower ext) ".docx") eqn:E2;
    [right; left; apply str_eqb_eq; exact E2|].
  right. right. split; intros H; apply str_eqb_eq in H; congruence.
Qed.

(** *** On a standard output that takes every line *)

Hypothesis Hout : accepts_all L.

Lemma print_run (l : utext) (text : str) :
  print L l text = (Normal tt, text).
Proof. unfold print, call. rewrite Hout. reflexivity. Qed.

Lemma return_if_text_run (library : string) (text : str) :
  return_if_text L library text
  = if nonempty (strip text) then (Returned text, text)
    else (Normal tt, text).
Proof.
unfold return_if_text. rewrite bind_run. unfold get_text.
destruct (nonempty (strip text)); cbn [when]; [|reflexivity].
rewrite bind_run, print_run. reflexivity.
Qed.

(** A block that reads page by page ends as the claim's strategy does:
    by [return] when it gives the text, normally when it fails. *)
Lemma pages_block_run (opened : pyresult (list page))
  (library what : string) (text : str) :
  try_except
    (pdf <- call opened ;; add_pages pdf ;;; return_if_text L library)
    (report L what) text
  = match by_pages true opened text with
    | Gave t => (Returned t, t)
    | Failed t => (Normal tt, t)
    end.
Proof.
unfold try_except, by_pages. rewrite bind_run. unfold call at 1.
destruct opened as [pages|e].
- rewrite bind_run, (add_pages_run L). unfold breaks.
  destruct (first_raise pages) as [e|]; cbn [negb andb].
  + unfold report. apply print_run.
  + rewrite return_if_text_run.
    destruct (nonempty (strip (text ++ pages_text (readable pages))));
      reflexivity.
- unfold report. apply print_run.
Qed.

Lemma method_pdfplumber_run (p text : str) :
  method_pdfplumber L p text
  = match pdfplumber_strategy L p text with
    | Gave t => (Returned t, t)
    | Failed t => (Normal tt, t)
    end.
Proof.
unfold method_pdfplumber, pdfplumber_strategy.
destruct (PDFPLUMBER_AVAILABLE L); cbn [when]; [apply pages_block_run|].
reflexivity.
Qed.

Lemma method_pypdf2_run (p text : str) :
  method_pypdf2 L p text
  = match pypdf2_strategy L p text with
    | Gave t => (Returned t, t)
    | Failed t => (Normal tt, t)
    end.
Proof.
unfold method_pypdf2, pypdf2_strategy.
destruct (PYPDF2_AVAILABLE L); cbn [when]; [apply pages_block_run|].
reflexivity.
Qed.

Lemma method_pdfminer_run (p text : str) :
  method_pdfminer L p text
  = match pdfminer_strategy L p text with
    | Gave t => (Returned t, t)
    | Failed t => (Normal tt, t)
    end.
Proof.
unfold method_pdfminer, pdfminer_strategy, in_one_go.
destruct (PDFMINER_AVAILABLE L); cbn [when]; [|reflexivity].
unfold try_except. rewrite bind_run. unfold call at 1.
destruct (pdfminer_extract L p) as [t|e].
- rewrite bind_run. unfold set_text. rewrite return_if_text_run.
  destruct (nonempty (strip t)); reflexivity.
- unfold report. apply print_run.
Qed.

Lemma suggest_ocr_run (text : str) :
  suggest_ocr L text = (Normal tt, text).
Proof.
unfold suggest_ocr. rewrite bind_run. unfold get_text.
destruct (nonempty (strip text)); cbn [negb when]; [reflexivity|].
rewrite bind_run, print_run. apply print_run.
Qed.

(** The part of [extract_text_from_pdf] from a method on, run on the
    text gathered so far. *)
Lemma after_pdfminer_run (p text : str) :
  (method_pdfminer L p ;;; suggest_ocr L ;;;
   t <- get_text ;; @return_ unit t) text
  = (Returned (first_to_give [pdfminer_strategy L p] text),
     first_to_give [pdfminer_strategy L p] text).
Proof.
rewrite bind_run, method_pdfminer_run. cbn [first_to_give].
destruct (pdfminer_strategy L p text) as [t|t]; [reflexivity|].
rewrite bind_run, suggest_ocr_run. reflexivity.
Qed.

Lemma after_pypdf2_run (p text : str) :
  (method_pypdf2 L p ;;; method_pdfminer L p ;;; suggest_ocr L ;;;
   t <- get_text ;; @return_ unit t) text
  = (Returned (first_to_give [pypdf2_strategy L p; pdfminer_strategy L p]
                             text),
     first_to_give [pypdf2_strategy L p; pdfminer_strategy L p] text).
Proof.
rewrite bind_run, method_pypdf2_run. cbn [first_to_give].
destruct (pypdf2_strategy L p text) as [t|t]; [reflexivity|].
rewrite after_pdfminer_run. reflexivity.
Qed.

(** [extract_text_from_pdf] is the three strategies tried in turn. *)
Lemma extract_text_from_pdf_run (p : str) :
  extract_text_from_pdf L p
  = Return (first_to_give [pdfplumber_strategy L p; pypdf2_strategy L p;
                           pdfminer_strategy L p] []).
Proof.
unfold extract_text_from_pdf, run_body.
rewrite bind_run, method_pdfplumber_run. cbn [first_to_give].
destruct (pdfplumber_strategy L p []) as [t|t]; [reflexivity|].
rewrite after_pypdf2_run. reflexivity.
Qed.

Lemma for_each_appends {A} (f : A -> str) (l : list A) :
  forall text,
    for_each l (fun x => t <- get_text ;; set_text (t ++ f x)) text
    = (Normal tt, text ++ flat_map f l).
Proof.
induction l as [|x l IH]; intros text; cbn [for_each flat_map].
- unfold skip, ret. rewrite app_nil_r. reflexivity.
- rewrite bind_run, bind_run. unfold get_text, set_text.
  rewrite IH, app_assoc. reflexivity.
Qed.

Lemma for_each_run {A} (body : A -> cmd unit) (f : A -> str) (l : list A) :
  (forall x text, body x text = (Normal tt, text ++ f x)) ->
  forall text, for_each l body text = (Normal tt, text ++ flat_map f l).
Proof.
intros Hbody. induction l as [|x l IH]; intros text;
  cbn [for_each flat_map].
- unfold skip, ret. rewrite app_nil_r. reflexivity.
- rewrite bind_run, Hbody, IH, app_assoc. reflexivity.
Qed.

Lemma document_run (doc : docx_document) (text : str) :
  (for_each (paragraphs doc) (fun paragraph =>
     t <- get_text ;; set_text (t ++ paragraph ++ nl)) ;;;
   for_each (tables doc) (fun table =>
     for_each table (fun row =>
       for_each row (fun cell =>
         t <- get_text ;; set_text (t ++ cell ++ nl))))) text
  = (Normal tt, text ++ document_text doc).
Proof.
rewrite bind_run.
rewrite (for_each_appends (fun paragraph => paragraph ++ nl)).
unfold document_text. rewrite app_assoc.
apply (for_each_run _
         (fun table =>
            flat_map (fun row => flat_map (fun cell => cell ++ nl) row)
                     table)).
intros table t. apply for_each_run. intros row t'.
apply (for_each_appends (fun cell => cell ++ nl)).
Qed.

Lemma extract_text_from_docx_run (p : str) :
  extract_text_from_docx L p = Return (docx_text L p).
Proof.
unfold extract_text_from_docx, run_body, docx_text, method_docx.
rewrite bind_run.
destruct (DOCX_AVAILABLE L); cbn [when]; [|reflexivity].
unfold try_except. rewrite bind_run. unfold call at 1.
destruct (docx_Document L p) as [doc|e].
- rewrite document_run. reflexivity.
- unfold report. rewrite print_run. reflexivity.
Qed.

(** The three ways through [extract_text]. *)
Lemma extract_text_cases (p ext : str) :
  (lower ext = ".pdf" /\ exists t, extract_text L p ext = Return t)
  \/ (lower ext <> ".pdf" /\ lower ext = ".docx"
      /\ exists t, extract_text L p ext = Return t)
  \/ (lower ext <> ".pdf" /\ lower ext <> ".docx"
      /\ extract_text L p ext
         = Raise (ValueError ("Unsupported file format: " +++ lower ext))).
Proof.
  destruct (extension_cases ext) as [H|[H|[H1 H2]]].
  - left. split; [exact H|]. rewrite (extract_text_pdf _ _ H).
    rewrite extract_text_from_pdf_run. eauto.
  - right. left. split; [rewrite H; discriminate|]. split; [exact H|].
    rewrite (extract_text_docx _ _ H), extract_text_from_docx_run. eauto.
  - right. right. split; [exact H1|]. split; [exact H2|].
    apply extract_text_unsupported; assumption.
Qed.

Lemma extract_text_raises_or_returns (p ext : str) :
  ((lower ext = ".pdf" \/ lower ext = ".docx")
   /\ exists t, extract_text L p ext = Return t)
  \/ ((lower ext <> ".pdf" /\ lower ext <> ".docx")
      /\ exists e, extract_text L p ext = Raise e).
Proof.
destruct (extract_text_cases p ext)
  as [(H & t & Ht)|[(_ & H & t & Ht)|(H1 & H2 & Hr)]]; eauto 6.
Qed.

(** What is left of the claim on such a standard output: only an
    extension that is not supported raises, and a strategy that fails,
    at once or in the middle of its pages, hands the text it gathered
    over to the next one. *)
Lemma extract_text_on_good_stdout (file_path file_extension : str) :
  let ext := lower file_extension in
  ((exists e, extract_text L file_path file_extension = Raise e) <->
   (ext <> ".pdf" /\ ext <> ".docx"))
  /\ (forall e, extract_text L file_path file_extension = Raise e ->
                e = ValueError ("Unsupported file format: " +++ ext))
  /\ (ext = ".pdf" ->
      extract_text L file_path file_extension
      = Return (first_to_give [pdfplumber_strategy L file_path;
                               pypdf2_strategy L file_path;
                               pdfminer_strategy L file_path] []))
  /\ (ext = ".docx" ->
      extract_text L file_path file_extension
      = Return (docx_text L file_path))
  /\ (forall text,
        pdfplumber_strategy L file_path [] = Failed text ->
        extract_text_from_pdf L file_path
        = Return (first_to_give [pypdf2_strategy L file_path;
                                 pdfminer_strategy L file_path] text))
  /\ (forall text text',
        pdfplumber_strategy L file_path [] = Failed text ->
        pypdf2_strategy L file_path text = Failed text' ->
        extract_text_from_pdf L file_path
        = Return (first_to_give [pdfminer_strategy L file_path] text'))
  /\ (forall text text' text'',
        pdfplumber_strategy L file_path [] = Failed text ->
        pypdf2_strategy L file_path text = Failed text' ->
        pdfminer_strategy L file_path text' = Failed text'' ->
        extract_text_from_pdf L file_path = Return text'')
  /\ (fails_at_once (PDFPLUMBER_AVAILABLE L) (pdfplumber_open L file_path)
      -> fails_at_once (PYPDF2_AVAILABLE L) (PyPDF2_PdfReader L file_path)
      -> fails_at_once (PDFMINER_AVAILABLE L) (pdfminer_extract L file_path)
      -> extract_text_from_pdf L file_path = Return [])
  /\ (fails_at_once (DOCX_AVAILABLE L) (docx_Document L file_path)
      -> extract_text_from_docx L file_path = Return []).
Proof.
intros ext. subst ext.
assert (Hiff : (exists e, extract_text L file_path file_extension = Raise e)
               <-> lower file_extension <> ".pdf"
                   /\ lower file_extension <> ".docx").
{ destruct (extract_text_cases file_path file_extension)
    as [(Hext & t & Ht)|[(Hn1 & Hext & t & Ht)|(Hn1 & Hn2 & Hr)]].
  - split; [intros [e He]; congruence|intros [H _]; contradiction].
  - split; [intros [e He]; congruence|intros [_ H]; contradiction].
  - split; [auto|eauto]. }
split; [exact Hiff|].
split.
{ intros e He. assert (Hex : exists e, extract_text L file_path file_extension
                                       = Raise e) by eauto.
  apply Hiff in Hex as [H1 H2].
  rewrite (extract_text_unsupported _ _ H1 H2) in He. congruence. }
split.
{ intros H. rewrite (extract_text_pdf _ _ H).
  apply extract_text_from_pdf_run. }
split.
{ intros H. rewrite (extract_text_docx _ _ H).
  apply extract_text_from_docx_run. }
rewrite extract_text_from_pdf_run, extract_text_from_docx_run.
cbn [first_to_give].
split; [intros text ->; reflexivity|].
split; [intros text text' -> ->; reflexivity|].
split; [intros text text' text'' -> -> ->; reflexivity|].
split.
- unfold pdfplumber_strategy, pypdf2_strategy, pdfminer_strategy,
    by_pages, in_one_go.
  intros [->|[e1 ->]] [->|[e2 ->]] [->|[e3 ->]];
    repeat match goal with
           | |- context [if ?b then _ else _] => destruct b
           end; reflexivity.
- unfold docx_text. intros [->|[e ->]]; [reflexivity|].
  destruct (DOCX_AVAILABLE L); reflexivity.
Qed.

End ExtractText.

(** C7, as the code has it.  On a supported format [extract_text] can
    raise all the same: the two lines that suggest OCR are printed
    outside every [try], and the handlers print as well, so on a
    standard output that raises on a line (an ASCII stream on the
    warning sign, or on a letter of the file name in the error message)
    the exception leaves [extract_text]: a scanned PDF and a DOCX that
    is not found both end in [UnicodeEncodeError] where the claim has
    the empty string.  On a standard output that takes every line the
    claim holds: [extract_text] raises exactly for an extension other
    than ".pdf" and ".docx", and then the unsupported-format error; a
    strategy that fails, at once or in the middle of its pages, leaves
    the text it gathered to the next strategy; and when all fail at once
    the result is the empty string. *)
Theorem extract_text_raises_in_print :
  (exists msg,
     CVParser.extract_text scanned_on_ascii "scan.pdf" ".pdf"
     = Raise (UnicodeEncodeError msg))
  /\ (exists msg,
        CVParser.extract_text missing_on_ascii resume_docx ".docx"
        = Raise (UnicodeEncodeError msg))
  /\ forall L, accepts_all L ->
     forall file_path file_extension,
     let ext := lower file_extension in
     ((exists e, CVParser.extract_text L file_path file_extension = Raise e)
      <-> (ext <> ".pdf" /\ ext <> ".docx"))
     /\ (forall e, CVParser.extract_text L file_path file_extension = Raise e
                   -> e = ValueError ("Unsupported file format: " +++ ext))
     /\ (ext = ".pdf" ->
         CVParser.extract_text L file_path file_extension
         = Return (first_to_give [pdfplumber_strategy L file_path;
                                  pypdf2_strategy L file_path;
                                  pdfminer_strategy L file_path] []))
     /\ (ext = ".docx" ->
         CVParser.extract_text L file_path file_extension
         = Return (docx_text L file_path))
     /\ (forall text,
           pdfplumber_strategy L file_path [] = Failed text ->
           CVParser.extract_text_from_pdf L file_path
           = Return (first_to_give [pypdf2_strategy L file_path;
                                    pdfminer_strategy L file_path] text))
     /\ (forall text text',
           pdfplumber_strategy L file_path [] = Failed text ->
           pypdf2_strategy L file_path text = Failed text' ->
           CVParser.extract_text_from_pdf L file_path
           = Return (first_to_give [pdfminer_strategy L file_path] text'))
     /\ (forall text text' text'',
           pdfplumber_strategy L file_path [] = Failed text ->
           pypdf2_strategy L file_path text = Failed text' ->
           pdfminer_strategy L file_path text' = Failed text'' ->
           CVParser.extract_text_from_pdf L file_path = Return text'')
     /\ (fails_at_once (PDFPLUMBER_AVAILABLE L)
                       (pdfplumber_open L file_path)
         -> fails_at_once (PYPDF2_AVAILABLE L) (PyPDF2_PdfReader L file_path)
         -> fails_at_once (PDFMINER_AVAILABLE L)
                          (pdfminer_extract L file_path)
         -> CVParser.extract_text_from_pdf L file_path = Return [])
     /\ (fails_at_once (DOCX_AVAILABLE L) (docx_Document L file_path)
         -> CVParser.extract_text_from_docx L file_path = Return []).
Proof.
split; [eexists; vm_compute; reflexivity|].
split; [eexists; vm_compute; reflexivity|].
intros L Hout file_path file_extension.
exact (extract_text_on_good_stdout Hout file_path file_extension).
Qed.

(** pdfplumber reads one page and raises on the next: PyPDF2 is tried,
    and its pages come after the page that pdfplumber had read. *)
Lemma extract_text_raises_in_print_witness :
  let L := two_readers
             [Return (Some (of_string "page one"));
              Raise (LibraryError "page");
              Return (Some (of_string "page three"))]
             [Return (Some (of_string "page one"));
              Return (Some (of_string "page two"))] in
  accepts_all L
  /\ pdfplumber_strategy L "cv.pdf" [] = Failed ("page one" +++ nl)
  /\ CVParser.extract_text L "cv.pdf" ".PDF"
     = Return ("page one" +++ nl +++ "page one" +++ nl
               +++ "page two" +++ nl).
Proof.
intros L.
assert (Hout : accepts_all L) by (intros l; reflexivity).
split; [exact Hout|].
assert (H1 : pdfplumber_strategy L "cv.pdf" [] = Failed ("page one" +++ nl))
  by (vm_compute; reflexivity).
split; [exact H1|].
destruct extract_text_raises_in_print as (_ & _ & H).
destruct (H L Hout (of_string "cv.pdf") (of_string ".PDF"))
  as (_ & _ & Hpdf & _ & Hnext & _).
rewrite Hpdf by reflexivity.
vm_compute. reflexivity.
Defined.

(** ** categorize_candidate *)

Section Categorize.
Import CVAnalyzer.

Lemma first_rule_split (rules : list rule) (skills : list str)
  (e : pyfloat) (n : str) :
  first_rule rules skills e = Some n ->
  exists pre r post,
    rules = pre ++ r :: post /\
    forallb (fun r' => negb (condition r' skills e)) pre = true /\
    condition r skills e = true /\ name r = n.
Proof.
  induction rules as [|r0 rules IH]; simpl; [discriminate|].
  destruct (condition r0 skills e) eqn:Hc.
  - intros [= <-]. exists [], r0, rules. auto.
  - intros H. destruct (IH H) as (pre & r & post & -> & Hpre & Hr & Hn).
    exists (r0 :: pre), r, post. simpl. rewrite Hc. auto.
Qed.

Lemma first_rule_wins (pre post : list rule) (r : rule)
  (skills : list str) (e : pyfloat) :
  forallb (fun r' => negb (condition r' skills e)) pre = true ->
  condition r skills e = true ->
  first_rule (pre ++ r :: post) skills e = Some (name r).
Proof.
  induction pre as [|r0 pre IH]; simpl.
  - intros _ ->. reflexivity.
  - intros H Hr. apply andb_prop in H as [H0 H].
    apply negb_true_iff in H0. rewrite H0. auto.
Qed.

Lemma first_rule_none (rules : list rule) (skills : list str)
  (e : pyfloat) :
  first_rule rules skills e = None <->
  forall r, In r rules -> condition r skills e = false.
Proof.
  induction rules as [|r0 rules IH]; simpl.
  - split; [intros _ r []|reflexivity].
  - destruct (condition r0 skills e) eqn:Hc.
    + split; [discriminate|]. intros H.
      specialize (H r0 (or_introl eq_refl)). congruence.
    + rewrite IH. split.
      * intros H r [<-|Hin]; auto.
      * intros H r Hin. auto.
Qed.

Lemma rule_names_nonempty :
  forallb (fun r => nonempty (name r)) category_rules = true.
Proof. reflexivity. Qed.

Lemma default_category_nonempty (e : pyfloat) :
  nonempty (default_category e) = true.
Proof.
  unfold default_category.
  destruct (eq_num e 0), (lt e 2), (lt e 5); reflexivity.
Qed.

(** C3.  [categorize_candidate] walks its fixed rule list in order and
    returns the name of the first rule whose predicate holds; so
    skills {python, django} give "Senior Python Developer" at 6 years
    and "Python Developer" at 2 years, and skills {excel, sql} at 0
    years give "Data Analyst", not the experience-only "Fresher". *)
Theorem categorize_candidate_first_rule_wins :
  (forall (pre post : list rule) (r : rule) (skills : list str)
          (e : pyfloat),
      category_rules = pre ++ r :: post ->
      (forall r', In r' pre -> condition r' skills e = false) ->
      condition r skills e = true ->
      categorize_candidate skills e = name r)
  /\ categorize_candidate (map of_string ["python"; "django"]) (Finite 6)
     = "Senior Python Developer"
  /\ categorize_candidate (map of_string ["python"; "django"]) (Finite 2)
     = "Python Developer"
  /\ categorize_candidate (map of_string ["excel"; "sql"]) (Finite 0)
     = "Data Analyst"
  /\ default_category (Finite 0) = "Fresher".
Proof.
  split; [|repeat split; reflexivity].
  intros pre post r skills e Hrules Hpre Hr.
  unfold categorize_candidate. rewrite Hrules.
  rewrite first_rule_wins; auto.
  apply forallb_forall. intros r' Hin. rewrite (Hpre r' Hin). reflexivity.
Qed.

Lemma categorize_candidate_first_rule_wins_witness :
  categorize_candidate (map of_string ["excel"; "sql"]) (Finite 0)
  = "Data Analyst".
Proof.
  apply (proj1 categorize_candidate_first_rule_wins
           (firstn 3 category_rules) (skipn 4 category_rules)
           (Rule "Data Analyst"
              (fun s e => (has s "excel" && has s "sql")
                          || has s "data_analysis"))).
  - reflexivity.
  - intros r' [<-|[<-|[<-|[]]]]; reflexivity.
  - reflexivity.
Defined.

(** C4.  [categorize_candidate] is total: for every skills list and every
    experience of at least 0 it returns a non-empty category; when no
    rule predicate holds the category is "Fresher" at 0, "Junior
    Developer" below 2, "Mid-Level Developer" below 5, and "Senior
    Professional" otherwise. *)
Theorem categorize_candidate_total (skills : list str) (e : pyfloat)
  (Hnonneg : ge e 0 = true) :
  categorize_candidate skills e <> [] /\
  ((forall r, In r category_rules -> condition r skills e = false) ->
   match e with
   | Finite q =>
       (q == 0 -> categorize_candidate skills e = "Fresher")%Q /\
       (0 < q /\ q < 2 ->
        categorize_candidate skills e = "Junior Developer")%Q /\
       (2 <= q /\ q < 5 ->
        categorize_candidate skills e = "Mid-Level Developer")%Q /\
       (5 <= q ->
        categorize_candidate skills e = "Senior Professional")%Q
   | _ => categorize_candidate skills e = "Senior Professional"
   end).
Proof.
  split.
  - unfold categorize_candidate.
    destruct (first_rule category_rules skills e) as [n|] eqn:Hf.
    + apply first_rule_split in Hf as (pre & r & post & Hrules & _ & _ & <-).
      pose proof rule_names_nonempty as Hne.
      rewrite forallb_forall in Hne.
      specialize (Hne r). rewrite Hrules in Hne.
      destruct (name r); [|discriminate].
      discriminate Hne. apply in_elt.
    + pose proof (default_category_nonempty e) as Hne.
      destruct (default_category e); [discriminate Hne|discriminate].
  - intros Hnone. apply first_rule_none in Hnone.
    unfold categorize_candidate. rewrite Hnone. clear Hnone.
    unfold default_category.
    destruct e as [q| | |]; try discriminate Hnonneg; [|reflexivity].
    cbn [eq_num lt ge] in *.
    change (inject_Z 0) with 0%Q in *.
    change (inject_Z 2) with 2%Q. change (inject_Z 5) with 5%Q.
    apply Qle_bool_iff in Hnonneg.
    assert (Hzero : (0 < q)%Q -> Qeq_bool q 0 = false).
    { intros Hpos. destruct (Qeq_bool q 0) eqn:E0; [|reflexivity].
      apply Qeq_bool_iff in E0. rewrite E0 in Hpos.
      exfalso. revert Hpos. apply Qlt_irrefl. }
    assert (Hle : forall k : Q, (k <= q)%Q -> Qle_bool k q = true)
      by (intros k; apply Qle_bool_iff).
    assert (Hlt : forall k : Q, (q < k)%Q -> Qle_bool k q = false).
    { intros k Hk. destruct (Qle_bool k q) eqn:E; [|reflexivity].
      apply Qle_bool_iff in E. exfalso.
      apply (Qlt_irrefl q). eapply Qlt_le_trans; eauto. }
    repeat split.
    + intros Hq. apply Qeq_bool_iff in Hq. rewrite Hq. reflexivity.
    + intros [H0 H2]. rewrite (Hzero H0), (Hlt _ H2). reflexivity.
    + intros [H2 H5].
      rewrite Hzero, (Hle _ H2), (Hlt _ H5); [reflexivity|].
      eapply Qlt_le_trans; [|exact H2]. reflexivity.
    + intros H5.
      rewrite Hzero, (Hle 2%Q), (Hle _ H5); [reflexivity| |].
      * eapply Qle_trans; [|exact H5]. discriminate.
      * eapply Qlt_le_trans; [|exact H5]. reflexivity.
Qed.

Lemma categorize_candidate_total_witness :
  categorize_candidate [] (Finite 10) <> [] /\
  categorize_candidate [] (Finite 10) = "Senior Professional".
Proof.
  destruct (categorize_candidate_total [] (Finite 10) eq_refl) as [H1 H2].
  split; [exact H1|].
  apply H2.
  - intros r Hin. simpl in Hin.
    repeat (destruct Hin as [<-|Hin]; [reflexivity|]). destruct Hin.
  - discriminate.
Defined.
End Categorize.

(** ** extract_skills feeding categorize_candidate *)

Section SkillsThenCategory.
Import CVAnalyzer.

Lemma check_variations_keys (hit : str -> bool) (skill : str)
  (variations found : list str) :
  In skill keys -> incl found keys ->
  incl (check_variations hit skill variations found) keys.
Proof.
  intros Hk Hf. induction variations as [|v tl IH]; simpl; [exact Hf|].
  destruct (hit v); [|exact IH].
  destruct (mem skill found); [exact Hf|].
  apply incl_app; [exact Hf|]. intros x [<-|[]]. exact Hk.
Qed.

Lemma check_skills_keys (hit : str -> bool) (found : list str) :
  incl found keys -> incl (check_skills hit found) keys.
Proof.
  unfold check_skills, keys.
  generalize (incl_refl SKILL_KEYWORDS).
  generalize SKILL_KEYWORDS at 1 4 as table.
  intros table. revert found.
  induction table as [|kv table IH]; intros found Hsub Hf; simpl;
    [exact Hf|].
  apply IH.
  - intros x Hx. apply Hsub. right. exact Hx.
  - apply check_variations_keys; [|exact Hf].
    apply in_map. apply Hsub. left. reflexivity.
Qed.

(** [extract_skills] only ever reports keys of [SKILL_KEYWORDS]. *)
Lemma extract_skills_keys (text : str) : incl (extract_skills text) keys.
Proof.
  unfold extract_skills.
  set (first := check_skills _ []).
  assert (Hfirst : incl first keys)
    by (apply check_skills_keys; intros x []).
  clearbody first. revert first Hfirst.
  induction skill_contexts as [|pat pats IH]; intros found Hf; simpl;
    [exact Hf|].
  apply IH.
  destruct (re_search section_flags (re pat) (lower text));
    [apply check_skills_keys|]; exact Hf.
Qed.

Lemma has_not_key (s : list str) (x : string) :
  incl s keys -> mem x keys = false -> has s x = false.
Proof.
  intros Hs Hx. unfold has.
  destruct (mem x s) eqn:E; [|reflexivity].
  apply mem_In in E. apply Hs in E. apply mem_In in E. congruence.
Qed.

Lemma categorize_keys_reachable (s : list str) (e : pyfloat) :
  incl s keys -> mem (categorize_candidate s e) reachable_names = true.
Proof.
  intros Hs.
  unfold categorize_candidate, default_category, category_rules,
    senior_python_developer, python_developer, data_scientist, data_analyst,
    senior_java_developer, java_developer, web_developer,
    full_stack_developer, ml_engineer, cloud_engineer, devops_engineer.
  cbn [first_rule condition name].
  rewrite (has_not_key "django" Hs), (has_not_key "flask" Hs),
          (has_not_key "html" Hs), (has_not_key "r" Hs)
    by reflexivity.
  rewrite !orb_false_r, !andb_false_r. cbn [andb orb].
  generalize (has s "python") (has s "ml") (has s "excel") (has s "sql")
             (has s "data_analysis") (has s "java")
             (has s "web_development") (has s "javascript")
             (has s "cloud") (has s "devops")
             (ge e 5) (ge e 2) (ge e 1) (eq_num e 0) (lt e 2) (lt e 5).
  intros py ml ex sq da jv wd js cl dv g5 g2 g1 z l2 l5.
  repeat first
    [ reflexivity
    | match goal with
      | |- context [match (if ?c then _ else _) with
                    | Some _ => _
                    | None => _
                    end] => split_head c
      | |- context [if ?b then _ else _] => is_var b; destruct b
      end; cbn [andb orb] ].
Qed.

(** On a list of keys the predicates of rules 1 and 2 never hold, and
    rule 8's predicate implies rule 7's. *)
Lemma rules_on_keys (s : list str) (e : pyfloat) :
  incl s keys ->
  condition senior_python_developer s e = false
  /\ condition python_developer s e = false
  /\ (condition full_stack_developer s e = true ->
      condition web_developer s e = true).
Proof.
intros Hs.
unfold senior_python_developer, python_developer, full_stack_developer,
  web_developer.
cbn [condition].
rewrite (has_not_key "django" Hs), (has_not_key "flask" Hs),
        (has_not_key "html" Hs)
  by reflexivity.
rewrite !orb_false_r, !andb_false_r.
split; [reflexivity|]. split; [reflexivity|].
destruct (has s "web_development"); [reflexivity|].
rewrite andb_false_r. discriminate.
Qed.

(** C10.  Whatever the text and the experience value, the category of
    the skills that [extract_skills] reports is never "Senior Python
    Developer", "Python Developer" or "Full Stack Developer":
    [extract_skills] reports keys of [SKILL_KEYWORDS] only, and "django",
    "flask" and "html" are variations, not keys. *)
Theorem extracted_skills_never_reach_rules_1_2_8 (text : str)
  (e : pyfloat) :
  incl (extract_skills text) keys
  /\ mem "django" keys = false /\ mem "flask" keys = false
  /\ mem "html" keys = false
  /\ categorize_candidate (extract_skills text) e
     <> "Senior Python Developer"
  /\ categorize_candidate (extract_skills text) e <> "Python Developer"
  /\ categorize_candidate (extract_skills text) e
     <> "Full Stack Developer".
Proof.
  pose proof (extract_skills_keys text) as Hk.
  pose proof (categorize_keys_reachable e Hk) as Hr.
  repeat split; try exact Hk;
    intros Heq; rewrite Heq in Hr; discriminate Hr.
Qed.
End SkillsThenCategory.

(** ** extract_skills *)

(** C2, as the code has it.  "I know Java and JavaScript" gives java and
    javascript.  But the pass over a skills section tests the variations
    with [in]: in "skills: javascripting" followed by a blank line no
    variation at all occurs as a whole word, and yet java and javascript
    are reported. *)
Theorem extract_skills_section_matches_substrings :
  CVAnalyzer.extract_skills "I know Java and JavaScript"
  = map of_string ["java"; "javascript"]
  /\ forallb (fun kv =>
               forallb (fun variation =>
                          negb (found_as_word variation
                                              skills_section_javascripting))
                       (snd kv))
             CVAnalyzer.SKILL_KEYWORDS = true
  /\ CVAnalyzer.extract_skills skills_section_javascripting
     = map of_string ["java"; "javascript"].
Proof. split; [|split]; vm_compute; reflexivity. Qed.

(** ** Floats *)

Section Floats.
Import CVAnalyzer.

Lemma iter_pos_keeps {A} (P : A -> Prop) (f : A -> A) :
  (forall x, P x -> P (f x)) ->
  forall n x, P x -> P (iter_pos f n x).
Proof.
intros Hf. induction n as [n IH|n IH|]; intros x Hx; cbn [iter_pos]; auto.
Qed.

Lemma shr_1_nonneg (mrs : shr_record) :
  (0 <= shr_m mrs)%Z -> (0 <= shr_m (shr_1 mrs))%Z.
Proof.
destruct mrs as [m r s]. cbn [shr_m shr_1].
destruct m as [|[p|p|]|[p|p|]]; cbn [shr_m]; lia.
Qed.

Lemma shr_nonneg (mrs : shr_record) (e n : Z) :
  (0 <= shr_m mrs)%Z -> (0 <= shr_m (fst (shr mrs e n)))%Z.
Proof.
intros H. unfold shr. destruct n as [|p|p]; cbn [fst]; auto.
apply iter_pos_keeps; [exact shr_1_nonneg|exact H].
Qed.

Lemma shr_fexp_nonneg (prec emax m e : Z) (l : location) :
  (0 <= m)%Z -> (0 <= shr_m (fst (shr_fexp prec emax m e l)))%Z.
Proof.
intros H. unfold shr_fexp. apply shr_nonneg.
destruct l as [|[| |]]; exact H.
Qed.

Lemma round_nearest_even_nonneg (m : Z) (l : location) :
  (0 <= m)%Z -> (0 <= round_nearest_even m l)%Z.
Proof.
intros H. destruct l as [|[| |]]; cbn [round_nearest_even]; try lia.
destruct (Z.even m); lia.
Qed.

(** Rounding a magnitude keeps the sign and never gives not-a-number. *)
Lemma binary_round_aux_sign (prec emax : Z) (sx : bool) (mx ex : Z)
  (lx : location) :
  (0 <= mx)%Z ->
  match binary_round_aux prec emax sx mx ex lx with
  | S754_zero s | S754_infinity s | S754_finite s _ _ => s = sx
  | S754_nan => False
  end.
Proof.
intros H. unfold binary_round_aux.
pose proof (shr_fexp_nonneg prec emax ex lx H) as H1.
destruct (shr_fexp prec emax mx ex lx) as [mrs' e']. cbn [fst] in H1.
pose proof (shr_fexp_nonneg prec emax e' loc_Exact
              (round_nearest_even_nonneg (loc_of_shr_record mrs') H1)) as H2.
destruct (shr_fexp prec emax
            (round_nearest_even (shr_m mrs') (loc_of_shr_record mrs')) e'
            loc_Exact) as [mrs'' e'']. cbn [fst] in H2.
destruct (shr_m mrs'') as [|m|m]; [reflexivity| |lia].
destruct (e'' <=? emax - prec)%Z; reflexivity.
Qed.

Lemma nonneg_round (prec emax : Z) (mx ex : Z) (lx : location) :
  (0 <= mx)%Z ->
  nonneg_float (binary_round_aux prec emax false mx ex lx) = true.
Proof.
intros H. pose proof (binary_round_aux_sign prec emax false ex lx H) as Hs.
destruct (binary_round_aux prec emax false mx ex lx);
  cbn [nonneg_float]; [reflexivity|subst; reflexivity|contradiction|
                       subst; reflexivity].
Qed.

Lemma nonneg_of_Z (n : Z) : (0 <= n)%Z -> nonneg_float (Float.of_Z n) = true.
Proof.
intros H. unfold Float.of_Z, binary_normalize.
destruct n as [|p|p]; [reflexivity| |lia].
unfold binary_round.
destruct (shl_align p 0 _) as [mz ez]. apply nonneg_round. lia.
Qed.

Lemma nonneg_add (x y : spec_float) :
  nonneg_float x = true -> nonneg_float y = true ->
  nonneg_float (Float.add x y) = true.
Proof.
unfold Float.add, SFadd.
destruct x as [sx|sx| |sx mx ex], y as [sy|sy| |sy my ey];
  cbn [nonneg_float]; intros Hx Hy; try discriminate;
  try (apply negb_true_iff in Hx; subst sx);
  try (apply negb_true_iff in Hy; subst sy); try reflexivity.
- destruct sx, sy; reflexivity.
- cbn [cond_Zopp]. cbn [Z.add]. unfold binary_normalize, binary_round.
  destruct (shl_align _ _ _) as [mz ez]. apply nonneg_round. lia.
Qed.

Lemma nonneg_div (x : spec_float) (my : positive) (ey : Z) :
  nonneg_float x = true ->
  nonneg_float (Float.div x (S754_finite false my ey)) = true.
Proof.
unfold Float.div, SFdiv.
destruct x as [sx|sx| |sx mx ex]; cbn [nonneg_float]; intros Hx;
  try discriminate; try (apply negb_true_iff in Hx; subst sx);
  try reflexivity.
cbn [xorb]. unfold SFdiv_core_binary.
set (m' := match (ex - ey - _)%Z with
           | Zpos _ => _
           | Z0 => _
           | Zneg _ => _
           end).
assert (Hm : (0 <= m')%Z).
{ unfold m'. destruct (ex - ey - _)%Z; [lia| |lia].
  apply Z.shiftl_nonneg. lia. }
pose proof (Z.div_pos m' (Zpos my) Hm ltac:(lia)) as Hq.
unfold Z.div in Hq. destruct (Z.div_eucl m' (Zpos my)) as [q r].
apply nonneg_round. exact Hq.
Qed.

Lemma value_nonneg (x : spec_float) :
  nonneg_float x = true -> ge (value x) 0 = true.
Proof.
destruct x as [s|s| |s m e]; cbn [nonneg_float value ge]; intros H;
  try discriminate; try (apply negb_true_iff in H; subst s);
  try reflexivity.
apply Qle_bool_iff. rewrite Qred_correct.
apply Qmult_le_0_compat; [unfold Qle; cbn; lia|].
apply Qpower_0_le. discriminate.
Qed.

End Floats.

Section Exact.
Import CVAnalyzer.
Open Scope Z_scope.

Lemma iter_pos_nat {A} (f : A -> A) (p : positive) :
  forall x, iter_pos f p x = Nat.iter (Pos.to_nat p) f x.
Proof.
induction p as [p IH|p IH|]; intros x; cbn [iter_pos].
- rewrite !IH, Pos2Nat.inj_xI, Nat.iter_succ_r.
  replace (2 * Pos.to_nat p)%nat with (Pos.to_nat p + Pos.to_nat p)%nat
    by lia.
  rewrite Nat.iter_add. reflexivity.
- rewrite !IH, Pos2Nat.inj_xO.
  replace (2 * Pos.to_nat p)%nat with (Pos.to_nat p + Pos.to_nat p)%nat
    by lia.
  rewrite Nat.iter_add. reflexivity.
- reflexivity.
Qed.

Lemma Pos_iter_shl (x p : positive) : Pos.iter xO x p = shl x (Pos.to_nat p).
Proof. unfold shl. apply Pos2Nat.inj_iter. Qed.

Lemma shl_succ (x : positive) (n : nat) : shl x (S n) = xO (shl x n).
Proof. reflexivity. Qed.

Lemma shl_Z (x : positive) (n : nat) :
  Zpos (shl x n) = Zpos x * 2 ^ Z.of_nat n.
Proof.
induction n as [|n IH]; [cbn; lia|].
rewrite shl_succ, Pos2Z.inj_xO, IH.
rewrite Nat2Z.inj_succ, Z.pow_succ_r by lia. lia.
Qed.

Lemma shl_shl (x : positive) (a b : nat) : shl (shl x a) b = shl x (a + b).
Proof. unfold shl. rewrite Nat.add_comm. symmetry. apply Nat.iter_add. Qed.

Lemma digits_log2 (p : positive) :
  Zpos (digits2_pos p) = Z.succ (Z.log2 (Zpos p)).
Proof.
assert (H : forall q, digits2_pos q = Pos.size q)
  by (induction q as [q IH|q IH|]; cbn; congruence).
destruct p as [p|p|]; cbn [Z.log2 digits2_pos]; rewrite ?H; lia.
Qed.

Lemma digits_shl (x : positive) (n : nat) :
  Zpos (digits2_pos (shl x n)) = Zpos (digits2_pos x) + Z.of_nat n.
Proof.
induction n as [|n IH]; [cbn; lia|].
rewrite shl_succ. cbn [digits2_pos]. lia.
Qed.

Lemma shr_exact (x : positive) (n : nat) :
  Nat.iter n shr_1 (Build_shr_record (Zpos (shl x n)) false false)
  = Build_shr_record (Zpos x) false false.
Proof.
induction n as [|n IH]; [reflexivity|].
rewrite Nat.iter_succ_r, shl_succ. cbn [shr_1 orb]. exact IH.
Qed.

Lemma fexp_normal (e : Z) :
  -1074 <= e -> fexp Float.prec Float.emax (53 + e) = e.
Proof. unfold fexp, emin, Float.prec, Float.emax. lia. Qed.

(** Rounding a number that fits: the mantissa [x] of 53 bits with [n]
    zeros behind comes out as it is. *)
Lemma round_exact (s : bool) (x : positive) (n : nat) (e : Z) :
  Zpos (digits2_pos x) = 53 -> -1074 <= e <= 971 ->
  binary_round_aux Float.prec Float.emax s (Zpos (shl x n))
                   (e - Z.of_nat n) loc_Exact
  = S754_finite s x e.
Proof.
intros Hd He. unfold binary_round_aux.
assert (H1 : shr_fexp Float.prec Float.emax (Zpos (shl x n))
                      (e - Z.of_nat n) loc_Exact
             = (Build_shr_record (Zpos x) false false, e)).
{ unfold shr_fexp. cbn [Zdigits2 shr_record_of_loc].
  rewrite digits_shl, Hd.
  replace (53 + Z.of_nat n + (e - Z.of_nat n)) with (53 + e) by lia.
  rewrite fexp_normal by lia.
  replace (e - (e - Z.of_nat n)) with (Z.of_nat n) by lia.
  unfold shr. destruct n as [|n].
  - cbn [Z.of_nat]. f_equal. lia.
  - cbn [Z.of_nat]. rewrite iter_pos_nat, SuccNat2Pos.id_succ, shr_exact.
    f_equal. lia. }
rewrite H1. cbn [shr_m loc_of_shr_record round_nearest_even].
assert (H2 : shr_fexp Float.prec Float.emax (Zpos x) e loc_Exact
             = (Build_shr_record (Zpos x) false false, e)).
{ unfold shr_fexp. cbn [Zdigits2 shr_record_of_loc].
  rewrite Hd, fexp_normal by lia. rewrite Z.sub_diag. reflexivity. }
rewrite H2. cbn [shr_m].
replace (e <=? Float.emax - Float.prec) with true; [reflexivity|].
symmetry. apply Z.leb_le. unfold Float.emax, Float.prec. lia.
Qed.

Lemma shl_align_shl (m : positive) (e e' : Z) :
  e' <= e -> shl_align m e e' = (shl m (Z.to_nat (e - e')), e').
Proof.
intros H. unfold shl_align. destruct (e' - e) as [|d|d] eqn:E; [|lia|].
- replace e' with e by lia. rewrite Z.sub_diag. reflexivity.
- rewrite Pos_iter_shl. do 3 f_equal. lia.
Qed.


Lemma digits_pos (k : positive) : 1 <= Zpos (digits2_pos k).
Proof. lia. Qed.

Lemma digits_bound (k : positive) :
  Zpos k < 2 ^ 53 -> Zpos (digits2_pos k) <= 53.
Proof.
intros H. rewrite digits_log2.
apply Z.log2_lt_pow2 in H; lia.
Qed.


Lemma digits_mantissa (k : positive) :
  Zpos k < 2 ^ 53 -> Zpos (digits2_pos (mantissa k)) = 53.
Proof.
intros H. apply digits_bound in H. unfold mantissa, pad.
rewrite digits_shl. lia.
Qed.

Lemma fexp_small (d : Z) :
  1 <= d <= 53 -> fexp Float.prec Float.emax d = d - 53.
Proof. unfold fexp, emin, Float.prec, Float.emax. lia. Qed.

(** [float] of a positive integer below 2^53 is the integer itself. *)
Lemma of_Z_pos (k : positive) :
  Zpos k < 2 ^ 53 ->
  Float.of_Z (Zpos k)
  = S754_finite false (mantissa k) (Zpos (digits2_pos k) - 53).
Proof.
intros H. pose proof (@digits_bound k H) as Hd.
pose proof (digits_pos k) as Hd1.
unfold Float.of_Z, binary_normalize, binary_round.
rewrite Z.add_0_r, fexp_small by lia.
rewrite shl_align_shl by lia.
pose proof (@round_exact false (mantissa k) 0
              (Zpos (digits2_pos k) - 53) (@digits_mantissa k H)) as Hr.
cbn [Z.of_nat] in Hr. rewrite Z.sub_0_r in Hr.
change (shl (mantissa k) 0) with (mantissa k) in Hr.
unfold mantissa, pad in *.
replace (0 - (Zpos (digits2_pos k) - 53)) with (53 - Zpos (digits2_pos k))
  by lia.
apply Hr. lia.
Qed.

Lemma mantissa_Z (k : positive) :
  Zpos k < 2 ^ 53 ->
  Zpos (mantissa k) = Zpos k * 2 ^ (53 - Zpos (digits2_pos k)).
Proof.
intros H. apply digits_bound in H. unfold mantissa, pad.
rewrite shl_Z, Z2Nat.id by lia. reflexivity.
Qed.




Lemma Qpower_2_shift (a b : Z) :
  0 <= a -> (inject_Z (2 ^ a) * 2 ^ b == 2 ^ (a + b))%Q.
Proof.
intros Ha. rewrite Zpower_Qpower by exact Ha.
symmetry. apply Qpower_plus. discriminate.
Qed.


(** [float] of an integer below 2^53 has the integer as its value. *)
Lemma value_of_Z (n : Z) :
  0 <= n < 2 ^ 53 -> value (Float.of_Z n) = Finite (Qred (inject_Z n)).
Proof.
intros [Hn Hs]. destruct n as [|k|k]; [reflexivity| |lia].
rewrite of_Z_pos by exact Hs. cbn [value]. f_equal.
apply Qred_complete.
pose proof (@digits_bound _ Hs) as Hd.
rewrite mantissa_Z by exact Hs. rewrite inject_Z_mult.
rewrite <- Qmult_assoc, Qpower_2_shift by lia.
replace (53 - Zpos (digits2_pos k) + (Zpos (digits2_pos k) - 53)) with 0
  by lia.
unfold Qeq. cbn. lia.
Qed.

End Exact.

(** ** extract_experience *)

(** C9, as the code has it.  In the pass over the whole text a match of
    the months pattern contributes N / 12; in the pass over the summary
    section it contributes N itself: "summary: 24 months" followed by a
    blank line collects 24/12 = 2 and then 24, and the result is 24, not
    2. *)
Theorem extract_experience_summary_months_not_converted :
  (forall s, CVAnalyzer.candidate_of CVAnalyzer.months (FStr s)
             = option_map
                 (fun n => CVAnalyzer.value (Float.div n (Float.of_Z 12)))
                 (CVAnalyzer.float_ s))
  /\ (forall s, CVAnalyzer.summary_candidate_of (FStr s)
                = option_map CVAnalyzer.value (CVAnalyzer.float_ s))
  /\ CVAnalyzer.years_found summary_24_months
     = [CVAnalyzer.Finite 2; CVAnalyzer.Finite 24]
  /\ CVAnalyzer.extract_experience summary_24_months = CVAnalyzer.Finite 24
  /\ CVAnalyzer.extract_experience summary_24_months <> CVAnalyzer.Finite 2.
Proof.
  split; [|split; [|split; [|split]]].
  - intros s. unfold CVAnalyzer.candidate_of.
    destruct (CVAnalyzer.float_ s); reflexivity.
  - reflexivity.
  - vm_compute. reflexivity.
  - vm_compute. reflexivity.
  - vm_compute. discriminate.
Qed.

Section Experience.
Import CVAnalyzer.


Lemma lookup_group_In (i : nat) (g : list (nat * str)) (s : str) :
  lookup_group i g = Some s -> In (i, s) g.
Proof.
induction g as [|[j t] g IH]; cbn [lookup_group]; [discriminate|].
destruct (Nat.eqb i j) eqn:E.
- apply Nat.eqb_eq in E. subst. intros [= ->]. left. reflexivity.
- intros H. right. auto.
Qed.






Lemma append_candidate_app (acc : list pyfloat) (o : option pyfloat) :
  append_candidate acc o = acc ++ opt_list o.
Proof. destruct o; cbn; [reflexivity|]. symmetry. apply app_nil_r. Qed.

Lemma fold_left_app_each {A B} (g : A -> list B) (l : list A) :
  forall acc, fold_left (fun acc x => acc ++ g x) l acc
              = acc ++ flat_map g l.
Proof.
induction l as [|x l IH]; intros acc; cbn [fold_left flat_map].
- symmetry. apply app_nil_r.
- rewrite IH, app_assoc. reflexivity.
Qed.

Lemma fold_left_ext {A B} (f g : A -> B -> A) (l : list B) :
  (forall a b, f a b = g a b) ->
  forall acc, fold_left f l acc = fold_left g l acc.
Proof.
intros H. induction l as [|x l IH]; intros acc; cbn; [reflexivity|].
rewrite H. apply IH.
Qed.


Lemma scan_dates_app (t : str) (acc : list pyfloat) :
  scan_dates t acc = acc ++ scan_dates t [].
Proof.
unfold scan_dates.
set (g := fun pat : pattern =>
            let matches :=
              re_findall (Flags true false) (ngroups pat) (re pat) t in
            if 2 <=? length matches
            then [Finite (inject_Z (Z.of_nat (length matches * 2)))]
            else []).
assert (H : forall a pat,
           (let matches :=
              re_findall (Flags true false) (ngroups pat) (re pat) t in
            if 2 <=? length matches
            then a ++ [Finite (inject_Z (Z.of_nat (length matches * 2)))]
            else a) = a ++ g pat).
{ intros a pat. unfold g. cbv zeta.
  destruct (2 <=? _); [reflexivity|]. symmetry. apply app_nil_r. }
rewrite !(fold_left_ext _ (fun a pat => a ++ g pat) date_patterns H).
rewrite !fold_left_app_each. reflexivity.
Qed.

Lemma scan_summary_app (t : str) (acc : list pyfloat) :
  scan_summary t acc = acc ++ scan_summary t [].
Proof.
unfold scan_summary.
destruct (re_search section_flags (re summary_pattern) t) as [m|];
  [|symmetry; apply app_nil_r].
set (g := fun pat : pattern =>
            flat_map (fun m => opt_list (summary_candidate_of m))
              (re_findall no_flags (ngroups pat) (re pat)
                          (group_or_empty m 1))).
assert (H : forall a pat,
           fold_left
             (fun years_found match_val =>
                append_candidate years_found
                                 (summary_candidate_of match_val))
             (re_findall no_flags (ngroups pat) (re pat)
                         (group_or_empty m 1)) a
           = a ++ g pat).
{ intros a pat. unfold g.
  rewrite (fold_left_ext _
             (fun acc m => acc ++ opt_list (summary_candidate_of m))).
  - apply fold_left_app_each.
  - intros; apply append_candidate_app. }
rewrite !(fold_left_ext _ (fun a pat => a ++ g pat) EXPERIENCE_PATTERNS H).
rewrite !fold_left_app_each. reflexivity.
Qed.

Lemma years_found_passes (text : str) :
  years_found text
  = scan_text (lower text) [] ++ scan_dates (lower text) []
    ++ scan_summary (lower text) [].
Proof.
unfold years_found.
rewrite scan_summary_app, scan_dates_app, app_assoc. reflexivity.
Qed.



(** *** No candidate is negative *)

Lemma number_nonneg (s : str) : (0 <= number s)%Z.
Proof.
unfold number.
assert (H : forall n, (0 <= n)%Z ->
            (0 <= fold_left (fun n c => 10 * n + digit_value c) s n)%Z).
{ induction s as [|c tl IH]; intros n Hn; cbn [fold_left]; [exact Hn|].
  apply IH. unfold digit_value. lia. }
apply H. lia.
Qed.

Lemma float_nonneg (s : str) (x : spec_float) :
  float_ s = Some x -> nonneg_float x = true.
Proof.
unfold float_. destruct (nonempty s && forallb is_digit s); [|discriminate].
intros [= <-]. apply nonneg_of_Z, number_nonneg.
Qed.

Lemma candidate_of_nonneg (pat : pattern) (m : found) (q : pyfloat) :
  candidate_of pat m = Some q -> ge q 0 = true.
Proof.
unfold candidate_of. destruct m as [s|l].
- destruct (float_ s) as [y|] eqn:Ey; [|discriminate].
  apply float_nonneg in Ey.
  destruct (str_in "months" (src pat)); intros [= <-];
    apply value_nonneg; [|exact Ey].
  apply (@nonneg_div y 6755399441055744 (-49)%Z). exact Ey.
- destruct (float_ (nth 0 l [])) as [a|] eqn:Ea; [|discriminate].
  apply float_nonneg in Ea.
  destruct (if 1 <? length l then float_ (nth 1 l []) else Some a)
    as [b|] eqn:Eb; [|discriminate].
  intros [= <-].
  assert (Hb : nonneg_float b = true).
  { destruct (1 <? length l); [eapply float_nonneg; exact Eb|].
    injection Eb as <-. exact Ea. }
  apply value_nonneg.
  apply (@nonneg_div (Float.add a b) 4503599627370496 (-51)%Z).
  apply nonneg_add; assumption.
Qed.

Lemma summary_candidate_of_nonneg (m : found) (q : pyfloat) :
  summary_candidate_of m = Some q -> ge q 0 = true.
Proof.
destruct m as [s|l]; cbn [summary_candidate_of].
- destruct (float_ s) as [y|] eqn:Ey; [|discriminate].
  intros [= <-]. apply value_nonneg. eapply float_nonneg; eauto.
- destruct (float_ (nth 0 l [])) as [y|] eqn:Ey; [|discriminate].
  intros [= <-]. apply value_nonneg. eapply float_nonneg; eauto.
Qed.

Lemma fold_left_keeps {A B} (I : A -> Prop) (f : A -> B -> A)
  (Hf : forall a b, I a -> I (f a b)) (l : list B) :
  forall a, I a -> I (fold_left f l a).
Proof.
induction l as [|b l IH]; intros a Ha; cbn [fold_left]; auto.
Qed.

Lemma append_candidate_nonneg (acc : list pyfloat) (o : option pyfloat) :
  nonneg acc -> (forall q, o = Some q -> ge q 0 = true) ->
  nonneg (append_candidate acc o).
Proof.
intros Hacc Ho. destruct o as [q|]; cbn [append_candidate]; [|exact Hacc].
apply Forall_app. split; [exact Hacc|]. constructor; [auto|constructor].
Qed.

Lemma years_found_nonneg (text : str) : nonneg (years_found text).
Proof.
unfold years_found, scan_summary, scan_dates, scan_text.
set (t := lower text).
assert (H1 : nonneg
               (fold_left
                  (fun years_found pat =>
                     fold_left
                       (fun years_found m =>
                          append_candidate years_found (candidate_of pat m))
                       (re_findall no_flags (ngroups pat) (re pat) t)
                       years_found)
                  EXPERIENCE_PATTERNS [])).
{ apply fold_left_keeps; [|constructor]. intros a pat Ha.
  apply fold_left_keeps; [|exact Ha]. intros a' m Ha'.
  apply append_candidate_nonneg; [exact Ha'|].
  intros q. apply candidate_of_nonneg. }
set (l1 := fold_left _ EXPERIENCE_PATTERNS []) in *. clearbody l1.
assert (H2 : nonneg
               (fold_left
                  (fun years_found pat =>
                     let matches :=
                       re_findall (Flags true false) (ngroups pat) (re pat)
                                  t in
                     if 2 <=? length matches
                     then years_found
                          ++ [Finite
                                (inject_Z (Z.of_nat (length matches * 2)))]
                     else years_found)
                  date_patterns l1)).
{ apply fold_left_keeps; [|exact H1]. intros a pat Ha. cbv zeta.
  destruct (2 <=? _); [|exact Ha].
  apply Forall_app. split; [exact Ha|]. constructor; [|constructor].
  cbn [ge]. apply Qle_bool_iff. rewrite <- Zle_Qle. lia. }
set (l2 := fold_left _ date_patterns l1) in *. clearbody l2.
destruct (re_search section_flags (re summary_pattern) t) as [m|];
  [|exact H2].
apply fold_left_keeps; [|exact H2]. intros a pat Ha.
apply fold_left_keeps; [|exact Ha]. intros a' mv Ha'.
apply append_candidate_nonneg; [exact Ha'|].
intros q. apply summary_candidate_of_nonneg.
Qed.

(** *** The greatest candidate *)

Lemma leq_refl (x : pyfloat) : ge x 0 = true -> leq x x = true.
Proof.
destruct x as [a| | |]; cbn; try discriminate; [|reflexivity].
intros _. apply Qle_bool_iff, Qle_refl.
Qed.

Lemma leq_trans (x y z : pyfloat) :
  leq x y = true -> leq y z = true -> leq x z = true.
Proof.
destruct x as [a| | |], y as [b| | |], z as [c| | |]; cbn;
  try discriminate; try reflexivity.
rewrite !Qle_bool_iff. apply Qle_trans.
Qed.

Lemma not_greater_leq (x y : pyfloat) :
  ge x 0 = true -> ge y 0 = true -> greater x y = false -> leq x y = true.
Proof.
destruct x as [a| | |], y as [b| | |]; cbn; try discriminate;
  try reflexivity.
intros _ _ H. apply negb_false_iff. exact H.
Qed.

Lemma greater_leq (x y : pyfloat) :
  ge x 0 = true -> ge y 0 = true -> greater x y = true -> leq y x = true.
Proof.
destruct x as [a| | |], y as [b| | |]; cbn; try discriminate;
  try reflexivity.
intros _ _ H. apply negb_true_iff in H. apply Qle_bool_iff.
apply Qlt_le_weak, Qnot_le_lt. intros Hle.
apply Qle_bool_iff in Hle. congruence.
Qed.

Lemma py_max_greatest (others : list pyfloat) :
  forall first,
    nonneg (first :: others) ->
    In (py_max first others) (first :: others)
    /\ forall y, In y (first :: others) ->
                 leq y (py_max first others) = true.
Proof.
induction others as [|x tl IH]; intros first Hall; unfold py_max;
  cbn [fold_left].
- apply Forall_inv in Hall.
  split; [left; reflexivity|]. intros y [<-|[]]. apply leq_refl, Hall.
- set (b := if greater x first then x else first).
  inversion Hall as [|? ? Hf Htl]; subst.
  inversion Htl as [|? ? Hx Htl']; subst.
  assert (Hb : leq first b = true /\ leq x b = true
               /\ (b = first \/ b = x) /\ ge b 0 = true).
  { unfold b. destruct (greater x first) eqn:E.
    - repeat split; auto using greater_leq, leq_refl.
    - repeat split; auto using not_greater_leq, leq_refl. }
  destruct Hb as (Hfb & Hxb & Hbb & Hb0).
  destruct (IH b) as [Hin Hle]; [constructor; assumption|].
  fold (py_max b tl).
  assert (Hbm : leq b (py_max b tl) = true) by (apply Hle; left; reflexivity).
  split.
  + destruct Hin as [Heq|Hin].
    * rewrite <- Heq. destruct Hbb as [->| ->]; [left|right; left];
        reflexivity.
    * right. right. exact Hin.
  + intros y [<-|[<-|Hy]].
    * eapply leq_trans; eauto.
    * eapply leq_trans; eauto.
    * apply Hle. right. exact Hy.
Qed.


End Experience.


(** ** The pipeline *)

(** C1, as the code has it.  The DOCX with the paragraphs "John Smith",
    "john@x.com" and "5 years experience with Python and Django" comes
    out of [extract_text] as three lines, and in these [extract_name]
    finds "John Smith".  But [process_cv] cleans the text first, which
    makes one line of it, 63 characters with a digit among them, and in
    that no name is found: the candidate keeps the name it had, "cv"
    from the upload of cv.docx (and the stem "cvs/cv" of the stored file
    when it had that, and no name when it had none).  The skills are
    python alone, for django is a variation that [extract_skills]
    reports as python, and so rule 1, which asks for python together
    with django or flask, cannot hold: the category is "Senior
    Professional", where the skills python and django would give
    "Senior Python Developer". *)
Theorem process_cv_john_smith :
  let raw := "John Smith" +++ nl +++ "john@x.com" +++ nl
             +++ "5 years experience with Python and Django" +++ nl in
  let cv_text := CVParser.clean_extracted_text raw in
  let L := docx_only john_smith_docx in
  let cv_file := Some (of_string "media/cvs/cv.docx",
                       of_string "cvs/cv.docx") in
  let saved (name : str) :=
    Return (To_candidate_detail
              {| name := name; email := "john@x.com"; phone := [];
                 raw_text := cv_text; skills := "python";
                 experience_years := CVAnalyzer.Finite 5;
                 education := [];
                 category := Some (of_string "Senior Professional");
                 is_processed := true |}) in
  CVParser.extract_text L "media/cvs/cv.docx" ".docx" = Return raw
  /\ CVAnalyzer.extract_name raw = "John Smith"
  /\ cv_text
     = "John Smith john@x.com 5 years experience with Python and Django"
  /\ CVAnalyzer.extract_name cv_text = []
  /\ CVAnalyzer.extract_email cv_text = "john@x.com"
  /\ CVAnalyzer.extract_skills cv_text = map of_string ["python"]
  /\ CVAnalyzer.extract_experience cv_text = CVAnalyzer.Finite 5
  /\ CVAnalyzer.categorize_candidate (map of_string ["python"])
                                     (CVAnalyzer.Finite 5)
     = "Senior Professional"
  /\ CVAnalyzer.categorize_candidate (map of_string ["python"; "django"])
                                     (CVAnalyzer.Finite 5)
     = "Senior Python Developer"
  /\ upload_cv [] (Some (UploadedFile "cv.docx" 20480))
     = Saved (uploaded "cv")
  /\ process_cv L 1 (uploaded "cv") cv_file = saved "cv"
  /\ process_cv L 1 (uploaded "cvs/cv") cv_file = saved "cvs/cv"
  /\ process_cv L 1 (uploaded []) cv_file = saved [].
Proof.
  cbv zeta.
  repeat match goal with |- _ /\ _ => split end; vm_compute; reflexivity.
Qed.

(** * More of the program *)

(** ** What a match takes from the text *)

Lemma In_firstn {A} (n : nat) (l : list A) (x : A) :
  In x (firstn n l) -> In x l.
Proof.
intros H. rewrite <- (firstn_skipn n l). apply in_or_app. left. exact H.
Qed.

Lemma forallb_same {A} (f g : A -> bool) (l : list A) :
  (forall x, f x = g x) -> forallb f l = forallb g l.
Proof.
intros H. induction l as [|x l IH]; cbn [forallb]; [reflexivity|].
rewrite H, IH. reflexivity.
Qed.

Lemma In_skipn {A} (n : nat) (l : list A) (x : A) :
  In x (skipn n l) -> In x l.
Proof.
intros H. rewrite <- (firstn_skipn n l). apply in_or_app. right. exact H.
Qed.

Lemma all_chars_complete (c : ascii) : In c all_chars.
Proof.
unfold all_chars. apply in_map_iff. exists (nat_of_ascii c).
split; [apply ascii_nat_embedding|].
apply in_seq. pose proof (nat_ascii_bounded c). lia.
Qed.

Lemma forall_chars (P : ascii -> bool) :
  forallb P all_chars = true -> forall c, P c = true.
Proof.
intros H c. rewrite forallb_forall in H. apply H, all_chars_complete.
Qed.

Section Consumption.
Variable fl : flags.
Variable P : ascii -> bool.

Lemma iter_takes (R : mstate -> mstate -> Prop)
  (HR : forall a b, R a b -> exists w, rest a = w ++ rest b) (n : nat) :
  forall a b, iter R n a b -> exists w, rest a = w ++ rest b.
Proof.
induction n as [|n IH]; intros a b; cbn [iter].
- intros <-. exists []. reflexivity.
- intros (m & H1 & H2). apply HR in H1 as [w1 H1].
  apply IH in H2 as [w2 H2]. exists (w1 ++ w2).
  rewrite H1, H2, app_assoc. reflexivity.
Qed.

(** A match takes a piece off the front of the text, and in it a
    character with [P] when the expression cannot do without. *)
Lemma Matches_takes (r : regex) :
  forall a b, Matches fl r a b -> takes fl P r a b.
Proof.
unfold takes.
induction r as [|cs|r1 IH1 r2 IH2|r1 IH1 r2 IH2|g lo hi r1 IH1|i r1 IH1|];
  intros a b; cbn [Matches must_have].
- intros <-. exists []. split; [reflexivity|discriminate].
- intros (c & tl & Hrest & Hc & ->). exists [c]. cbn [rest].
  split; [exact Hrest|]. intros Hall. exists c. split; [left; reflexivity|].
  pose proof (forall_chars _ Hall c) as Hi. cbv beta in Hi.
  rewrite Hc in Hi. exact Hi.
- intros (m & H1 & H2).
  apply IH1 in H1 as (w1 & E1 & M1). apply IH2 in H2 as (w2 & E2 & M2).
  exists (w1 ++ w2). split; [rewrite E1, E2, app_assoc; reflexivity|].
  intros Hm. apply orb_true_iff in Hm as [Hm|Hm].
  + destruct (M1 Hm) as (c & Hin & Hc). exists c.
    split; [apply in_or_app; left; exact Hin|exact Hc].
  + destruct (M2 Hm) as (c & Hin & Hc). exists c.
    split; [apply in_or_app; right; exact Hin|exact Hc].
- intros [H|H].
  + apply IH1 in H as (w & E & M). exists w. split; [exact E|].
    intros Hm. apply andb_prop in Hm as [Hm _]. auto.
  + apply IH2 in H as (w & E & M). exists w. split; [exact E|].
    intros Hm. apply andb_prop in Hm as [_ Hm]. auto.
- intros (n & Hn & Hit).
  destruct n as [|n].
  + cbn [iter] in Hit. subst b. exists []. split; [reflexivity|].
    intros Hm. apply andb_prop in Hm as [Hlo _].
    apply Nat.leb_le in Hlo. lia.
  + cbn [iter] in Hit. destruct Hit as (m & H1 & H2).
    apply IH1 in H1 as (w1 & E1 & M1).
    apply (iter_takes (Matches fl r1)) in H2 as [w2 E2].
    * exists (w1 ++ w2). split; [rewrite E1, E2, app_assoc; reflexivity|].
      intros Hm. apply andb_prop in Hm as [_ Hm].
      destruct (M1 Hm) as (c & Hin & Hc). exists c.
      split; [apply in_or_app; left; exact Hin|exact Hc].
    * intros x y Hxy. apply IH1 in Hxy as (w & E & _). eauto.
- intros (m & H1 & ->). apply IH1 in H1 as (w & E & M).
  exists w. cbn [rest]. auto.
- intros [_ <-]. exists []. split; [reflexivity|discriminate].
Qed.

Lemma match_at_takes (r : regex) (p : option ascii) (s : str)
  (m : match_obj) :
  match_at fl r p s = Some m ->
  s = group0 m ++ rest (after m)
  /\ (must_have fl P r = true -> exists c, In c (group0 m) /\ P c = true).
Proof.
intros H. pose proof (match_at_sound _ _ _ _ H) as [HM _].
apply Matches_takes in HM as (w & E & M). cbn [rest] in E.
unfold match_at in H.
destruct (rmatch fl r (fun st => Some st) (MState p s [])) as [st'|];
  [|discriminate].
injection H as <-. cbn [group0 after] in *.
assert (Hw : firstn (length s - length (rest st')) s = w)
  by (rewrite E; apply firstn_run).
rewrite Hw. split; [exact E|exact M].
Qed.

Lemma search_from_takes (r : regex) (s : str) :
  forall p m, search_from fl r p s = Some m ->
  exists pre, s = pre ++ group0 m ++ rest (after m)
              /\ (must_have fl P r = true ->
                  exists c, In c (group0 m) /\ P c = true).
Proof.
induction s as [|c tl IH]; intros p m; cbn [search_from].
- destruct (match_at fl r p []) as [m0|] eqn:E; [|discriminate].
  intros [= ->]. apply match_at_takes in E as [E M].
  exists []. auto.
- destruct (match_at fl r p (c :: tl)) as [m0|] eqn:E.
  + intros [= ->]. apply match_at_takes in E as [E M]. exists []. auto.
  + intros H. apply IH in H as (pre & E' & M).
    exists (c :: pre). cbn [app]. rewrite <- E'. auto.
Qed.

(** No character with [P] in the text: a pattern that cannot do without
    one is not found. *)
Lemma re_search_none (r : regex) (s : str) :
  must_have fl P r = true ->
  (forall c, In c s -> P c = false) ->
  re_search fl r s = None.
Proof.
intros Hm Hs. unfold re_search.
destruct (search_from fl r None s) as [m|] eqn:E; [|reflexivity].
apply search_from_takes in E as (pre & E & M).
destruct (M Hm) as (c & Hin & Hc).
rewrite (Hs c) in Hc; [discriminate|].
rewrite E. apply in_or_app. right. apply in_or_app. left. exact Hin.
Qed.

Lemma scan_hits_take (r : regex) (fuel : nat) :
  forall p s m, In (Hit m) (scan fl r fuel p s) ->
  exists pre, s = pre ++ group0 m ++ rest (after m)
              /\ (must_have fl P r = true ->
                  exists c, In c (group0 m) /\ P c = true).
Proof.
induction fuel as [|fuel IH]; intros p s m; cbn [scan]; [intros []|].
assert (Hstep : In (Hit m)
                   match s with
                   | [] => []
                   | c :: tl => Keep c :: scan fl r fuel (Some c) tl
                   end ->
                exists pre, s = pre ++ group0 m ++ rest (after m)
                            /\ (must_have fl P r = true ->
                                exists c, In c (group0 m) /\ P c = true)).
{ destruct s as [|c tl]; [intros []|].
  intros [Hk|Hin]; [discriminate|].
  apply IH in Hin as (pre & E & M). exists (c :: pre).
  cbn [app]. rewrite <- E. auto. }
destruct (match_at fl r p s) as [m0|] eqn:E; [|exact Hstep].
pose proof (match_at_takes _ _ _ E) as [E0 M0].
destruct (length (rest (after m0)) <? length s).
- intros [[= ->]|Hin]; [exists []; auto|].
  apply IH in Hin as (pre & E' & M).
  exists (group0 m0 ++ pre). rewrite <- app_assoc, <- E'. auto.
- intros [[= ->]|Hin]; [exists []; auto|auto].
Qed.

Lemma re_findall_none (n : nat) (r : regex) (s : str) :
  must_have fl P r = true ->
  (forall c, In c s -> P c = false) ->
  re_findall fl n r s = [].
Proof.
intros Hm Hs. unfold re_findall, pieces.
assert (Hno : forall m, ~ In (Hit m) (scan fl r (S (length s)) None s)).
{ intros m Hin. apply scan_hits_take in Hin as (pre & E & M).
  destruct (M Hm) as (c & Hin & Hc).
  rewrite (Hs c) in Hc; [discriminate|].
  rewrite E. apply in_or_app. right. apply in_or_app. left. exact Hin. }
induction (scan fl r (S (length s)) None s) as [|pc l IH]; [reflexivity|].
cbn [flat_map]. destruct pc as [c|m].
- apply IH. intros m Hin. apply (Hno m). right. exact Hin.
- exfalso. apply (Hno m). left. reflexivity.
Qed.
End Consumption.

Lemma search_from_sound (fl : flags) (r : regex) (s : str) :
  forall p m, search_from fl r p s = Some m ->
  exists pre p' s', s = pre ++ s' /\ match_at fl r p' s' = Some m.
Proof.
induction s as [|c tl IH]; intros p m; cbn [search_from].
- destruct (match_at fl r p []) as [m0|] eqn:E; [|discriminate].
  intros [= ->]. exists [], p, []. auto.
- destruct (match_at fl r p (c :: tl)) as [m0|] eqn:E.
  + intros [= ->]. exists [], p, (c :: tl). auto.
  + intros H. apply IH in H as (pre & p' & s' & -> & H).
    exists (c :: pre), p', s'. auto.
Qed.

(** The groups of a match are made of characters of the text. *)
Lemma Matches_caps_chars (fl : flags) (r : regex) :
  forall a b, Matches fl r a b ->
  forall i s, In (i, s) (caps b) ->
  In (i, s) (caps a) \/ forall c, In c s -> In c (rest a).
Proof.
induction r as [|cs|r1 IH1 r2 IH2|r1 IH1 r2 IH2|g lo hi r1 IH1|j r1 IH1|];
  intros a b; cbn [Matches].
- intros <-. auto.
- intros (c & tl & _ & _ & ->). cbn [caps]. auto.
- intros (m & H1 & H2) i s Hin.
  destruct (IH2 _ _ H2 _ _ Hin) as [Hm|Hm].
  + eauto.
  + right. intros c Hc.
    destruct (Matches_takes fl (fun _ => true) r1 _ _ H1) as (w & E & _).
    rewrite E. apply in_or_app. right. auto.
- intros [H|H]; eauto.
- intros (n & _ & Hit). revert a Hit.
  induction n as [|n IHn]; intros a; cbn [iter].
  + intros <-. auto.
  + intros (m & H1 & H2) i s Hin.
    destruct (IHn _ H2 _ _ Hin) as [Hm|Hm].
    * eauto.
    * right. intros c Hc.
      destruct (Matches_takes fl (fun _ => true) r1 _ _ H1) as (w & E & _).
      rewrite E. apply in_or_app. right. auto.
- intros (m & H1 & ->) i s. cbn [caps]. intros [[= <- <-]|Hin].
  + right. intros c Hc. eapply In_firstn. exact Hc.
  + eauto.
- intros [_ <-]. auto.
Qed.

(** A group of a found match is made of characters of the searched
    text. *)
Lemma re_search_group_chars (fl : flags) (r : regex) (s : str)
  (m : match_obj) (i : nat) (c : ascii) :
  re_search fl r s = Some m -> In c (group_or_empty m i) -> In c s.
Proof.
unfold re_search. intros H Hc.
apply search_from_sound in H as (pre & p' & s' & -> & H).
apply match_at_sound in H as [HM Hg].
unfold group_or_empty, group in Hc.
destruct (lookup_group i (groups m)) as [t|] eqn:El; [|destruct Hc].
apply lookup_group_In in El. rewrite Hg in El.
destruct (Matches_caps_chars _ _ _ _ HM _ _ El) as [[]|Hin].
apply in_or_app. right. apply Hin. exact Hc.
Qed.

(** ** extract_skills and extract_experience on a text of one line *)

Section OneLine.
Import CVAnalyzer.

Lemma lower_char_LF :
  forall c, implb (is_LF (lower_char c)) (is_LF c) = true.
Proof. apply forall_chars. vm_compute. reflexivity. Qed.

Lemma lower_no_LF (s : str) : ~ In LF s -> forall c, In c (lower s) -> is_LF c = false.
Proof.
intros Hs c Hin. unfold lower in Hin. apply in_map_iff in Hin as (x & <- & Hx).
pose proof (lower_char_LF x) as Himp.
destruct (is_LF (lower_char x)) eqn:E; [|reflexivity].
cbn in Himp. apply Ascii.eqb_eq in Himp. subst x. contradiction.
Qed.

Lemma section_patterns_need_LF :
  forallb (fun pat => must_have section_flags is_LF (re pat))
          (summary_pattern :: skill_contexts) = true.
Proof. vm_compute. reflexivity. Qed.

Lemma extract_skills_one_line (text : str) :
  ~ In LF text -> extract_skills text = whole_word_tags text.
Proof.
intros Hs. unfold extract_skills, whole_word_tags.
fold (found_as_word).
change (fun variation : str =>
          match re_search (Flags true false) (word_pattern variation)
                          (lower text) with
          | Some _ => true
          | None => false
          end) with (fun variation => found_as_word variation text).
generalize (check_skills (fun variation => found_as_word variation text) []).
pose proof section_patterns_need_LF as Hneed.
cbn [forallb] in Hneed. apply andb_prop in Hneed as [_ Hneed].
rewrite forallb_forall in Hneed.
induction skill_contexts as [|pat pats IH]; intros found; [reflexivity|].
cbn [fold_left].
rewrite (re_search_none section_flags is_LF (re pat) (lower text)).
- apply IH. intros x Hx. apply Hneed. right. exact Hx.
- apply Hneed. left. reflexivity.
- apply lower_no_LF. exact Hs.
Qed.

Lemma check_variations_hit (hit : str -> bool) (skill : str)
  (variations found : list str) :
  check_variations hit skill variations found
  = if existsb hit variations
    then (if mem skill found then found else found ++ [skill])
    else found.
Proof.
induction variations as [|v tl IH]; cbn [check_variations existsb];
  [reflexivity|].
destruct (hit v); [reflexivity|exact IH].
Qed.

Lemma check_table_In (hit : str -> bool) (table : list (str * list str))
  (skill : str) :
  forall found,
    In skill (fold_left (fun found kv =>
                           check_variations hit (fst kv) (snd kv) found)
                        table found)
    <-> In skill found
        \/ exists kv, In kv table /\ fst kv = skill
                       /\ existsb hit (snd kv) = true.
Proof.
induction table as [|kv table IH]; intros found; cbn [fold_left].
- split; [auto|]. intros [H|(kv & [] & _)]. exact H.
- rewrite IH, check_variations_hit. split.
  + intros [H|(kv' & Hin & Hk & Hh)].
    * destruct (existsb hit (snd kv)) eqn:E; [|auto].
      destruct (mem (fst kv) found); [auto|].
      apply in_app_or in H as [H|[<-|[]]]; [auto|].
      right. exists kv. split; [left; reflexivity|auto].
    * right. exists kv'. split; [right; exact Hin|auto].
  + intros [H|(kv' & [<-|Hin] & Hk & Hh)].
    * left. destruct (existsb hit (snd kv)); [|exact H].
      destruct (mem (fst kv) found); [exact H|].
      apply in_or_app. left. exact H.
    * left. rewrite Hh. destruct (mem (fst kv) found) eqn:Em.
      -- apply mem_In in Em. rewrite <- Hk. exact Em.
      -- apply in_or_app. right. left. exact Hk.
    * right. exists kv'. auto.
Qed.

Lemma whole_word_tags_In (text skill : str) :
  In skill (whole_word_tags text)
  <-> exists variations,
        In (skill, variations) SKILL_KEYWORDS
        /\ exists variation,
             In variation variations
             /\ found_as_word variation text = true.
Proof.
unfold whole_word_tags, check_skills.
rewrite check_table_In. split.
- intros [[]|([k vs] & Hin & Hk & Hh)]. cbn [fst snd] in *. subst k.
  exists vs. split; [exact Hin|].
  apply existsb_exists in Hh as (v & Hv & Hf). eauto.
- intros (vs & Hin & v & Hv & Hf). right. exists (skill, vs).
  repeat split; [exact Hin|]. cbn [snd]. apply existsb_exists. eauto.
Qed.

(** X1.  On a text without a newline the section pass of
    [extract_skills] finds no section, and a tag is reported exactly when
    one of its variations occurs in the text as a whole word.  The text
    that [process_cv] passes on, a cleaned text, is such a text. *)
Theorem extract_skills_one_line_whole_words (text skill : str) :
  (~ In LF text ->
   (In skill (extract_skills text)
    <-> exists variations,
          In (skill, variations) SKILL_KEYWORDS
          /\ exists variation,
               In variation variations
               /\ found_as_word variation text = true))
  /\ (In skill (extract_skills (CVParser.clean_extracted_text text))
      <-> exists variations,
            In (skill, variations) SKILL_KEYWORDS
            /\ exists variation,
                 In variation variations
                 /\ found_as_word variation
                      (CVParser.clean_extracted_text text) = true).
Proof.
split.
- intros Hline. rewrite (@extract_skills_one_line text Hline).
  apply whole_word_tags_In.
- rewrite (@extract_skills_one_line (CVParser.clean_extracted_text text)
             (clean_no_newline text)).
  apply whole_word_tags_In.
Qed.

Lemma extract_skills_one_line_whole_words_witness :
  ~ In LF (of_string "skills: javascripting")
  /\ ~ In (of_string "java") (extract_skills "skills: javascripting").
Proof.
assert (Hline : ~ In LF (of_string "skills: javascripting"))
  by (vm_compute; intuition discriminate).
split; [exact Hline|].
intros Hin.
apply (proj1 (extract_skills_one_line_whole_words
                "skills: javascripting" "java") Hline) in Hin.
destruct Hin as (vs & Hvs & v & Hv & Hf).
assert (Hnone : forallb (fun kv =>
                           forallb (fun variation =>
                                      negb (found_as_word variation
                                              "skills: javascripting"))
                                   (snd kv))
                        SKILL_KEYWORDS = true) by (vm_compute; reflexivity).
rewrite forallb_forall in Hnone. specialize (Hnone _ Hvs).
cbn [snd] in Hnone. rewrite forallb_forall in Hnone.
specialize (Hnone _ Hv). rewrite Hf in Hnone. discriminate Hnone.
Defined.

Lemma check_variations_NoDup (hit : str -> bool) (skill : str)
  (variations found : list str) :
  NoDup found -> NoDup (check_variations hit skill variations found).
Proof.
intros Hf. rewrite check_variations_hit.
destruct (existsb hit variations); [|exact Hf].
destruct (mem skill found) eqn:Em; [exact Hf|].
apply NoDup_app; [exact Hf|repeat constructor; intros []|].
intros x Hx [<-|[]]. apply mem_In in Hx. congruence.
Qed.

Lemma check_skills_NoDup (hit : str -> bool) (found : list str) :
  NoDup found -> NoDup (check_skills hit found).
Proof.
unfold check_skills. revert found.
induction SKILL_KEYWORDS as [|kv table IH]; intros found Hf; cbn [fold_left];
  [exact Hf|].
apply IH, check_variations_NoDup, Hf.
Qed.

(** X2.  [extract_skills] reports no tag twice, whatever the two passes
    find. *)
Theorem extract_skills_NoDup (text : str) : NoDup (extract_skills text).
Proof.
unfold extract_skills.
set (first := check_skills _ []).
assert (Hfirst : NoDup first) by (apply check_skills_NoDup; constructor).
clearbody first. revert first Hfirst.
induction skill_contexts as [|pat pats IH]; intros found Hf; cbn [fold_left];
  [exact Hf|].
apply IH.
destruct (re_search section_flags (re pat) (lower text));
  [apply check_skills_NoDup|]; exact Hf.
Qed.
End OneLine.

(** ** extract_experience: sign, one-line texts, texts without digits *)

Section ExperienceMore.
Import CVAnalyzer.

(** X3.  [extract_experience] never returns a negative number, and
    never not-a-number: the result is 0 or more.  It can be infinity: a
    number of 310 digits before "years" is read as that. *)
Theorem extract_experience_nonneg :
  (forall text, ge (extract_experience text) 0 = true)
  /\ extract_experience (repeat "9"%char 310 ++ of_string " years")
     = PosInf.
Proof.
split; [|vm_compute; reflexivity].
intros text. unfold extract_experience.
pose proof (years_found_nonneg text) as H.
destruct (years_found text) as [|y ys]; [reflexivity|].
destruct (py_max_greatest H) as [Hin _].
unfold nonneg in H. rewrite Forall_forall in H. apply H, Hin.
Qed.

Lemma scan_summary_one_line (t : str) (acc : list pyfloat) :
  (forall c, In c t -> is_LF c = false) -> scan_summary t acc = acc.
Proof.
intros Ht. unfold scan_summary.
rewrite (re_search_none section_flags is_LF); [reflexivity| |exact Ht].
pose proof section_patterns_need_LF as H. cbn [forallb] in H.
apply andb_prop in H as [H _]. exact H.
Qed.

(** X4.  On a text without a newline the summary pass of
    [extract_experience] finds no section: the candidates are those of
    the numeric patterns and of the date heuristic over the whole text.
    The cleaned text that [process_cv] passes on is such a text. *)
Theorem extract_experience_one_line (text : str) :
  (~ In LF text ->
   years_found text
   = scan_text (lower text) [] ++ scan_dates (lower text) [])
  /\ years_found (CVParser.clean_extracted_text text)
     = scan_text (lower (CVParser.clean_extracted_text text)) []
       ++ scan_dates (lower (CVParser.clean_extracted_text text)) [].
Proof.
assert (H : forall t, ~ In LF t ->
            years_found t
            = scan_text (lower t) [] ++ scan_dates (lower t) []).
{ intros t Ht. rewrite years_found_passes.
  rewrite scan_summary_one_line by (apply lower_no_LF, Ht).
  rewrite app_nil_r. reflexivity. }
split; [apply H|apply H, clean_no_newline].
Qed.

Lemma extract_experience_one_line_witness :
  ~ In LF (of_string "summary: 24 months")
  /\ years_found "summary: 24 months"
     = scan_text (lower "summary: 24 months") []
       ++ scan_dates (lower "summary: 24 months") [].
Proof.
assert (Hline : ~ In LF (of_string "summary: 24 months"))
  by (vm_compute; intuition discriminate).
split; [exact Hline|].
exact (proj1 (extract_experience_one_line "summary: 24 months") Hline).
Defined.

Lemma lower_char_digit :
  forall c, implb (is_digit (lower_char c)) (is_digit c) = true.
Proof. apply forall_chars. vm_compute. reflexivity. Qed.

Lemma lower_no_digit (s : str) :
  (forall c, In c s -> is_digit c = false) ->
  forall c, In c (lower s) -> is_digit c = false.
Proof.
intros Hs c Hin. unfold lower in Hin.
apply in_map_iff in Hin as (x & <- & Hx).
pose proof (lower_char_digit x) as Himp. rewrite (Hs x Hx) in Himp.
destruct (is_digit (lower_char x)); [discriminate Himp|reflexivity].
Qed.

Lemma number_patterns_need_digit :
  forallb (fun pat => must_have no_flags is_digit (re pat))
          EXPERIENCE_PATTERNS = true
  /\ forallb (fun pat => must_have (Flags true false) is_digit (re pat))
             date_patterns = true
  /\ forallb (must_have no_flags is_digit) phone_patterns = true.
Proof. split; [|split]; vm_compute; reflexivity. Qed.

Lemma scan_patterns_no_digit (t : str)
  (f : pattern -> found -> option pyfloat) (acc : list pyfloat) :
  (forall c, In c t -> is_digit c = false) ->
  fold_left
    (fun years_found pat =>
       fold_left
         (fun years_found m => append_candidate years_found (f pat m))
         (re_findall no_flags (ngroups pat) (re pat) t)
         years_found)
    EXPERIENCE_PATTERNS acc = acc.
Proof.
intros Ht. destruct number_patterns_need_digit as (Hp & _ & _).
rewrite forallb_forall in Hp.
induction EXPERIENCE_PATTERNS as [|pat l IH]; [reflexivity|].
cbn [fold_left].
rewrite (re_findall_none no_flags is_digit);
  [|apply Hp; left; reflexivity|exact Ht].
cbn [fold_left]. apply IH. intros x Hx. apply Hp. right. exact Hx.
Qed.

(** X5.  A text without a digit has no experience to show and no phone
    number: [extract_experience] returns 0 and [extract_phone] the empty
    string. *)
Theorem no_digit_no_experience_no_phone (text : str)
  (Hnone : forall c, In c text -> is_digit c = false) :
  extract_experience text = Finite 0 /\ extract_phone text = [].
Proof.
destruct number_patterns_need_digit as (_ & Hd & Hph).
split.
- unfold extract_experience.
  assert (Hy : years_found text = []); [|rewrite Hy; reflexivity].
  pose proof (lower_no_digit _ Hnone) as Ht.
  unfold years_found. set (t := lower text) in *.
  assert (H1 : scan_text t [] = [])
    by (apply (scan_patterns_no_digit t candidate_of), Ht).
  rewrite H1.
  assert (H2 : scan_dates t [] = []).
  { unfold scan_dates. rewrite forallb_forall in Hd.
    induction date_patterns as [|pat l IH]; [reflexivity|].
    cbn [fold_left].
    rewrite (re_findall_none (Flags true false) is_digit);
      [|apply Hd; left; reflexivity|exact Ht].
    cbn [length Nat.leb]. apply IH. intros x Hx. apply Hd. right. exact Hx. }
  rewrite H2. unfold scan_summary.
  destruct (re_search section_flags (re summary_pattern) t) as [m|] eqn:Em;
    [|reflexivity].
  apply (scan_patterns_no_digit (group_or_empty m 1)
           (fun _ => summary_candidate_of)).
  intros c Hc. apply Ht. eapply re_search_group_chars; eauto.
- unfold extract_phone. rewrite forallb_forall in Hph.
  induction phone_patterns as [|pat l IH]; [reflexivity|].
  cbn [first_phone].
  rewrite (re_search_none no_flags is_digit);
    [|apply Hph; left; reflexivity|exact Hnone].
  apply IH. intros x Hx. apply Hph. right. exact Hx.
Qed.

Lemma no_digit_no_experience_no_phone_witness :
  extract_experience "Ten years of experience, call me"
  = Finite 0
  /\ extract_phone "Ten years of experience, call me" = [].
Proof.
apply no_digit_no_experience_no_phone.
intros c Hc.
assert (Hall : forallb (fun c => negb (is_digit c))
                       (of_string "Ten years of experience, call me")
               = true) by (vm_compute; reflexivity).
rewrite forallb_forall in Hall. apply negb_true_iff. exact (Hall c Hc).
Defined.
End ExperienceMore.

(** ** extract_email *)

Section Email.
Import CVAnalyzer.

Lemma chr_match (x c : ascii) :
  cset_match no_flags (OneOf [IChar x]) c = true -> c = x.
Proof.
cbn. rewrite orb_false_r. apply Ascii.eqb_eq.
Qed.

Lemma Matches_chr (x : ascii) (a b : mstate) :
  Matches no_flags (chr x) a b -> rest a = x :: rest b.
Proof.
unfold chr. cbn [Matches]. intros (c & tl & Hrest & Hc & ->).
apply chr_match in Hc. subst c. exact Hrest.
Qed.

Lemma Matches_cat (fl : flags) (r1 r2 : regex) (a b : mstate) :
  Matches fl (Cat r1 r2) a b ->
  exists m, Matches fl r1 a m /\ Matches fl r2 m b.
Proof. intros H. exact H. Qed.

Lemma Matches_run (cs : cset) (g : bool) (lo : nat) (hi : option nat)
  (a b : mstate) :
  Matches no_flags (Rep g lo hi (Cls cs)) a b ->
  exists run, rest a = run ++ rest b /\ lo <= length run
              /\ forallb (cset_match no_flags cs) run = true.
Proof.
cbn [Matches]. intros (n & Hn & Hit).
apply iter_cls in Hit as (run & Hr & Hlen & Hall & _).
exists run. repeat split; [exact Hr|lia|].
apply forallb_forall. rewrite Forall_forall in Hall. exact Hall.
Qed.

(** X6.  What [extract_email] returns is empty or a piece of the text of
    the form local@domain.tld: a non-empty local part of letters, digits
    and [. _ % + -], a non-empty domain of letters, digits, dots and
    hyphens, and after its last dot at least two characters that are
    letters or vertical bars. *)
Theorem extract_email_shape (text : str) :
  extract_email text = []
  \/ exists pre local domain tld post,
       text = pre ++ extract_email text ++ post
       /\ extract_email text
          = local ++ of_string "@" ++ domain ++ of_string "." ++ tld
       /\ local <> [] /\ domain <> [] /\ 2 <= length tld
       /\ forallb local_char local = true
       /\ forallb domain_char domain = true
       /\ forallb tld_char tld = true.
Proof.
unfold extract_email.
destruct (re_search no_flags email_pattern text) as [m|] eqn:E;
  [right|left; reflexivity].
unfold re_search in E.
apply search_from_sound in E as (pre & p' & s' & -> & E).
pose proof (match_at_takes no_flags is_at _ _ _ E) as [Hs' _].
apply match_at_sound in E as [HM _].
unfold email_pattern, plus, at_least in HM.
apply Matches_cat in HM as (m1 & Hb & HM). destruct Hb as [_ <-].
apply Matches_cat in HM as (m2 & H1 & HM).
apply Matches_cat in HM as (m3 & Hat & HM).
apply Matches_cat in HM as (m4 & H2 & HM).
apply Matches_cat in HM as (m5 & Hdot & HM).
apply Matches_cat in HM as (m6 & H3 & HM). destruct HM as [_ Hend].
apply Matches_run in H1 as (local & E1 & L1 & A1).
apply Matches_run in H2 as (domain & E2 & L2 & A2).
apply Matches_run in H3 as (tld & E3 & L3 & A3).
rewrite <- Hend in Hs'.
apply Matches_chr in Hat. apply Matches_chr in Hdot.
cbn [rest] in E1.
assert (Hg : group0 m
             = local ++ of_string "@" ++ domain ++ of_string "." ++ tld).
{ apply (app_inv_tail (rest m6)). rewrite <- Hs', E1, Hat, E2, Hdot, E3.
  cbn [of_string list_ascii_of_string app].
  rewrite <- !app_assoc. cbn [app]. rewrite <- !app_assoc. reflexivity. }
exists pre, local, domain, tld, (rest m6).
split; [rewrite <- Hs'; reflexivity|].
split; [exact Hg|].
split; [destruct local; [simpl in L1; lia|discriminate]|].
split; [destruct domain; [simpl in L2; lia|discriminate]|].
split; [exact L3|].
split; [|split].
- rewrite <- A1. apply forallb_same. intros c. unfold local_char.
  cbn. reflexivity.
- rewrite <- A2. apply forallb_same. intros c. unfold domain_char.
  cbn. reflexivity.
- rewrite <- A3. apply forallb_same. intros c. unfold tld_char.
  cbn. rewrite ?orb_false_r. reflexivity.
Qed.
End Email.

(** ** extract_name and extract_education *)

(** ** extract_phone *)

Section Phone.
Import CVAnalyzer.
Variable fl : flags.
Variable P : ascii -> bool.

Lemma count_app {A} (f : A -> bool) (l1 l2 : list A) :
  count f (l1 ++ l2) = count f l1 + count f l2.
Proof. unfold count. rewrite filter_app, length_app. reflexivity. Qed.

Lemma class_within_spec (cs : cset) (c : ascii) :
  class_within fl P cs = true -> cset_match fl cs c = true -> P c = true.
Proof.
intros H Hc. pose proof (forall_chars _ H c) as Hi. cbv beta in Hi.
rewrite Hc in Hi. exact Hi.
Qed.

Lemma iter_fewest (R : mstate -> mstate -> Prop) (k : nat) (all : bool)
  (HR : forall a b, R a b ->
        exists w, rest a = w ++ rest b /\ k <= count P w
                  /\ (all = true -> forallb P w = true)) (n : nat) :
  forall a b, iter R n a b ->
  exists w, rest a = w ++ rest b /\ n * k <= count P w
            /\ (all = true -> forallb P w = true).
Proof.
induction n as [|n IH]; intros a b; cbn [iter].
- intros <-. exists []. cbn. auto.
- intros (m & H1 & H2). apply HR in H1 as (w1 & E1 & C1 & A1).
  apply IH in H2 as (w2 & E2 & C2 & A2). exists (w1 ++ w2).
  split; [rewrite E1, E2, app_assoc; reflexivity|].
  split; [rewrite count_app; cbn [Nat.mul]; lia|].
  intros Hall. rewrite forallb_app, A1, A2 by exact Hall. reflexivity.
Qed.

(** A match takes a piece off the front of the text with at least
    [fewest] characters with [P] in it, and nothing else when the
    expression has [only] such characters. *)
Lemma Matches_fewest (r : regex) :
  forall a b, Matches fl r a b ->
  exists w, rest a = w ++ rest b /\ fewest fl P r <= count P w
            /\ (only fl P r = true -> forallb P w = true).
Proof.
induction r as [|cs|r1 IH1 r2 IH2|r1 IH1 r2 IH2|g lo hi r1 IH1|i r1 IH1|];
  intros a b; cbn [Matches fewest only].
- intros <-. exists []. cbn. auto.
- intros (c & tl & Hrest & Hc & ->). exists [c]. cbn [rest].
  split; [exact Hrest|]. unfold count. cbn [filter forallb].
  destruct (class_within fl P cs) eqn:Hw.
  + rewrite (class_within_spec _ _ Hw Hc). cbn. auto.
  + split; [lia|discriminate].
- intros (m & H1 & H2).
  apply IH1 in H1 as (w1 & E1 & C1 & A1).
  apply IH2 in H2 as (w2 & E2 & C2 & A2).
  exists (w1 ++ w2). split; [rewrite E1, E2, app_assoc; reflexivity|].
  split; [rewrite count_app; lia|].
  intros Hall. apply andb_prop in Hall as [Ha1 Ha2].
  rewrite forallb_app, A1, A2 by assumption. reflexivity.
- intros [H|H].
  + apply IH1 in H as (w & E & C & A). exists w. split; [exact E|].
    split; [lia|]. intros Hall. apply andb_prop in Hall as [Ha _]. auto.
  + apply IH2 in H as (w & E & C & A). exists w. split; [exact E|].
    split; [lia|]. intros Hall. apply andb_prop in Hall as [_ Ha]. auto.
- intros (n & Hn & Hit).
  apply (@iter_fewest (Matches fl r1) (fewest fl P r1) (only fl P r1) IH1)
    in Hit as (w & E & C & A).
  exists w. split; [exact E|]. split; [nia|exact A].
- intros (m & H1 & ->). apply IH1 in H1 as (w & E & C & A).
  exists w. cbn [rest]. auto.
- intros [_ <-]. exists []. cbn. auto.
Qed.

Lemma re_search_fewest (r : regex) (s : str) (m : match_obj) :
  re_search fl r s = Some m ->
  (exists pre post, s = pre ++ group0 m ++ post)
  /\ fewest fl P r <= count P (group0 m)
  /\ (only fl P r = true -> forallb P (group0 m) = true).
Proof.
unfold re_search. intros H.
apply search_from_sound in H as (pre & p' & s' & -> & H).
pose proof (match_at_takes fl P _ _ _ H) as [Hs' _].
apply match_at_sound in H as [HM _].
apply Matches_fewest in HM as (w & E & C & A). cbn [rest] in E.
assert (Hw : w = group0 m).
{ apply (app_inv_tail (rest (after m))). rewrite <- E. exact Hs'. }
subst w. split; [|split; assumption].
exists pre, (rest (after m)). rewrite <- Hs'. reflexivity.
Qed.

End Phone.

Section PhoneShape.
Import CVAnalyzer.

Lemma first_phone_shape (patterns : list regex) (text : str) (d n : nat) :
  Forall (fun pat => d <= fewest no_flags is_digit pat
                     /\ n <= fewest no_flags any_char pat
                     /\ only no_flags phone_char pat = true) patterns ->
  first_phone patterns text = []
  \/ (exists pre post, text = pre ++ first_phone patterns text ++ post)
     /\ d <= count is_digit (first_phone patterns text)
     /\ n <= length (first_phone patterns text)
     /\ forallb phone_char (first_phone patterns text) = true.
Proof.
induction 1 as [|pat tl (Hd & Hn & Ho) _ IH]; cbn [first_phone];
  [left; reflexivity|].
destruct (re_search no_flags pat text) as [m|] eqn:E; [right|exact IH].
destruct (re_search_fewest no_flags is_digit _ _ E) as (Hsub & Cd & _).
destruct (re_search_fewest no_flags any_char _ _ E) as (_ & Cn & _).
destruct (re_search_fewest no_flags phone_char _ _ E) as (_ & _ & Hall).
split; [exact Hsub|]. split; [lia|]. split; [|auto].
assert (Hlen : count any_char (group0 m) = length (group0 m)).
{ unfold count. clear. induction (group0 m) as [|c l IHl]; cbn; auto. }
rewrite <- Hlen. lia.
Qed.

(** X22.  What [extract_phone] returns is empty or a piece of the text
    made of digits, whitespace and the characters [+ - . ( )], of five
    characters or more, at least four of them digits: the international
    pattern is content with a plus sign and four digits. *)
Theorem extract_phone_shape (text : str) :
  extract_phone text = []
  \/ (exists pre post, text = pre ++ extract_phone text ++ post)
     /\ 4 <= count is_digit (extract_phone text)
     /\ 5 <= length (extract_phone text)
     /\ forallb phone_char (extract_phone text) = true.
Proof.
unfold extract_phone. apply first_phone_shape.
repeat constructor; vm_compute; reflexivity || (repeat constructor).
Qed.

End PhoneShape.

Section NameEducation.
Import CVAnalyzer.

Lemma split_on_cons (sep : ascii) (s : str) :
  exists l ls, split_on sep s = l :: ls.
Proof.
induction s as [|c tl (l & ls & IH)]; cbn [split_on]; [eauto|].
destruct (Ascii.eqb c sep); [eauto|]. rewrite IH. eauto.
Qed.

Lemma split_on_no_sep (sep : ascii) (s : str) :
  forall line, In line (split_on sep s) -> ~ In sep line.
Proof.
induction s as [|c tl IH]; cbn [split_on]; intros line.
- intros [<-|[]] [].
- destruct (Ascii.eqb c sep) eqn:E.
  + intros [<-|Hin]; [intros []|auto].
  + destruct (split_on sep tl) as [|l ls] eqn:Es.
    * intros [<-|[]] [<-|[]]. rewrite Ascii.eqb_refl in E. discriminate.
    * intros [<-|Hin]; [|apply IH; right; exact Hin].
      intros [<-|Hl]; [rewrite Ascii.eqb_refl in E; discriminate|].
      apply (IH l); [left; reflexivity|exact Hl].
Qed.

Lemma split_on_absent (sep : ascii) (s : str) :
  ~ In sep s -> split_on sep s = [s].
Proof.
induction s as [|c tl IH]; intros Hs; cbn [split_on]; [reflexivity|].
destruct (Ascii.eqb c sep) eqn:E.
- apply Ascii.eqb_eq in E. subst. exfalso. apply Hs. left. reflexivity.
- rewrite IH; [reflexivity|]. intros H. apply Hs. right. exact H.
Qed.

Lemma search_digit_none (s : str) :
  forall p, search_from no_flags digit p s = None ->
  forall c, In c s -> is_digit c = false.
Proof.
unfold digit.
induction s as [|x tl IH]; intros p; cbn [search_from]; [intros _ c []|].
rewrite match_at_cls. rewrite digit_class.
destruct (is_digit x) eqn:Ex; [discriminate|].
intros H c [<-|Hc]; [exact Ex|eauto].
Qed.

Lemma first_name_line_sound (lines : list str) :
  first_name_line lines = []
  \/ exists line, In line lines /\ first_name_line lines = strip line
                   /\ name_like (strip line).
Proof.
induction lines as [|line tl IH]; cbn [first_name_line]; [left; reflexivity|].
destruct (nonempty (strip line)) eqn:E1; cbn [andb].
2:{ destruct IH as [IH|(l & Hin & Hl & Hn)]; [auto|].
    right. exists l. auto using in_cons. }
destruct (length (strip line) <? 50) eqn:E2; cbn [andb].
2:{ destruct IH as [IH|(l & Hin & Hl & Hn)]; [auto|].
    right. exists l. auto using in_cons. }
destruct (re_search no_flags digit (strip line)) as [m|] eqn:E3;
  cbn [negb andb].
{ destruct IH as [IH|(l & Hin & Hl & Hn)]; [auto|].
  right. exists l. auto using in_cons. }
destruct (isupper (strip line)) eqn:E4; cbn [negb andb].
{ destruct IH as [IH|(l & Hin & Hl & Hn)]; [auto|].
  right. exists l. auto using in_cons. }
destruct (existsb (fun p => startswith p (lower (strip line))) NAME_PREFIXES)
  eqn:E5; cbn [negb].
{ destruct IH as [IH|(l & Hin & Hl & Hn)]; [auto|].
  right. exists l. auto using in_cons. }
right. exists line. split; [left; reflexivity|]. split; [reflexivity|].
unfold name_like. repeat split.
- destruct (strip line); [discriminate E1|discriminate].
- apply Nat.ltb_lt. exact E2.
- apply (search_digit_none _ None). exact E3.
- exact E4.
- intros p Hp. destruct (startswith p (lower (strip line))) eqn:Es;
    [|reflexivity].
  assert (existsb (fun p => startswith p (lower (strip line))) NAME_PREFIXES
          = true) by (apply existsb_exists; eauto).
  congruence.
Qed.

(** X7.  A name that [extract_name] returns is one of the first five
    lines of the stripped text, stripped: it holds no newline and no
    digit, has fewer than 50 characters, is not all upper case, and does
    not begin with "curriculum vitae", "resume", "cv", "phone" or "email"
    in any case. *)
Theorem extract_name_sound (text : str) :
  extract_name text = []
  \/ (exists line,
        In line (firstn 5 (split_on LF (strip text)))
        /\ extract_name text = strip line)
     /\ name_like (extract_name text)
     /\ ~ In LF (extract_name text).
Proof.
unfold extract_name.
destruct (first_name_line_sound (firstn 5 (split_on LF (strip text))))
  as [H|(line & Hin & Hl & Hn)]; [left; exact H|right].
rewrite Hl. split; [eauto|]. split; [exact Hn|].
intros HLF. apply strip_In in HLF.
apply In_firstn in Hin. exact (split_on_no_sep _ _ _ Hin HLF).
Qed.

Lemma clean_strip_fixed (x : str) :
  strip (CVParser.clean_extracted_text x) = CVParser.clean_extracted_text x.
Proof. rewrite clean_formula. apply strip_idem. Qed.

(** X8.  After [clean_extracted_text] the text is one line, so the name
    that [extract_name] finds in it is the whole text or nothing; a
    cleaned text of 50 characters or more, or with a digit in it, has no
    name. *)
Theorem extract_name_of_cleaned_text (x : str) :
  let text := CVParser.clean_extracted_text x in
  (extract_name text = [] \/ extract_name text = text)
  /\ (50 <= length text -> extract_name text = [])
  /\ ((exists c, In c text /\ is_digit c = true) -> extract_name text = []).
Proof.
intros text.
assert (Hone : extract_name text = first_name_line [text]).
{ unfold extract_name, text. rewrite clean_strip_fixed.
  rewrite split_on_absent by apply clean_no_newline. reflexivity. }
destruct (first_name_line_sound [text]) as [H|(line & Hin & Hl & Hn)].
- rewrite Hone, H. auto.
- destruct Hin as [<-|[]].
  assert (Hs : strip text = text) by apply clean_strip_fixed.
  rewrite Hs in Hl, Hn. rewrite Hone, Hl.
  destruct Hn as (_ & Hlen & Hdig & _).
  split; [right; reflexivity|]. split.
  + intros H50. lia.
  + intros (c & Hc & Hd). rewrite (Hdig c Hc) in Hd. discriminate.
Qed.

Lemma split_on_line (l tail : str) :
  ~ In LF l -> split_on LF (l ++ LF :: tail) = l :: split_on LF tail.
Proof.
induction l as [|c l IH]; intros Hl; cbn [app split_on].
- rewrite Ascii.eqb_refl. reflexivity.
- destruct (Ascii.eqb c LF) eqn:E.
  + apply Ascii.eqb_eq in E. subst. exfalso. apply Hl. left. reflexivity.
  + rewrite IH; [reflexivity|]. intros H. apply Hl. right. exact H.
Qed.

Lemma split_on_lines (sec : list str) :
  (forall l, In l sec -> ~ In LF l) ->
  split_on LF (flat_map (fun l => l ++ nl) sec) = sec ++ [[]].
Proof.
induction sec as [|l sec IH]; intros Hsec; [reflexivity|].
cbn [flat_map app]. rewrite <- app_assoc. unfold nl at 1. cbn [app].
rewrite split_on_line by (apply Hsec; left; reflexivity).
rewrite IH; [reflexivity|]. intros l' H. apply Hsec. right. exact H.
Qed.

Lemma find_section_lines (lines sec : list str) :
  find_section lines = Some sec -> forall l, In l sec -> In l lines.
Proof.
induction lines as [|line tl IH]; cbn [find_section]; [discriminate|].
destruct (any_keyword _ line).
- intros H l Hl.
  assert (Hsec : sec = firstn 10 (line :: tl)) by congruence.
  rewrite Hsec in Hl. apply In_firstn in Hl. exact Hl.
- intros H l Hl. right. eauto.
Qed.

Lemma keep_education_lines_In (lines : list str) (seg : str) :
  In seg (keep_education_lines lines) ->
  exists line, In line lines /\ seg = strip line
               /\ any_keyword EDUCATION_KEYWORDS line = true
               /\ 10 < length seg.
Proof.
unfold keep_education_lines. rewrite in_flat_map.
intros (line & Hin & Hseg).
destruct (any_keyword EDUCATION_KEYWORDS line) eqn:Ek; [|destruct Hseg].
cbn [andb] in Hseg.
destruct (nonempty (strip line)); [|destruct Hseg]. cbn [andb] in Hseg.
destruct (10 <? length (strip line)) eqn:El; [|destruct Hseg].
destruct Hseg as [<-|[]]. apply Nat.ltb_lt in El. eauto.
Qed.

Lemma unique_spec (lines : list str) :
  forall seen,
    NoDup (unique seen lines)
    /\ forall x, In x (unique seen lines) -> In x lines /\ ~ In x seen.
Proof.
induction lines as [|line tl IH]; intros seen; cbn [unique].
- split; [constructor|intros x []].
- destruct (mem line seen) eqn:Em.
  + destruct (IH seen) as [Hnd Hin]. split; [exact Hnd|].
    intros x Hx. destruct (Hin x Hx). auto using in_cons.
  + destruct (IH (line :: seen)) as [Hnd Hin]. split.
    * constructor; [|exact Hnd]. intros Hl.
      destruct (Hin _ Hl) as [_ Hn]. apply Hn. left. reflexivity.
    * intros x [<-|Hx].
      -- split; [left; reflexivity|]. intros Hs. apply mem_In in Hs.
         congruence.
      -- destruct (Hin x Hx) as [H1 H2]. split; [right; exact H1|].
         intros Hs. apply H2. right. exact Hs.
Qed.

Lemma NoDup_firstn {A} (n : nat) (l : list A) :
  NoDup l -> NoDup (firstn n l).
Proof.
revert l. induction n as [|n IH]; intros [|x l] H; cbn [firstn];
  try constructor.
- inversion H as [|? ? Hx Hl]; subst. intros Hin. apply Hx.
  eapply In_firstn. exact Hin.
- inversion H; subst. auto.
Qed.

(** X9.  [extract_education] returns at most three different segments
    joined by " | "; each is a line of the text, stripped, that holds an
    education keyword in any case and has more than ten characters. *)
Theorem extract_education_segments (text : str) :
  exists segments,
    extract_education text = join " | " segments
    /\ length segments <= 3
    /\ NoDup segments
    /\ forall seg, In seg segments ->
         10 < length seg
         /\ exists line, In line (split_on LF text)
                         /\ seg = strip line
                         /\ any_keyword EDUCATION_KEYWORDS line = true.
Proof.
unfold extract_education.
set (lines := split_on LF text).
set (section := match find_section lines with
                | Some sec => flat_map (fun l => l ++ nl) sec
                | None => []
                end).
set (education_lines := if nonempty section
                        then keep_education_lines (split_on LF section)
                        else keep_education_lines lines).
exists (firstn 3 (unique [] education_lines)).
split; [reflexivity|]. split; [apply firstn_le_length|].
destruct (unique_spec education_lines []) as [Hnd Hin].
split; [apply NoDup_firstn, Hnd|].
intros seg Hseg. apply In_firstn in Hseg. apply Hin in Hseg as [Hseg _].
assert (Hfrom : exists line, In line lines /\ seg = strip line
                             /\ any_keyword EDUCATION_KEYWORDS line = true
                             /\ 10 < length seg).
{ unfold education_lines in Hseg.
  destruct (nonempty section) eqn:En;
    [|apply keep_education_lines_In; exact Hseg].
  apply keep_education_lines_In in Hseg as (line & Hl & Hs & Hk & Hlen).
  unfold section in Hl, En.
  destruct (find_section lines) as [sec|] eqn:Ef; [|discriminate En].
  rewrite split_on_lines in Hl.
  - apply in_app_or in Hl as [Hl|[<-|[]]].
    + exists line. repeat split; auto.
      eapply find_section_lines; eauto.
    + subst seg. cbn in Hlen. lia.
  - intros l Hlsec. apply (split_on_no_sep LF text).
    eapply find_section_lines; eauto. }
destruct Hfrom as (line & Hl & Hs & Hk & Hlen). eauto 6.
Qed.
End NameEducation.

(** ** CVParser: what the extraction returns *)

Section ParserMore.
Import CVParser.
Variable L : Libs.

(** X10.  A DOCX that python-docx opens gives its paragraphs in order,
    then the cells of its tables row by row, each followed by a
    newline; nothing is printed on the way, so the standard output has
    no say. *)
Theorem extract_text_from_docx_text (file_path : str) (doc : docx_document)
  (Havailable : DOCX_AVAILABLE L = true)
  (Hopen : docx_Document L file_path = Return doc) :
  extract_text_from_docx L file_path = Return (document_text doc).
Proof.
unfold extract_text_from_docx, method_docx, run_body.
rewrite Havailable, bind_run. cbn [when].
unfold try_except. rewrite bind_run. unfold call at 1. rewrite Hopen.
rewrite document_run. reflexivity.
Qed.

(** X11.  When pdfplumber opens the file, every page returns, the text
    gathered is not blank, and the standard output takes every line,
    [extract_text_from_pdf] returns that text: PyPDF2 and pdfminer have
    no say. *)
Theorem extract_text_from_pdf_first_method (file_path : str)
  (pages : list page)
  (Hout : accepts_all L)
  (Havailable : PDFPLUMBER_AVAILABLE L = true)
  (Hopen : pdfplumber_open L file_path = Return pages)
  (Hpages : returns_all pages)
  (Htext : nonempty (strip (pages_text pages)) = true) :
  extract_text_from_pdf L file_path = Return (pages_text pages).
Proof.
rewrite (extract_text_from_pdf_run Hout). cbn [first_to_give].
unfold pdfplumber_strategy, by_pages, breaks.
rewrite Havailable, Hopen.
destruct (readable_all Hpages) as [-> ->]. cbn [app negb andb].
rewrite Htext. reflexivity.
Qed.

(** X12.  When pdfplumber raises in the middle of the pages, the text
    of the pages before stays in front: if PyPDF2 then reads all its
    pages and the whole is not blank, the result is the text of those
    first pages followed by all of PyPDF2's. *)
Theorem extract_text_from_pdf_keeps_partial_text (file_path : str)
  (good more pages2 : list page) (e : exn)
  (Hout : accepts_all L)
  (Havailable1 : PDFPLUMBER_AVAILABLE L = true)
  (Hopen1 : pdfplumber_open L file_path = Return (good ++ Raise e :: more))
  (Hgood : returns_all good)
  (Havailable2 : PYPDF2_AVAILABLE L = true)
  (Hopen2 : PyPDF2_PdfReader L file_path = Return pages2)
  (Hpages2 : returns_all pages2)
  (Htext : nonempty (strip (pages_text good ++ pages_text pages2)) = true) :
  extract_text_from_pdf L file_path
  = Return (pages_text good ++ pages_text pages2).
Proof.
rewrite (extract_text_from_pdf_run Hout). cbn [first_to_give].
unfold pdfplumber_strategy, pypdf2_strategy, by_pages, breaks.
rewrite Havailable1, Hopen1, Havailable2, Hopen2.
destruct (readable_until more e Hgood) as [-> ->].
destruct (readable_all Hpages2) as [-> ->]. cbn [app negb andb].
rewrite Htext. reflexivity.
Qed.

(** X25.  On a standard output in ASCII the check mark of "Used
    pdfplumber" cannot be printed: the exception of [print] lands in
    the handler of the block, which reports "pdfplumber failed", and so
    a PDF that pdfplumber has read in full goes on to PyPDF2, whose
    pages are added to the text that is there already.  With pdfminer
    missing the result holds every page twice. *)
Theorem extract_text_from_pdf_doubles_on_ascii (file_path : str)
  (pages pages2 : list page)
  (Hout : stdout L = ascii_only)
  (Havailable1 : PDFPLUMBER_AVAILABLE L = true)
  (Hopen1 : pdfplumber_open L file_path = Return pages)
  (Hpages : returns_all pages)
  (Htext : nonempty (strip (pages_text pages)) = true)
  (Havailable2 : PYPDF2_AVAILABLE L = true)
  (Hopen2 : PyPDF2_PdfReader L file_path = Return pages2)
  (Hpages2 : returns_all pages2)
  (Htext2 : nonempty (strip (pages_text pages ++ pages_text pages2)) = true)
  (Hmissing : PDFMINER_AVAILABLE L = false) :
  extract_text_from_pdf L file_path
  = Return (pages_text pages ++ pages_text pages2).
Proof.
unfold extract_text_from_pdf, run_body, method_pdfplumber, method_pypdf2,
  method_pdfminer.
rewrite Havailable1, Havailable2, Hmissing. cbn [when].
assert (Hblock : forall (opened : list page) (library what : string) text,
          returns_all opened ->
          nonempty (strip (text ++ pages_text opened)) = true ->
          forallb (fun c => (c <? 128)%N)
                  (codes (of_string what
                          +++ "'ascii' codec can't encode character: ordinal not in range(128)"))
          = true ->
          try_except
            (pdf <- call (Return opened) ;; add_pages pdf ;;;
             return_if_text L library)
            (report L what) text
          = (Normal tt, text ++ pages_text opened)).
{ intros opened library what text Hall Hne Hascii.
  unfold try_except. rewrite bind_run. unfold call at 1.
  rewrite bind_run, (add_pages_run L).
  destruct (readable_all Hall) as [-> ->].
  unfold return_if_text. rewrite bind_run. unfold get_text.
  rewrite Hne. cbn [when]. rewrite bind_run.
  unfold report, print, call. rewrite Hout. unfold ascii_only.
  cbn [forallb]. change (check_mark <? 128)%N with false.
  cbn [andb str_of_exn]. rewrite Hascii. reflexivity. }
rewrite bind_run, Hopen1, (Hblock pages) by
  (assumption || (vm_compute; reflexivity)).
cbn [app].
rewrite bind_run, Hopen2, (Hblock pages2) by
  (assumption || (vm_compute; reflexivity)).
rewrite bind_run. unfold skip, ret.
rewrite bind_run. unfold suggest_ocr. rewrite bind_run. unfold get_text.
rewrite Htext2. reflexivity.
Qed.
End ParserMore.

Lemma extract_text_from_docx_text_witness :
  CVParser.extract_text_from_docx (docx_only john_smith_docx) "cv.docx"
  = Return (document_text john_smith_docx).
Proof.
apply extract_text_from_docx_text; reflexivity.
Defined.

Lemma extract_text_from_pdf_first_method_witness :
  CVParser.extract_text_from_pdf
    (two_readers [Return (Some (of_string "Jane Doe")); Return None]
                 [Return (Some (of_string "other"))])
    "cv.pdf"
  = Return ("Jane Doe" +++ nl).
Proof.
apply (@extract_text_from_pdf_first_method
         (two_readers [Return (Some (of_string "Jane Doe")); Return None]
                      [Return (Some (of_string "other"))])
         "cv.pdf"
         [Return (Some (of_string "Jane Doe")); Return None]).
- intros l. reflexivity.
- reflexivity.
- reflexivity.
- intros pg [<-|[<-|[]]]; eexists; reflexivity.
- vm_compute. reflexivity.
Defined.

Lemma extract_text_from_pdf_keeps_partial_text_witness :
  CVParser.extract_text_from_pdf
    (two_readers [Return (Some (of_string "page one"));
                  Raise (LibraryError "broken")]
                 [Return (Some (of_string "page one"));
                  Return (Some (of_string "page two"))])
    "cv.pdf"
  = Return ("page one" +++ nl +++ "page one" +++ nl +++ "page two" +++ nl).
Proof.
apply (@extract_text_from_pdf_keeps_partial_text
         (two_readers [Return (Some (of_string "page one"));
                       Raise (LibraryError "broken")]
                      [Return (Some (of_string "page one"));
                       Return (Some (of_string "page two"))])
         "cv.pdf"
         [Return (Some (of_string "page one"))] []
         [Return (Some (of_string "page one"));
          Return (Some (of_string "page two"))]
         (LibraryError "broken")).
- intros l. reflexivity.
- reflexivity.
- reflexivity.
- intros pg [<-|[]]; eexists; reflexivity.
- reflexivity.
- reflexivity.
- intros pg [<-|[<-|[]]]; eexists; reflexivity.
- vm_compute. reflexivity.
Defined.

Lemma extract_text_from_pdf_doubles_on_ascii_witness :
  CVParser.extract_text_from_pdf
    (readers_on_ascii [Return (Some (of_string "page one"))]
                      [Return (Some (of_string "page one"))])
    "cv.pdf"
  = Return ("page one" +++ nl +++ "page one" +++ nl).
Proof.
apply (@extract_text_from_pdf_doubles_on_ascii
         (readers_on_ascii [Return (Some (of_string "page one"))]
                           [Return (Some (of_string "page one"))])
         "cv.pdf"
         [Return (Some (of_string "page one"))]
         [Return (Some (of_string "page one"))]).
- reflexivity.
- reflexivity.
- reflexivity.
- intros pg [<-|[]]; eexists; reflexivity.
- vm_compute. reflexivity.
- reflexivity.
- reflexivity.
- intros pg [<-|[]]; eexists; reflexivity.
- vm_compute. reflexivity.
- reflexivity.
Defined.

(** ** clean_extracted_text: the shape of the result and the empty
    result *)

Lemma squeeze_length (s : str) : forall b, length (squeeze b s) <= length s.
Proof.
induction s as [|c tl IH]; intros b; cbn [squeeze length]; [lia|].
destruct (is_space c); [destruct b|]; cbn [length];
  [specialize (IH true)|specialize (IH true)|specialize (IH false)]; lia.
Qed.

Lemma lstrip_length (s : str) : length (lstrip s) <= length s.
Proof.
destruct (lstrip_split s) as (run & E & _). rewrite E at 2.
rewrite length_app. lia.
Qed.

Lemma strip_length (s : str) : length (strip s) <= length s.
Proof.
unfold strip. destruct (rstrip_split (lstrip s)) as (run & E & _).
pose proof (lstrip_length s). rewrite E in H. rewrite length_app in H. lia.
Qed.

(** X13.  The text that [clean_extracted_text] returns is made of
    white-listed characters, its only whitespace is the space, it has no
    whitespace at either end, and it is no longer than the input. *)
Theorem clean_extracted_text_result (x : str) :
  let y := CVParser.clean_extracted_text x in
  Forall (fun c => whitelisted c = true) y
  /\ (forall c, In c y -> is_space c = true -> c = SP)
  /\ strip y = y
  /\ length y <= length x.
Proof.
intros y. split; [apply clean_whitelisted|].
split.
{ unfold y. rewrite clean_formula. intros c Hc Hs. apply strip_In in Hc.
  destruct (core_chars _ _ Hc) as [->|[Hn _]]; [reflexivity|congruence]. }
split; [apply clean_strip_fixed|].
unfold y. rewrite clean_formula.
pose proof (strip_length (core x)) as H1.
unfold core in *. rewrite length_map in H1.
pose proof (squeeze_length x false). lia.
Qed.

Lemma lstrip_all_space (s : str) :
  Forall (fun c => is_space c = true) s -> lstrip s = [].
Proof.
induction 1 as [|c tl Hc _ IH]; cbn [lstrip]; [reflexivity|].
rewrite Hc. exact IH.
Qed.

Lemma strip_all_space (s : str) :
  Forall (fun c => is_space c = true) s -> strip s = [].
Proof.
intros H. unfold strip. rewrite lstrip_all_space by exact H. reflexivity.
Qed.

Lemma strip_keeps (s : str) (c : ascii) :
  In c s -> is_space c = false -> In c (strip s).
Proof.
intros Hin Hc. unfold strip.
destruct (lstrip_split s) as (run & E & Hrun & _).
assert (H1 : In c (lstrip s)).
{ rewrite E in Hin. apply in_app_or in Hin as [Hin|Hin]; [|exact Hin].
  rewrite Forall_forall in Hrun. rewrite (Hrun c Hin) in Hc. discriminate. }
destruct (rstrip_split (lstrip s)) as (run' & E' & Hrun').
rewrite E' in H1. apply in_app_or in H1 as [H1|H1]; [exact H1|].
rewrite Forall_forall in Hrun'. rewrite (Hrun' c H1) in Hc. discriminate.
Qed.

Lemma squeeze_keeps (s : str) (c : ascii) :
  In c s -> is_space c = false -> forall b, In c (squeeze b s).
Proof.
induction s as [|a tl IH]; intros Hin Hc b; [destruct Hin|].
cbn [squeeze]. destruct Hin as [->|Hin].
- rewrite Hc. left. reflexivity.
- destruct (is_space a); [destruct b|]; cbn [In]; auto.
Qed.

Lemma clean_empty_iff (x : str) :
  CVParser.clean_extracted_text x = []
  <-> forall c, In c x -> solid c = false.
Proof.
rewrite clean_formula. split.
- intros Hempty c Hin. unfold solid.
  destruct (whitelisted c) eqn:Hw; [|reflexivity].
  destruct (is_space c) eqn:Hs; [reflexivity|]. exfalso.
  assert (Hcore : In c (core x)).
  { unfold core. apply in_map_iff. exists c. split.
    - unfold sanitize. rewrite Hw. reflexivity.
    - apply squeeze_keeps; assumption. }
  apply (strip_keeps _ _ Hcore) in Hs. rewrite Hempty in Hs. destruct Hs.
- intros Hnone. apply strip_all_space. apply Forall_forall.
  intros c Hc. unfold core in Hc. apply in_map_iff in Hc as (a & <- & Ha).
  unfold sanitize. destruct (whitelisted a) eqn:Hw; [|reflexivity].
  destruct (squeeze_chars _ _ _ Ha) as [->|[Hs Hin]]; [reflexivity|].
  specialize (Hnone a Hin). unfold solid in Hnone.
  rewrite Hw, Hs in Hnone. discriminate Hnone.
Qed.

(** X14.  [clean_extracted_text] returns the empty string exactly when
    the text holds no white-listed character other than whitespace; that
    is when [process_cv] files the candidate as "Unknown". *)
Theorem clean_extracted_text_empty_iff (x : str) :
  CVParser.clean_extracted_text x = []
  <-> forall c, In c x -> solid c = false.
Proof. exact (clean_empty_iff x). Qed.

(** ** process_cv *)

Lemma lower_idem (s : str) : lower (lower s) = lower s.
Proof.
unfold lower. rewrite map_map. apply map_ext. intros c.
apply Ascii.eqb_eq.
apply (forall_chars
         (fun c => Ascii.eqb (lower_char (lower_char c)) (lower_char c))).
vm_compute. reflexivity.
Qed.

Section ProcessCv.
Variable L : Libs.

Lemma extractors_on_empty :
  CVAnalyzer.extract_name [] = [] /\ CVAnalyzer.extract_email [] = []
  /\ CVAnalyzer.extract_phone [] = [].
Proof. split; [|split]; vm_compute; reflexivity. Qed.

(** X15.  A file whose text holds nothing that survives cleaning is
    filed as "Unknown": no skills, experience 0, the education and the
    raw text replaced by a notice, the name, email and phone as they
    were, and the candidate marked as processed. *)
Theorem process_cv_no_text (candidate_id : N) (candidate : Candidate)
  (file_path cv_file_name raw : str)
  (Hraw : CVParser.extract_text L file_path
            (lower (snd (splitext cv_file_name))) = Return raw)
  (Hnone : forall c, In c raw -> solid c = false) :
  process_cv L candidate_id candidate (Some (file_path, cv_file_name))
  = Return
      (To_candidate_detail
         {| name := name candidate; email := email candidate;
            phone := phone candidate;
            raw_text :=
              of_string "No text could be extracted. Possibly a scanned PDF.";
            skills := [];
            experience_years := CVAnalyzer.Finite 0;
            education := of_string "Could not extract education";
            category := Some (of_string "Unknown");
            is_processed := true |}).
Proof.
unfold process_cv. rewrite Hraw.
apply clean_empty_iff in Hnone. rewrite Hnone.
destruct extractors_on_empty as (Hn & He & Hp). rewrite Hn, He, Hp.
cbn [strip lstrip rstrip rev app nonempty negb].
destruct (negb (nonempty (name candidate))
          || str_eqb (name candidate) (fst (splitext cv_file_name))),
  (negb (nonempty (email candidate))), (negb (nonempty (phone candidate)));
  reflexivity.
Qed.

(** What [process_cv] saves, whatever the standard output does. *)
Lemma process_cv_saved (candidate_id : N) (candidate : Candidate)
  (file_path cv_file_name : str) (saved : Candidate) :
  process_cv L candidate_id candidate (Some (file_path, cv_file_name))
  = Return (To_candidate_detail saved) ->
  is_processed saved = true
  /\ category saved <> None
  /\ ~ In LF (raw_text saved)
  /\ (email candidate <> [] -> email saved = email candidate)
  /\ (phone candidate <> [] -> phone saved = phone candidate)
  /\ (name candidate <> [] ->
      name candidate <> fst (splitext cv_file_name) ->
      name saved = name candidate).
Proof.
unfold process_cv.
destruct (CVParser.extract_text L file_path
            (lower (snd (splitext cv_file_name)))) as [raw|e].
- set (cv_text := CVParser.clean_extracted_text raw) in *.
  set (file_stem := fst (splitext cv_file_name)).
  assert (Hkeep_e : email candidate <> [] ->
                    negb (nonempty (email candidate)) = false)
    by (destruct (email candidate); [contradiction|reflexivity]).
  assert (Hkeep_p : phone candidate <> [] ->
                    negb (nonempty (phone candidate)) = false)
    by (destruct (phone candidate); [contradiction|reflexivity]).
  assert (Hkeep_n : name candidate <> [] -> name candidate <> file_stem ->
                    negb (nonempty (name candidate))
                    || str_eqb (name candidate) file_stem = false).
  { intros H1 H2. destruct (name candidate) eqn:En; [contradiction|].
    cbn [nonempty negb orb]. rewrite <- En in *.
    destruct (str_eqb (name candidate) file_stem) eqn:Es; [|reflexivity].
    apply str_eqb_eq in Es. contradiction. }
  destruct (nonempty (strip cv_text)) eqn:Ht;
    intros [= <-]; cbn [is_processed category raw_text email phone name].
  + repeat split; try discriminate.
    * apply clean_no_newline.
    * intros H. rewrite (Hkeep_e H). reflexivity.
    * intros H. rewrite (Hkeep_p H). reflexivity.
    * intros H1 H2. rewrite (Hkeep_n H1 H2). reflexivity.
  + repeat split; try discriminate.
    * vm_compute. intuition discriminate.
    * intros H. rewrite (Hkeep_e H). reflexivity.
    * intros H. rewrite (Hkeep_p H). reflexivity.
    * intros H1 H2. rewrite (Hkeep_n H1 H2). reflexivity.
- destruct (stdout L _); discriminate.
Qed.

(** X16.  On a standard output that takes every line [process_cv]
    always answers: from its handler, with nothing saved, exactly when
    the extension of the stored file is neither ".pdf" nor ".docx" in
    any case, and with a saved candidate otherwise.  A saved candidate
    is processed and has a category, the stored text holds no newline,
    an email or a phone number that was there is kept, and so is a name
    that is neither empty nor the stem of the stored file name. *)
Theorem process_cv_outcome (Hout : accepts_all L) (candidate_id : N)
  (candidate : Candidate) (file_path cv_file_name : str) :
  let ext := lower (snd (splitext cv_file_name)) in
  let answer :=
    process_cv L candidate_id candidate (Some (file_path, cv_file_name)) in
  ((exists e, answer = Return (To_process_cv e))
   <-> ext <> ".pdf" /\ ext <> ".docx")
  /\ ((exists saved, answer = Return (To_candidate_detail saved))
      <-> ext = ".pdf" \/ ext = ".docx")
  /\ forall saved,
       answer = Return (To_candidate_detail saved) ->
       is_processed saved = true
       /\ category saved <> None
       /\ ~ In LF (raw_text saved)
       /\ (email candidate <> [] -> email saved = email candidate)
       /\ (phone candidate <> [] -> phone saved = phone candidate)
       /\ (name candidate <> [] ->
           name candidate <> fst (splitext cv_file_name) ->
           name saved = name candidate).
Proof.
cbv zeta.
split; [|split; [|apply process_cv_saved]].
- destruct (extract_text_raises_or_returns Hout file_path
              (lower (snd (splitext cv_file_name))))
    as [(Hsup & raw & Hraw)|(Hunsup & e & He)]; rewrite lower_idem in *;
    unfold process_cv.
  + rewrite Hraw. split.
    * intros [e He].
      destruct (nonempty (strip (CVParser.clean_extracted_text raw)));
        discriminate He.
    * intros [H1 H2]. destruct Hsup; contradiction.
  + rewrite He, Hout. split; [intros _; exact Hunsup|eauto].
- destruct (extract_text_raises_or_returns Hout file_path
              (lower (snd (splitext cv_file_name))))
    as [(Hsup & raw & Hraw)|(Hunsup & e & He)]; rewrite lower_idem in *;
    unfold process_cv.
  + rewrite Hraw. split; [intros _; exact Hsup|]. intros _.
    destruct (nonempty (strip (CVParser.clean_extracted_text raw)));
      eauto.
  + rewrite He, Hout. split; [intros [saved H]; discriminate H|].
    intros [H|H]; destruct Hunsup; contradiction.
Qed.
End ProcessCv.

Lemma process_cv_no_text_witness :
  process_cv all_raise 7 (uploaded "scan")
             (Some (of_string "media/cvs/scan.PDF", of_string "cvs/scan.PDF"))
  = Return
      (To_candidate_detail
         {| name := of_string "scan"; email := []; phone := [];
            raw_text :=
              of_string "No text could be extracted. Possibly a scanned PDF.";
            skills := [];
            experience_years := CVAnalyzer.Finite 0;
            education := of_string "Could not extract education";
            category := Some (of_string "Unknown");
            is_processed := true |}).
Proof.
apply (@process_cv_no_text all_raise 7 (uploaded "scan")
         "media/cvs/scan.PDF" "cvs/scan.PDF" []).
- vm_compute. reflexivity.
- intros c [].
Defined.

Lemma process_cv_outcome_witness :
  accepts_all (docx_only john_smith_docx)
  /\ forall saved,
    process_cv (docx_only john_smith_docx) 7
               {| name := of_string "J. Smith";
                  email := of_string "js@work.example"; phone := [];
                  raw_text := []; skills := [];
                  experience_years := CVAnalyzer.Finite 0;
                  education := []; category := None; is_processed := false |}
               (Some (of_string "media/cvs/cv.docx", of_string "cvs/cv.docx"))
    = Return (To_candidate_detail saved) ->
    email saved = "js@work.example" /\ name saved = "J. Smith".
Proof.
assert (Hout : accepts_all (docx_only john_smith_docx))
  by (intros l; reflexivity).
split; [exact Hout|].
intros saved Hsaved.
destruct (@process_cv_outcome (docx_only john_smith_docx) Hout 7
            {| name := of_string "J. Smith";
               email := of_string "js@work.example"; phone := [];
               raw_text := []; skills := [];
               experience_years := CVAnalyzer.Finite 0;
               education := []; category := None; is_processed := false |}
            "media/cvs/cv.docx" "cvs/cv.docx") as (_ & _ & H).
destruct (H saved Hsaved) as (_ & _ & _ & He & _ & Hn).
split; [apply He; discriminate|apply Hn; vm_compute; discriminate].
Defined.

(** ** The methods of [Candidate] and the views that use them *)

Section ModelsViews.

Lemma split_on_piece (sep : ascii) (l tail : str) :
  ~ In sep l -> split_on sep (l ++ sep :: tail) = l :: split_on sep tail.
Proof.
induction l as [|c l IH]; intros Hl; cbn [app split_on].
- rewrite Ascii.eqb_refl. reflexivity.
- destruct (Ascii.eqb c sep) eqn:E.
  + apply Ascii.eqb_eq in E. subst. exfalso. apply Hl. left. reflexivity.
  + rewrite IH; [reflexivity|]. intros H. apply Hl. right. exact H.
Qed.

(** Splitting what [join] put together gives the pieces back. *)
Lemma split_on_join (sep : ascii) (l : list str) :
  l <> [] -> (forall x, In x l -> ~ In sep x) ->
  split_on sep (join [sep] l) = l.
Proof.
induction l as [|x l IH]; intros Hne Hl; [contradiction|].
destruct l as [|y l].
- cbn [join]. apply split_on_absent. apply Hl. left. reflexivity.
- change (join [sep] (x :: y :: l)) with (x ++ sep :: join [sep] (y :: l)).
  rewrite split_on_piece by (apply Hl; left; reflexivity).
  rewrite IH; [reflexivity|discriminate|].
  intros z Hz. apply Hl. right. exact Hz.
Qed.

Lemma get_skills_list_plain (c : Candidate) (l : list str) :
  skills c = join "," l -> (forall x, In x l -> plain_skill x) ->
  Models.get_skills_list c = l.
Proof.
intros Hs Hl. unfold Models.get_skills_list. rewrite Hs.
destruct l as [|x l]; [reflexivity|].
assert (Hne : nonempty (join "," (x :: l)) = true).
{ destruct (Hl x (or_introl eq_refl)) as (Hx & _).
  destruct x as [|c0 x]; [contradiction|].
  destruct l; reflexivity. }
rewrite Hne.
change (of_string ",") with [","%char].
rewrite split_on_join; [|discriminate|intros z Hz; apply (Hl z Hz)].
clear Hs Hne. induction (x :: l) as [|z zs IH]; [reflexivity|].
cbn [map]. rewrite IH by (intros w Hw; apply Hl; right; exact Hw).
destruct (Hl z (or_introl eq_refl)) as (_ & _ & ->). reflexivity.
Qed.

Lemma keys_plain : forall x, In x keys -> plain_skill x.
Proof.
intros x Hx.
assert (Hall : forallb (fun x => nonempty x
                                 && negb (existsb (Ascii.eqb ",") x)
                                 && str_eqb (strip x) x) keys = true)
  by (vm_compute; reflexivity).
rewrite forallb_forall in Hall. specialize (Hall x Hx).
apply andb_prop in Hall as [Hall H3]. apply andb_prop in Hall as [H1 H2].
repeat split.
- destruct x; [discriminate H1|discriminate].
- intros Hin. apply negb_true_iff in H2.
  assert (existsb (Ascii.eqb ",") x = true); [|congruence].
  apply existsb_exists. exists ","%char. split; [exact Hin|].
  apply Ascii.eqb_refl.
- apply str_eqb_eq. exact H3.
Qed.

(** X17.  The views store the skills as [','.join(skills)] and
    [get_skills_list] splits them again: for the skills that
    [extract_skills] finds in any text, what is read back is the list
    that was found. *)
Theorem get_skills_list_reads_back (c : Candidate) (text : str)
  (Hstored : skills c = join "," (CVAnalyzer.extract_skills text)) :
  Models.get_skills_list c = CVAnalyzer.extract_skills text.
Proof.
apply get_skills_list_plain; [exact Hstored|].
intros x Hx. apply keys_plain. apply (extract_skills_keys text). exact Hx.
Qed.

Lemma get_skills_list_reads_back_witness :
  Models.get_skills_list
    (with_skills (CVAnalyzer.extract_skills "I know Java and JavaScript"))
  = CVAnalyzer.extract_skills "I know Java and JavaScript".
Proof.
apply get_skills_list_reads_back. reflexivity.
Defined.

(** X18.  For an experience of 0 or more, infinity included, the four
    values of the dashboard's experience filter cut the candidates as
    [get_experience_level] names them: "fresher" keeps the level
    "Fresher", "junior" the level "Junior", "mid" the level "Mid-Level"
    and "senior" the level "Senior". *)
Theorem experience_filter_matches_level (c : Candidate)
  (Hnonneg : CVAnalyzer.ge (experience_years c) 0 = true) :
  (experience_filter (Some (of_string "fresher")) c = true
   <-> Models.get_experience_level c = "Fresher")
  /\ (experience_filter (Some (of_string "junior")) c = true
      <-> Models.get_experience_level c = "Junior")
  /\ (experience_filter (Some (of_string "mid")) c = true
      <-> Models.get_experience_level c = "Mid-Level")
  /\ (experience_filter (Some (of_string "senior")) c = true
      <-> Models.get_experience_level c = "Senior").
Proof.
unfold experience_filter, Models.get_experience_level.
destruct (experience_years c) as [e| | |]; cbn [CVAnalyzer.ge] in Hnonneg;
  try discriminate Hnonneg;
  [|vm_compute; repeat split; intros H; (reflexivity || discriminate H)].
cbn [CVAnalyzer.eq_num CVAnalyzer.lt CVAnalyzer.ge CVAnalyzer.greater].
change (inject_Z 0) with 0%Q in *. change (inject_Z 3) with 3%Q.
change (inject_Z 7) with 7%Q.
assert (Hz : Qle_bool e 0 = Qeq_bool e 0).
{ destruct (Qeq_bool e 0) eqn:Ez.
  - apply Qeq_bool_iff in Ez. apply Qle_bool_iff. rewrite Ez. apply Qle_refl.
  - destruct (Qle_bool e 0) eqn:El; [|reflexivity].
    apply Qle_bool_iff in El. apply Qle_bool_iff in Hnonneg.
    assert (e == 0)%Q by (apply Qle_antisym; assumption).
    apply Qeq_bool_iff in H. congruence. }
assert (H03 : Qeq_bool e 0 = true -> Qle_bool 3 e = false).
{ intros Ez. apply Qeq_bool_iff in Ez.
  destruct (Qle_bool 3 e) eqn:E3; [|reflexivity].
  apply Qle_bool_iff in E3. rewrite Ez in E3. exfalso.
  revert E3. apply Qlt_not_le. reflexivity. }
assert (H73 : Qle_bool 7 e = true -> Qle_bool 3 e = true).
{ intros E7. apply Qle_bool_iff in E7. apply Qle_bool_iff.
  eapply Qle_trans; [|exact E7]. discriminate. }
rewrite Hz.
destruct (Qeq_bool e 0) eqn:Ez, (Qle_bool 3 e) eqn:E3,
         (Qle_bool 7 e) eqn:E7;
  try (specialize (H03 eq_refl); discriminate H03);
  try (specialize (H73 eq_refl); discriminate H73);
  vm_compute; repeat split; intros H; (reflexivity || discriminate H).
Qed.

Lemma experience_filter_matches_level_witness :
  experience_filter (Some (of_string "junior")) (with_experience 2) = true
  /\ Models.get_experience_level (with_experience 2) = "Junior".
Proof.
destruct (experience_filter_matches_level (with_experience 2))
  as (_ & [H _] & _); [reflexivity|].
split; [reflexivity|]. apply H. reflexivity.
Defined.
End ModelsViews.

(** ** upload_cv *)

Section Upload.

Lemma supportedb_iff (ext : str) : supportedb ext = true <-> supported ext.
Proof.
unfold supportedb, supported. rewrite orb_true_iff, !str_eqb_eq. tauto.
Qed.

Lemma allowed_iff (ext : str) :
  CVAnalyzer.mem (lower ext) allowed_extensions = true <-> supported ext.
Proof.
rewrite mem_In. unfold allowed_extensions, supported. cbn [map In].
split; [intros [H|[H|[]]]; auto|intros [H|H]; auto].
Qed.

Lemma splitext_root_nonempty (p : str) :
  snd (splitext p) <> [] -> fst (splitext p) <> [].
Proof.
unfold splitext.
destruct (rfind "." p) as [d|]; [|intros H; contradiction H; reflexivity].
set (a := match rfind "/" p with
          | Some sepIndex => S sepIndex
          | None => 0
          end).
destruct ((a <=? d)
          && existsb (fun c => negb (Ascii.eqb c "."))
                     (firstn (d - a) (skipn a p))) eqn:E;
  [|intros H; contradiction H; reflexivity].
intros _ Hroot. cbn [fst] in Hroot. apply andb_prop in E as [_ E].
apply existsb_exists in E as (c & Hc & _).
destruct d as [|d]; [destruct Hc|].
destruct p as [|x p]; [|discriminate Hroot].
rewrite skipn_nil, firstn_nil in Hc. destruct Hc.
Qed.

Lemma lower_nonempty (s : str) : lower s <> [] -> s <> [].
Proof. intros H ->. apply H. reflexivity. Qed.

Lemma upload_cv_spec (name_field : str) (cv_file : option uploaded_file)
  (c : Candidate) :
  upload_cv name_field cv_file = Saved c <->
  exists f,
    cv_file = Some f /\ file_name f <> []
    /\ supported (snd (splitext (file_name f)))
    /\ (file_size f <= ten_megabytes)%N
    /\ c = uploaded (if nonempty (strip name_field) then strip name_field
                     else fst (splitext (file_name f))).
Proof.
unfold upload_cv. destruct cv_file as [f|].
- unfold no_file.
  destruct (nonempty (file_name f)) eqn:Hn; cbn [negb].
  + destruct (CVAnalyzer.mem (lower (snd (splitext (file_name f))))
                allowed_extensions) eqn:Hm; cbn [negb].
    * destruct (10 * 1024 * 1024 <? file_size f)%N eqn:Hs.
      -- split; [discriminate|].
         intros (f' & [= <-] & _ & _ & Hle & _).
         apply N.ltb_lt in Hs. unfold ten_megabytes in Hle. lia.
      -- split.
         ++ intros [= <-]. exists f. split; [reflexivity|].
            split; [intros E; rewrite E in Hn; discriminate Hn|].
            split; [apply allowed_iff; exact Hm|].
            split; [|reflexivity].
            apply N.ltb_ge in Hs. exact Hs.
         ++ intros (f' & [= <-] & _ & _ & _ & ->). reflexivity.
    * split; [discriminate|].
      intros (f' & [= <-] & _ & Hsup & _).
      apply allowed_iff in Hsup. rewrite Hsup in Hm. discriminate Hm.
  + split; [discriminate|].
    intros (f' & [= <-] & Hne & _).
    destruct (file_name f); [contradiction Hne; reflexivity|discriminate Hn].
- split; [discriminate|]. intros (f & Hf & _). discriminate Hf.
Qed.

Lemma uploaded_name_nonempty (name_field : str) (f : uploaded_file) :
  supported (snd (splitext (file_name f))) ->
  (if nonempty (strip name_field) then strip name_field
   else fst (splitext (file_name f))) <> [].
Proof.
intros Hsup. destruct (nonempty (strip name_field)) eqn:Hn.
- intros E. rewrite E in Hn. discriminate Hn.
- apply splitext_root_nonempty. apply lower_nonempty.
  destruct Hsup as [E|E]; rewrite E; discriminate.
Qed.



(** *** The name that an upload without a name gets *)

Lemma rfind_go_shift (c : ascii) (s : str) :
  forall i last,
    rfind_go c s i last
    = match rfind_go c s 0 None with
      | Some j => Some (i + j)
      | None => last
      end.
Proof.
induction s as [|x tl IH]; intros i last; cbn [rfind_go]; [reflexivity|].
rewrite (IH (S i)), (IH 1).
destruct (rfind_go c tl 0 None) as [j|]; [f_equal; lia|].
destruct (Ascii.eqb x c); [f_equal; lia|reflexivity].
Qed.

Lemma rfind_cons (c x : ascii) (s : str) :
  rfind c (x :: s)
  = match rfind c s with
    | Some j => Some (S j)
    | None => if Ascii.eqb x c then Some 0 else None
    end.
Proof.
unfold rfind. cbn [rfind_go]. rewrite rfind_go_shift.
destruct (rfind_go c s 0 None); reflexivity.
Qed.

Lemma rfind_after (c : ascii) (pre s : str) (k : nat) :
  rfind c pre = Some k ->
  exists j, rfind c (pre ++ s) = Some j /\ k <= j.
Proof.
revert k. induction pre as [|x pre IH]; intros k; [discriminate|].
cbn [app]. rewrite !rfind_cons.
destruct (rfind c pre) as [j|] eqn:E.
- intros [= <-]. destruct (IH j eq_refl) as (j' & -> & Hj).
  exists (S j'). split; [reflexivity|lia].
- destruct (Ascii.eqb x c); [|discriminate]. intros [= <-].
  destruct (rfind c (pre ++ s)) as [j'|]; eexists; split;
    try reflexivity; lia.
Qed.

(** The stem of a stored name keeps the directory of the storage in
    front. *)
Lemma stem_under_cvs (rest : str) :
  In "/"%char (fst (splitext ("cvs/" +++ rest))).
Proof.
assert (Hp : In "/"%char ("cvs/" +++ rest))
  by (right; right; right; left; reflexivity).
unfold splitext, cat in *.
destruct (rfind "." (of_string "cvs/" ++ rest)) as [d|]; [|exact Hp].
destruct (@rfind_after "/" "cvs/" rest 3 eq_refl) as (j & -> & Hj).
destruct ((S j <=? d) && _) eqn:E; [|exact Hp].
apply andb_prop in E as [E _]. apply Nat.leb_le in E. cbn [fst].
destruct d as [|[|[|[|d]]]]; try lia.
right. right. right. left. reflexivity.
Qed.

Lemma stem_of_basename (n : str) :
  ~ In "/"%char n -> ~ In "/"%char (fst (splitext n)).
Proof.
intros Hn. unfold splitext.
destruct (rfind "." n) as [d|]; [|exact Hn].
destruct (_ && _); [|exact Hn].
cbn [fst]. intros H. apply Hn. eapply In_firstn. exact H.
Qed.

(** X26.  An upload without a name is named after the file, and that
    name stays: [process_cv] looks for the name in the CV only when the
    candidate has none or is named after the stem of the stored file,
    and the stored file has the directory "cvs/" of the storage in
    front, which the name of an uploaded file never has. *)
Theorem process_cv_keeps_default_name (name_field : str) (f : uploaded_file)
  (c : Candidate)
  (Hblank : strip name_field = [])
  (Hbase : ~ In "/"%char (file_name f))
  (Hupload : upload_cv name_field (Some f) = Saved c) :
  name c = fst (splitext (file_name f))
  /\ forall (L : Libs) (candidate_id : N) (file_path rest : str)
            (saved : Candidate),
       process_cv L candidate_id c (Some (file_path, "cvs/" +++ rest))
       = Return (To_candidate_detail saved) ->
       name saved = fst (splitext (file_name f)).
Proof.
apply upload_cv_spec in Hupload as (f' & [= <-] & Hne & Hsup & _ & ->).
pose proof (uploaded_name_nonempty name_field f Hsup) as Hname.
rewrite Hblank in *. cbn [nonempty uploaded name] in *.
split; [reflexivity|].
intros L candidate_id file_path rest saved Hsaved.
apply process_cv_saved in Hsaved as (_ & _ & _ & _ & _ & Hkeep).
cbn [uploaded name] in Hkeep. apply Hkeep; [exact Hname|].
intros E. apply (@stem_of_basename (file_name f) Hbase). rewrite E.
apply stem_under_cvs.
Qed.

Lemma process_cv_keeps_default_name_witness :
  upload_cv [] (Some (UploadedFile "cv.docx" 20480)) = Saved (uploaded "cv")
  /\ forall saved,
       process_cv (docx_only john_smith_docx) 1 (uploaded "cv")
                  (Some (of_string "media/cvs/cv.docx",
                         of_string "cvs/cv.docx"))
       = Return (To_candidate_detail saved) ->
       name saved = "cv".
Proof.
assert (H : upload_cv [] (Some (UploadedFile "cv.docx" 20480))
            = Saved (uploaded "cv")) by (vm_compute; reflexivity).
split; [exact H|].
intros saved Hsaved.
destruct (@process_cv_keeps_default_name [] (UploadedFile "cv.docx" 20480)
            (uploaded "cv") eq_refl) as [_ Hkeep].
- vm_compute. intuition discriminate.
- exact H.
- exact (Hkeep (docx_only john_smith_docx) 1%N
               (of_string "media/cvs/cv.docx") (of_string "cv.docx")
               saved Hsaved).
Defined.

End Upload.

(** ** categorize_candidates *)

Section Bulk.
Variable L : Libs.

Lemma categorize_one_saved (s : stored) (candidate : Candidate)
  (failed : bool) :
  categorize_one L s = Return (candidate, failed) ->
  is_processed candidate = true
  /\ identity (Stored (candidate_id s) candidate (cv_file s)) = identity s.
Proof.
unfold categorize_one, identity.
destruct (cv_file s) as [[path fname]|] eqn:Hf; cbn [row cv_file].
- destruct (CVParser.extract_text L path (lower (snd (splitext fname))))
    as [t|e].
  + destruct (nonempty (strip t)); intros [= <- <-]; cbn; auto.
  + destruct (stdout L _); intros [= <- <-]; cbn; auto.
- intros [= <- <-]. cbn. auto.
Qed.

(** What the loop does, whatever the standard output. *)
Lemma categorize_loop_spec (rows : list stored) (c e : nat) :
  let r := categorize_loop L rows c e in
  map identity (table r) = map identity rows
  /\ Forall2 (fun s s' => pending s = false -> s' = s) rows (table r)
  /\ (raised r = None ->
      Forall (fun s => is_processed (row s) = true) (table r)
      /\ categorized_count r + error_count r = c + e + count pending rows).
Proof.
revert c e. induction rows as [|s tl IH]; intros c e; cbn zeta.
- cbn. split; [reflexivity|]. split; [constructor|]. intros _.
  split; [constructor|lia].
- cbn [categorize_loop]. unfold count, pending in *. cbn [filter].
  destruct (is_processed (row s)) eqn:Hp; cbn [negb].
  + destruct (IH c e) as (H1 & H2 & H3).
    cbn [table categorized_count error_count raised map].
    split; [rewrite H1; reflexivity|].
    split; [constructor; [reflexivity|exact H2]|].
    intros Hr. destruct (H3 Hr) as [H4 H5].
    split; [constructor; assumption|exact H5].
  + destruct (categorize_one L s) as [[candidate failed]|e'] eqn:E.
    * destruct (categorize_one_saved s E) as [Hproc Hid].
      assert (Hrest : forall c' e', c' + e' = S (c + e) ->
                let r := categorize_loop L tl c' e' in
                map identity (Stored (candidate_id s) candidate (cv_file s)
                              :: table r)
                = map identity (s :: tl)
                /\ Forall2 (fun s s' => negb (is_processed (row s)) = false
                                        -> s' = s)
                           (s :: tl)
                           (Stored (candidate_id s) candidate (cv_file s)
                            :: table r)
                /\ (raised r = None ->
                    Forall (fun s => is_processed (row s) = true)
                           (Stored (candidate_id s) candidate (cv_file s)
                            :: table r)
                    /\ categorized_count r + error_count r
                       = c + e + length (s :: filter
                                          (fun s => negb (is_processed (row s)))
                                          tl))).
      { intros c' e' Hce. cbn zeta. destruct (IH c' e') as (H1 & H2 & H3).
        cbn [map]. split; [rewrite H1, Hid; reflexivity|].
        split.
        - constructor; [|exact H2].
          intros Hx. rewrite Hp in Hx. discriminate Hx.
        - intros Hr. destruct (H3 Hr) as [H4 H5].
          split; [constructor; assumption|]. cbn [length]. lia. }
      destruct failed; cbn [table categorized_count error_count raised];
        apply Hrest; lia.
    * cbn [table categorized_count error_count raised].
      split; [reflexivity|].
      split; [|discriminate].
      clear. induction (s :: tl) as [|x l IHl]; constructor; auto.
Qed.

(** X20.  Whatever the standard output does, a bulk run keeps the rows
    in their order with their name, email, phone and file, and leaves a
    row alone that was processed already.  When no [print] of a handler
    raised, no row is left unprocessed and every row worked on is
    counted once: the two counts add up to the number of rows that were
    unprocessed before. *)
Theorem categorize_candidates_processes_all (rows : list stored) :
  let r := categorize_candidates L rows in
  map identity (table r) = map identity rows
  /\ Forall2 (fun s s' => pending s = false -> s' = s) rows (table r)
  /\ (raised r = None ->
      Forall (fun s => is_processed (row s) = true) (table r)
      /\ categorized_count r + error_count r = count pending rows).
Proof.
cbn zeta. unfold categorize_candidates.
destruct (categorize_loop_spec rows 0 0) as (H1 & H2 & H3).
split; [exact H1|]. split; [exact H2|]. exact H3.
Qed.

(** *** On a standard output that takes every line *)

Hypothesis Hout : accepts_all L.

Lemma categorize_one_run (s : stored) :
  exists candidate,
    categorize_one L s = Return (candidate, unreadable s).
Proof.
unfold categorize_one, unreadable.
destruct (cv_file s) as [[path fname]|]; [|eauto].
destruct (extract_text_raises_or_returns Hout path
            (lower (snd (splitext fname))))
  as [[Hs [t Ht]]|[[H1 H2] [e He]]].
- rewrite Ht. rewrite lower_idem in Hs.
  assert (Hb : supportedb (snd (splitext fname)) = true)
    by (apply supportedb_iff; exact Hs).
  rewrite Hb. destruct (nonempty (strip t)); eauto.
- rewrite He, Hout. rewrite lower_idem in H1, H2.
  destruct (supportedb (snd (splitext fname))) eqn:Hb; [|eauto].
  apply supportedb_iff in Hb. destruct Hb; contradiction.
Qed.

Lemma categorize_loop_counts (rows : list stored) (c e : nat) :
  let r := categorize_loop L rows c e in
  raised r = None
  /\ categorized_count r
     = c + count (fun s => pending s && negb (unreadable s)) rows
  /\ error_count r = e + count (fun s => pending s && unreadable s) rows.
Proof.
revert c e. induction rows as [|s tl IH]; intros c e; cbn zeta.
- cbn. auto.
- cbn [categorize_loop]. unfold count, pending in *. cbn [filter].
  destruct (is_processed (row s)) eqn:Hp; cbn [negb andb].
  + destruct (IH c e) as (H1 & H2 & H3).
    cbn [categorized_count error_count raised]. auto.
  + destruct (categorize_one_run s) as [candidate ->].
    destruct (unreadable s); cbn [negb].
    * destruct (IH c (S e)) as (H1 & H2 & H3).
      cbn [categorized_count error_count raised length].
      split; [exact H1|]. split; [exact H2|]. rewrite H3. lia.
    * destruct (IH (S c) e) as (H1 & H2 & H3).
      cbn [categorized_count error_count raised length].
      split; [exact H1|]. split; [rewrite H2; lia|exact H3].
Qed.

(** X21.  On a standard output that takes every line the bulk run goes
    through all the rows, and its errors are the unprocessed rows whose
    file is there and has an extension other than .pdf and .docx: a file
    that no library can read, or that has no text, counts as
    categorized, and so does a row without a file. *)
Theorem categorize_candidates_errors (rows : list stored) :
  let r := categorize_candidates L rows in
  raised r = None
  /\ error_count r = count (fun s => pending s && unreadable s) rows
  /\ categorized_count r
     = count (fun s => pending s && negb (unreadable s)) rows.
Proof.
cbn zeta. unfold categorize_candidates.
destruct (categorize_loop_counts rows 0 0) as (H1 & H2 & H3).
split; [exact H1|]. split; [exact H3|exact H2].
Qed.

End Bulk.

Lemma categorize_candidates_errors_witness :
  let rows :=
    [ Stored 1 (uploaded "notes")
             (Some (of_string "media/cvs/notes.txt",
                    of_string "cvs/notes.txt"));
      Stored 2 (uploaded "scan")
             (Some (of_string "media/cvs/scan.pdf",
                    of_string "cvs/scan.pdf"));
      Stored 3 (uploaded "gone") None ] in
  accepts_all all_raise
  /\ error_count (categorize_candidates all_raise rows) = 1
  /\ categorized_count (categorize_candidates all_raise rows) = 2.
Proof.
intros rows.
assert (Hout : accepts_all all_raise) by (intros l; reflexivity).
split; [exact Hout|].
destruct (@categorize_candidates_errors all_raise Hout rows)
  as (_ & He & Hc).
split; [rewrite He|rewrite Hc]; vm_compute; reflexivity.
Defined.
